(** * ChatRoomWithLdd: the socket event handlers of [server.js]

    A shallow embedding of the Socket.IO part of [src/server.js]
    (connection, authenticate, joinRoom, message, typing, leaveRoom,
    disconnect), of the three in-memory maps it keeps ([onlineUsers],
    [chatroomUsers], [typingUsers]) and of the queries of the database
    module it calls ([User.findById], [Chatroom.findById],
    [Chatroom.addMember], [Chatroom.getMembers], [Message.create],
    [Message.getByChatroom]).

    JavaScript runs the handlers on one thread; an [async] handler gives
    up control at each [await] and resumes when the query has settled.
    Every handler is therefore cut at its [await]s: the piece before the
    first one ([start]), the query itself ([db_perform]) and the piece
    that resumes with the query's outcome ([continue]).  [step] lets the
    pieces of different handlers interleave.

    Further parts cover the rest of the database module that works on
    members, pins and messages, [src/auth.js] (default avatars,
    registration and login, with [bcryptjs] and the collation of the
    username column as parameters), the online count of the room list, and
    the room and typing code of the client ([handleTyping], [stopTyping],
    [sendMessage], [leaveCurrentRoom], [showChatroomList],
    [joinChatroom]), whose emissions are the events the server handles. *)

From Stdlib Require Import ZArith NArith List Bool Lia Ascii String.
From Stdlib Require Import Permutation Sorted.
Import ListNotations.

Set Implicit Arguments.

(* ================================================================== *)
(** ** JavaScript strings *)
(* ================================================================== *)

(** A JavaScript string is a sequence of UTF-16 code units. *)
Definition jsstring := list N.

Definition jsstring_eq_dec : forall a b : jsstring, {a = b} + {a <> b} :=
  list_eq_dec N.eq_dec.

(** An ASCII literal as a JavaScript string. *)
Definition js (s : string) : jsstring :=
  List.map N_of_ascii (list_ascii_of_string s).

(** ECMAScript's WhiteSpace and LineTerminator code points: what
    [String.prototype.trim] strips. *)
Definition is_js_space (c : N) : bool :=
  ((9 <=? c) && (c <=? 13) || (c =? 32) || (c =? 160) || (c =? 5760)
   || (8192 <=? c) && (c <=? 8202) || (c =? 8232) || (c =? 8233)
   || (c =? 8239) || (c =? 8287) || (c =? 12288) || (c =? 65279))%N.

Fixpoint trimStart (s : jsstring) : jsstring :=
  match s with
  | [] => []
  | c :: s' => if is_js_space c then trimStart s' else s
  end.

Definition trimEnd (s : jsstring) : jsstring := rev (trimStart (rev s)).

Definition trim (s : jsstring) : jsstring := trimEnd (trimStart s).

(** [!content || content.trim().length === 0] for a string [content]. *)
Definition blank (content : jsstring) : bool :=
  match content with
  | [] => true
  | _ => Nat.eqb (List.length (trim content)) 0
  end.

(* ================================================================== *)
(** ** JavaScript [Map] and [Set] *)
(* ================================================================== *)

(** Both iterate in insertion order, and the handlers observe it
    ([Array.from(roomTypingUsers.values())], the [for ... of
    chatroomUsers.entries()] loop of the disconnect handler), so a map
    is the list of its entries and a set the list of its elements, in
    insertion order. *)
Module JsMap.
Section Ops.
Variables K V : Type.
Variable K_eq_dec : forall a b : K, {a = b} + {a <> b}.

Definition t := list (K * V).

Fixpoint get (k : K) (m : t) : option V :=
    match m with
    | [] => None
    | (k', v) :: m' => if K_eq_dec k k' then Some v else get k m'
    end.

Definition has (k : K) (m : t) : bool :=
    match get k m with Some _ => true | None => false end.

(** [m.set(k, v)]: a present key keeps its place, a new one goes last. *)
Fixpoint set (k : K) (v : V) (m : t) : t :=
    match m with
    | [] => [(k, v)]
    | (k', v') :: m' =>
        if K_eq_dec k k' then (k, v) :: m' else (k', v') :: set k v m'
    end.

Fixpoint delete (k : K) (m : t) : t :=
    match m with
    | [] => []
    | (k', v') :: m' =>
        if K_eq_dec k k' then delete k m' else (k', v') :: delete k m'
    end.

Definition values (m : t) : list V := List.map snd m.
Definition keys (m : t) : list K := List.map fst m.
End Ops.
End JsMap.

Module JsSet.
Section Ops.
Variable A : Type.
Variable A_eq_dec : forall a b : A, {a = b} + {a <> b}.

Definition t := list A.

Definition has (x : A) (s : t) : bool :=
    if in_dec A_eq_dec x s then true else false.

Definition add (x : A) (s : t) : t :=
    if in_dec A_eq_dec x s then s else s ++ [x].

Definition delete (x : A) (s : t) : t := remove A_eq_dec x s.
End Ops.
End JsSet.

(* ================================================================== *)
(** ** The database module *)
(* ================================================================== *)

(** Rows of the tables [initializeDatabase] creates.  A [TIMESTAMP] is an
    integer; a nullable column is an [option].  The [password] column of
    [users] and the surrogate [id] of [chatroom_members] are left out: no
    query modelled here selects them. *)
Record UserRow := {
  u_id : Z;
  u_username : jsstring;
  u_nickname : jsstring;
  u_email : option jsstring;
  u_avatar : option jsstring;
  u_created_at : Z;
  u_last_login : option Z }.

Record ChatroomRow := {
  c_id : Z;
  c_name : jsstring;
  c_description : option jsstring;
  c_created_by : Z;
  c_created_at : Z;
  c_is_public : bool }.

Record MemberRow := {
  cm_chatroom_id : Z;
  cm_user_id : Z;
  cm_joined_at : Z }.

Record MessageRow := {
  m_id : Z;
  m_chatroom_id : Z;
  m_user_id : Z;
  m_content : jsstring;
  m_created_at : Z }.

Record Db := {
  users : list UserRow;
  chatrooms : list ChatroomRow;
  chatroom_members : list MemberRow;
  messages : list MessageRow;
  (** the AUTO_INCREMENT counter of [messages] *)
  messages_auto_increment : Z }.

(** [SELECT m.*, u.nickname, u.username, u.avatar]: a row of
    [Message.getByChatroom]. *)
Record HistoryRow := {
  h_message : MessageRow;
  h_nickname : jsstring;
  h_username : jsstring;
  h_avatar : option jsstring }.

(** [SELECT u.id, u.username, u.nickname, cm.joined_at]: a row of
    [Chatroom.getMembers]. *)
Record MemberView := {
  mv_id : Z;
  mv_username : jsstring;
  mv_nickname : jsstring;
  mv_joined_at : Z }.

(** What [Message.create] returns: [{ id, chatroom_id, user_id, content }]. *)
Record CreatedMessage := {
  cr_id : Z;
  cr_chatroom_id : Z;
  cr_user_id : Z;
  cr_content : jsstring }.

(** [ORDER BY]: a stable insertion sort; [before x y] says that [x] may
    stand in front of [y].  MySQL leaves the order of rows with equal
    keys open; here they keep the table's order. *)
Section OrderBy.
Variable A : Type.
Variable before : A -> A -> bool.

Fixpoint insert_row (x : A) (l : list A) : list A :=
    match l with
    | [] => [x]
    | y :: l' => if before x y then x :: l else y :: insert_row x l'
    end.

Fixpoint order_by (l : list A) : list A :=
    match l with
    | [] => []
    | x :: l' => insert_row x (order_by l')
    end.
End OrderBy.

Open Scope Z_scope.

(** [User.findById]: [rows[0] || null]. *)
Definition User_findById (db : Db) (id : Z) : option UserRow :=
  List.find (fun u => u_id u =? id) (users db).

(** [Chatroom.findById]: [rows[0] || null]. *)
Definition Chatroom_findById (db : Db) (id : Z) : option ChatroomRow :=
  List.find (fun c => c_id c =? id) (chatrooms db).

Definition is_member (db : Db) (chatroomId userId : Z) : bool :=
  existsb (fun r => (cm_chatroom_id r =? chatroomId) && (cm_user_id r =? userId))
          (chatroom_members db).

Definition user_exists (db : Db) (id : Z) : bool :=
  existsb (fun u => u_id u =? id) (users db).

Definition chatroom_exists (db : Db) (id : Z) : bool :=
  existsb (fun c => c_id c =? id) (chatrooms db).

(** [Chatroom.addMember]: [INSERT IGNORE INTO chatroom_members].  A row
    that would break the unique key [(chatroom_id, user_id)] or one of the
    two foreign keys is dropped without an error; [now] is the store's
    [CURRENT_TIMESTAMP]. *)
Definition Chatroom_addMember (now : Z) (chatroomId userId : Z) (db : Db) : Db :=
  if is_member db chatroomId userId
     || negb (chatroom_exists db chatroomId)
     || negb (user_exists db userId)
  then db
  else {| users := users db;
          chatrooms := chatrooms db;
          chatroom_members :=
            chatroom_members db ++
            [{| cm_chatroom_id := chatroomId; cm_user_id := userId;
                cm_joined_at := now |}];
          messages := messages db;
          messages_auto_increment := messages_auto_increment db |}.

(** [Chatroom.getMembers]: members joined with their users, oldest
    membership first. *)
Definition Chatroom_getMembers (db : Db) (chatroomId : Z) : list MemberView :=
  order_by (fun a b => mv_joined_at a <=? mv_joined_at b)
    (flat_map
       (fun cm =>
          List.map
            (fun u => {| mv_id := u_id u; mv_username := u_username u;
                         mv_nickname := u_nickname u;
                         mv_joined_at := cm_joined_at cm |})
            (List.filter (fun u => u_id u =? cm_user_id cm) (users db)))
       (List.filter (fun cm => cm_chatroom_id cm =? chatroomId)
                    (chatroom_members db))).

(** [Message.create]: [INSERT INTO messages].  The insert throws ([None])
    when a foreign key has no target; otherwise the row gets the next
    AUTO_INCREMENT id and the store's [CURRENT_TIMESTAMP]. *)
Definition Message_create (now : Z) (chatroom_id user_id : Z)
    (content : jsstring) (db : Db) : option (Db * CreatedMessage) :=
  if chatroom_exists db chatroom_id && user_exists db user_id then
    let id := messages_auto_increment db in
    Some ({| users := users db;
             chatrooms := chatrooms db;
             chatroom_members := chatroom_members db;
             messages :=
               messages db ++
               [{| m_id := id; m_chatroom_id := chatroom_id;
                   m_user_id := user_id; m_content := content;
                   m_created_at := now |}];
             messages_auto_increment := id + 1 |},
          {| cr_id := id; cr_chatroom_id := chatroom_id;
             cr_user_id := user_id; cr_content := content |})
  else None.

(** [parseInt(limit) || 100] for a non-negative integer [limit]. *)
Definition safeLimit (limit : nat) : nat :=
  match limit with O => 100%nat | _ => limit end.

(** The rows [Message.getByChatroom] selects, before ordering: the
    room's messages joined with their authors. *)
Definition history_rows (db : Db) (chatroomId : Z) : list HistoryRow :=
  flat_map
    (fun m =>
       List.map
         (fun u => {| h_message := m; h_nickname := u_nickname u;
                      h_username := u_username u; h_avatar := u_avatar u |})
         (List.filter (fun u => u_id u =? m_user_id m) (users db)))
    (List.filter (fun m => m_chatroom_id m =? chatroomId) (messages db)).

Definition h_created_at (h : HistoryRow) : Z := m_created_at (h_message h).

(** [Message.getByChatroom]: [ORDER BY m.created_at DESC LIMIT safeLimit],
    then [rows.reverse()]. *)
Definition Message_getByChatroom (db : Db) (chatroomId : Z) (limit : nat)
    : list HistoryRow :=
  rev (firstn (safeLimit limit)
         (order_by (fun a b => h_created_at b <=? h_created_at a)
                   (history_rows db chatroomId))).

(* ================================================================== *)
(** ** The server's state and what it sends *)
(* ================================================================== *)

(** [socket.id]. *)
Definition SocketId := jsstring.

(** [socket.user]. *)
Record UserInfo := {
  ui_id : Z;
  ui_nickname : jsstring;
  ui_username : jsstring;
  ui_email : option jsstring;
  ui_avatar : option jsstring }.

(** A value of a room's typing map: [{ id, nickname }]. *)
Record TypingInfo := {
  ty_id : Z;
  ty_nickname : jsstring }.

(** [messageData], the payload of a broadcast [message]. *)
Record MessageData := {
  md_id : Z;
  md_userId : Z;
  md_nickname : jsstring;
  md_username : jsstring;
  md_avatar : option jsstring;
  md_content : jsstring;
  md_timestamp : jsstring;
  md_chatroomId : Z }.

(** The events the server emits, with their payloads. *)
Inductive ServerEvent :=
| EvError (message : jsstring)
| EvAuthenticated
| EvMessageHistory (messages : list HistoryRow)
| EvRoomMembers (members : list MemberView)
| EvUserJoined (id : Z) (nickname username message : jsstring)
| EvUserLeft (id : Z) (nickname message : jsstring)
| EvMessage (messageData : MessageData)
| EvTypingUsers (chatroomId : Z) (typingList : list TypingInfo).

(** One event sent to one socket. *)
Definition Emission := (SocketId * ServerEvent)%type.

(** The texts of the [error] events and of the join and leave notices,
    as code units. *)
Definition msg_user_not_found : jsstring :=    (* user does not exist *)
  [29992; 25143; 19981; 23384; 22312]%N.
Definition msg_auth_failed : jsstring :=       (* authentication failed *)
  [35748; 35777; 22833; 36133]%N.
Definition msg_login_first : jsstring :=       (* please log in first *)
  [35831; 20808; 30331; 24405]%N.
Definition msg_room_not_found : jsstring :=    (* chat room does not exist *)
  [32842; 22825; 23460; 19981; 23384; 22312]%N.
Definition msg_join_failed : jsstring :=       (* joining the room failed *)
  [21152; 20837; 32842; 22825; 23460; 22833; 36133]%N.
Definition msg_send_failed : jsstring :=       (* sending the message failed *)
  [21457; 36865; 28040; 24687; 22833; 36133]%N.
Definition txt_joined : jsstring :=            (* " joined the chat room" *)
  [32; 21152; 20837; 20102; 32842; 22825; 23460]%N.
Definition txt_left : jsstring :=              (* " left the chat room" *)
  [32; 31163; 24320; 20102; 32842; 22825; 23460]%N.

(** The server: the sockets that are connected, each with its [user]
    field, Socket.IO's rooms (the room named [room_<chatroomId>] is keyed
    by [chatroomId]), and the three global maps.

    A socket is in [sockets] from its [connection] until Socket.IO closes
    it.  Once it is closed no handler starts for it any more, so nothing
    reads its [user] field again: the handlers that are still waiting for
    a query have read it into their local [user] before their first
    [await], and [authenticate] only writes it. *)
Record Server := {
  sockets : JsMap.t SocketId (option UserInfo);
  rooms : JsMap.t Z (JsSet.t SocketId);
  onlineUsers : JsMap.t SocketId UserInfo;
  chatroomUsers : JsMap.t Z (JsSet.t SocketId);
  typingUsers : JsMap.t Z (JsMap.t SocketId TypingInfo) }.

Definition empty_server : Server :=
  {| sockets := []; rooms := []; onlineUsers := []; chatroomUsers := [];
     typingUsers := [] |}.

Definition with_sockets (v : JsMap.t SocketId (option UserInfo)) (s : Server) :=
  {| sockets := v; rooms := rooms s; onlineUsers := onlineUsers s;
     chatroomUsers := chatroomUsers s; typingUsers := typingUsers s |}.

Definition with_rooms (v : JsMap.t Z (JsSet.t SocketId)) (s : Server) :=
  {| sockets := sockets s; rooms := v; onlineUsers := onlineUsers s;
     chatroomUsers := chatroomUsers s; typingUsers := typingUsers s |}.

Definition with_onlineUsers (v : JsMap.t SocketId UserInfo) (s : Server) :=
  {| sockets := sockets s; rooms := rooms s; onlineUsers := v;
     chatroomUsers := chatroomUsers s; typingUsers := typingUsers s |}.

Definition with_chatroomUsers (v : JsMap.t Z (JsSet.t SocketId)) (s : Server) :=
  {| sockets := sockets s; rooms := rooms s; onlineUsers := onlineUsers s;
     chatroomUsers := v; typingUsers := typingUsers s |}.

Definition with_typingUsers (v : JsMap.t Z (JsMap.t SocketId TypingInfo))
    (s : Server) :=
  {| sockets := sockets s; rooms := rooms s; onlineUsers := onlineUsers s;
     chatroomUsers := chatroomUsers s; typingUsers := v |}.

(** [socket.user] of a connected socket, [null] being [None]; there is
    none for a socket that is not connected. *)
Definition socket_user (s : Server) (sock : SocketId) : option UserInfo :=
  match JsMap.get jsstring_eq_dec sock (sockets s) with
  | Some u => u
  | None => None
  end.

(** The sockets in Socket.IO's room [room_<chatroomId>]. *)
Definition room_sockets (s : Server) (chatroomId : Z) : list SocketId :=
  match JsMap.get Z.eq_dec chatroomId (rooms s) with
  | Some l => l
  | None => []
  end.

(** The set [chatroomUsers] holds for a room, empty when it has none. *)
Definition chatroom_sockets (s : Server) (chatroomId : Z) : list SocketId :=
  match JsMap.get Z.eq_dec chatroomId (chatroomUsers s) with
  | Some l => l
  | None => []
  end.

(** A room's typing map, empty when there is none. *)
Definition room_typing (s : Server) (chatroomId : Z)
    : JsMap.t SocketId TypingInfo :=
  match JsMap.get Z.eq_dec chatroomId (typingUsers s) with
  | Some m => m
  | None => []
  end.

(** The socket is connected: Socket.IO has not closed it. *)
Definition is_connected (s : Server) (sock : SocketId) : bool :=
  JsMap.has jsstring_eq_dec sock (sockets s).

(** [socket.join(`room_${chatroomId}`)].  When Socket.IO closes a socket
    it replaces the socket's [join] by a function that does nothing, so a
    handler that resumes after its socket has disconnected joins no
    room. *)
Definition socket_join (sock : SocketId) (chatroomId : Z) (s : Server) : Server :=
  if is_connected s sock
  then with_rooms
         (JsMap.set Z.eq_dec chatroomId
            (JsSet.add jsstring_eq_dec sock (room_sockets s chatroomId))
            (rooms s)) s
  else s.

(** [socket.user = v].  On a closed socket the write goes to an object
    that nothing reads again. *)
Definition set_socket_user (sock : SocketId) (v : option UserInfo) (s : Server)
    : Server :=
  if is_connected s sock
  then with_sockets (JsMap.set jsstring_eq_dec sock v (sockets s)) s
  else s.

(** [socket.leave(`room_${chatroomId}`)]. *)
Definition socket_leave (sock : SocketId) (chatroomId : Z) (s : Server) : Server :=
  match JsMap.get Z.eq_dec chatroomId (rooms s) with
  | Some l =>
      with_rooms
        (JsMap.set Z.eq_dec chatroomId (JsSet.delete jsstring_eq_dec sock l)
           (rooms s)) s
  | None => s
  end.

(** What Socket.IO does to a socket that disconnects before it fires
    [disconnect]: the socket leaves every room (and its [join] does
    nothing from then on, see [socket_join] and [on_disconnect]). *)
Definition leave_all (sock : SocketId) (s : Server) : Server :=
  with_rooms
    (List.map (fun e => (fst e, JsSet.delete jsstring_eq_dec sock (snd e)))
              (rooms s)) s.

(** [socket.emit(ev)]. *)
Definition socket_emit (sock : SocketId) (ev : ServerEvent) : list Emission :=
  [(sock, ev)].

(** [io.to(`room_${chatroomId}`).emit(ev)]: every socket in the room. *)
Definition io_to_emit (s : Server) (chatroomId : Z) (ev : ServerEvent)
    : list Emission :=
  List.map (fun t => (t, ev)) (room_sockets s chatroomId).

(** [socket.to(`room_${chatroomId}`).emit(ev)]: every socket in the room
    but the sender. *)
Definition socket_to_emit (sock : SocketId) (s : Server) (chatroomId : Z)
    (ev : ServerEvent) : list Emission :=
  List.map (fun t => (t, ev))
    (JsSet.delete jsstring_eq_dec sock (room_sockets s chatroomId)).

(* ================================================================== *)
(** ** The handlers, cut at their awaits *)
(* ================================================================== *)

(** How an awaited query settles. *)
Inductive Outcome (A : Type) :=
| Resolved (a : A)
| Rejected.
Arguments Rejected {A}.

(** A query a handler waits for, with the locals its continuation
    keeps ([user] is read from [socket.user] before the first await). *)
Inductive Await :=
| AwUserFind (sock : SocketId) (id : Z)
| AwRoomFind (sock : SocketId) (user : UserInfo) (chatroomId : Z)
| AwAddMember (sock : SocketId) (user : UserInfo) (chatroomId : Z)
| AwHistory (sock : SocketId) (user : UserInfo) (chatroomId : Z)
| AwMembers (sock : SocketId) (user : UserInfo) (chatroomId : Z)
| AwCreate (sock : SocketId) (user : UserInfo) (chatroomId : Z)
    (content : jsstring).

(** A settled query, ready to resume its handler. *)
Inductive Ready :=
| RdUserFind (sock : SocketId) (o : Outcome (option UserRow))
| RdRoomFind (sock : SocketId) (user : UserInfo) (chatroomId : Z)
    (o : Outcome (option ChatroomRow))
| RdAddMember (sock : SocketId) (user : UserInfo) (chatroomId : Z)
    (o : Outcome unit)
| RdHistory (sock : SocketId) (user : UserInfo) (chatroomId : Z)
    (o : Outcome (list HistoryRow))
| RdMembers (sock : SocketId) (user : UserInfo) (chatroomId : Z)
    (o : Outcome (list MemberView))
| RdCreate (sock : SocketId) (user : UserInfo) (chatroomId : Z)
    (content : jsstring) (o : Outcome CreatedMessage).

(** A piece of a handler: the new state, what was sent, and the query
    it now waits for, if any. *)
Definition Piece := (Server * list Emission * option Await)%type.

(** [io.on('connection')]: [socket.user = null]. *)
Definition on_connection (sock : SocketId) (s : Server) : Server :=
  with_sockets (JsMap.set jsstring_eq_dec sock None (sockets s)) s.

(** *** authenticate *)

Definition authenticate_start (sock : SocketId) (id : Z) (s : Server) : Piece :=
  (s, [], Some (AwUserFind sock id)).

Definition authenticate_found (sock : SocketId)
    (o : Outcome (option UserRow)) (s : Server) : Piece :=
  match o with
  | Rejected => (s, socket_emit sock (EvError msg_auth_failed), None)
  | Resolved None => (s, socket_emit sock (EvError msg_user_not_found), None)
  | Resolved (Some user) =>
      let info := {| ui_id := u_id user; ui_nickname := u_nickname user;
                     ui_username := u_username user; ui_email := u_email user;
                     ui_avatar := u_avatar user |} in
      let s1 := set_socket_user sock (Some info) s in
      let s2 := with_onlineUsers
                  (JsMap.set jsstring_eq_dec sock info (onlineUsers s1)) s1 in
      (s2, socket_emit sock EvAuthenticated, None)
  end.

(** *** joinRoom *)

Definition joinRoom_start (sock : SocketId) (chatroomId : Z) (s : Server)
    : Piece :=
  match socket_user s sock with
  | None => (s, socket_emit sock (EvError msg_login_first), None)
  | Some user => (s, [], Some (AwRoomFind sock user chatroomId))
  end.

Definition joinRoom_found (sock : SocketId) (user : UserInfo) (chatroomId : Z)
    (o : Outcome (option ChatroomRow)) (s : Server) : Piece :=
  match o with
  | Rejected => (s, socket_emit sock (EvError msg_join_failed), None)
  | Resolved None => (s, socket_emit sock (EvError msg_room_not_found), None)
  | Resolved (Some _) => (s, [], Some (AwAddMember sock user chatroomId))
  end.

Definition joinRoom_added (sock : SocketId) (user : UserInfo) (chatroomId : Z)
    (o : Outcome unit) (s : Server) : Piece :=
  match o with
  | Rejected => (s, socket_emit sock (EvError msg_join_failed), None)
  | Resolved _ =>
      let s1 := socket_join sock chatroomId s in
      let s2 := with_chatroomUsers
                  (JsMap.set Z.eq_dec chatroomId
                     (JsSet.add jsstring_eq_dec sock
                        (chatroom_sockets s1 chatroomId))
                     (chatroomUsers s1)) s1 in
      (s2, [], Some (AwHistory sock user chatroomId))
  end.

Definition joinRoom_history (sock : SocketId) (user : UserInfo)
    (chatroomId : Z) (o : Outcome (list HistoryRow)) (s : Server) : Piece :=
  match o with
  | Rejected => (s, socket_emit sock (EvError msg_join_failed), None)
  | Resolved messages =>
      (s, socket_emit sock (EvMessageHistory messages),
       Some (AwMembers sock user chatroomId))
  end.

Definition joinRoom_members (sock : SocketId) (user : UserInfo)
    (chatroomId : Z) (o : Outcome (list MemberView)) (s : Server) : Piece :=
  match o with
  | Rejected => (s, socket_emit sock (EvError msg_join_failed), None)
  | Resolved members =>
      (s,
       socket_emit sock (EvRoomMembers members) ++
       socket_to_emit sock s chatroomId
         (EvUserJoined (ui_id user) (ui_nickname user) (ui_username user)
            (ui_nickname user ++ txt_joined)),
       None)
  end.

(** *** message *)

Definition message_start (sock : SocketId) (chatroomId : Z)
    (content : jsstring) (s : Server) : Piece :=
  match socket_user s sock with
  | None => (s, socket_emit sock (EvError msg_login_first), None)
  | Some user =>
      if blank content then (s, [], None)
      else (s, [], Some (AwCreate sock user chatroomId content))
  end.

(** [clock] is [new Date().toLocaleTimeString('zh-CN')] at the moment the
    handler resumes. *)
Definition message_created (clock : jsstring) (sock : SocketId)
    (user : UserInfo) (chatroomId : Z) (content : jsstring)
    (o : Outcome CreatedMessage) (s : Server) : Piece :=
  match o with
  | Rejected => (s, socket_emit sock (EvError msg_send_failed), None)
  | Resolved message =>
      let messageData :=
        {| md_id := cr_id message; md_userId := ui_id user;
           md_nickname := ui_nickname user; md_username := ui_username user;
           md_avatar := ui_avatar user; md_content := trim content;
           md_timestamp := clock; md_chatroomId := chatroomId |} in
      (s, io_to_emit s chatroomId (EvMessage messageData), None)
  end.

(** *** typing (no await) *)

Definition on_typing (sock : SocketId) (chatroomId : Z) (isTyping : bool)
    (s : Server) : Server * list Emission :=
  match socket_user s sock with
  | None => (s, [])
  | Some user =>
      let roomTypingUsers := room_typing s chatroomId in
      let roomTypingUsers' :=
        if isTyping
        then JsMap.set jsstring_eq_dec sock
               {| ty_id := ui_id user; ty_nickname := ui_nickname user |}
               roomTypingUsers
        else JsMap.delete jsstring_eq_dec sock roomTypingUsers in
      let s' := with_typingUsers
                  (JsMap.set Z.eq_dec chatroomId roomTypingUsers'
                     (typingUsers s)) s in
      (s', io_to_emit s' chatroomId
             (EvTypingUsers chatroomId (JsMap.values roomTypingUsers')))
  end.

(** *** leaveRoom (no await) *)

Definition on_leaveRoom (sock : SocketId) (chatroomId : Z) (s : Server)
    : Server * list Emission :=
  match socket_user s sock with
  | None => (s, [])
  | Some user =>
      let s1 := socket_leave sock chatroomId s in
      let s2 :=
        match JsMap.get Z.eq_dec chatroomId (chatroomUsers s1) with
        | Some socketIds =>
            with_chatroomUsers
              (JsMap.set Z.eq_dec chatroomId
                 (JsSet.delete jsstring_eq_dec sock socketIds)
                 (chatroomUsers s1)) s1
        | None => s1
        end in
      (s2, socket_to_emit sock s2 chatroomId
             (EvUserLeft (ui_id user) (ui_nickname user)
                (ui_nickname user ++ txt_left)))
  end.

(** *** disconnect (no await) *)

(** One turn of the loop over [chatroomUsers.entries()]. *)
Definition disconnect_room (sock : SocketId) (user : UserInfo)
    (acc : Server * list Emission) (chatroomId : Z) : Server * list Emission :=
  let (s, out) := acc in
  match JsMap.get Z.eq_dec chatroomId (chatroomUsers s) with
  | None => acc
  | Some socketIds =>
      if JsSet.has jsstring_eq_dec sock socketIds then
        let s1 := with_chatroomUsers
                    (JsMap.set Z.eq_dec chatroomId
                       (JsSet.delete jsstring_eq_dec sock socketIds)
                       (chatroomUsers s)) s in
        let (s2, typingOut) :=
          match JsMap.get Z.eq_dec chatroomId (typingUsers s1) with
          | Some roomTypingUsers =>
              let roomTypingUsers' :=
                JsMap.delete jsstring_eq_dec sock roomTypingUsers in
              let s2 := with_typingUsers
                          (JsMap.set Z.eq_dec chatroomId roomTypingUsers'
                             (typingUsers s1)) s1 in
              (s2, socket_to_emit sock s2 chatroomId
                     (EvTypingUsers chatroomId (JsMap.values roomTypingUsers')))
          | None => (s1, [])
          end in
        (s2, out ++ typingOut ++
             socket_to_emit sock s2 chatroomId
               (EvUserLeft (ui_id user) (ui_nickname user)
                  (ui_nickname user ++ txt_left)))
      else acc
  end.

(** The handler runs on the socket object, whose [user] is still there;
    when it has returned the socket is closed for good and is taken out of
    [sockets]. *)
Definition on_disconnect (sock : SocketId) (s : Server)
    : Server * list Emission :=
  let s0 := leave_all sock s in
  let (s1, out) :=
    match socket_user s0 sock with
    | Some user =>
        fold_left (disconnect_room sock user)
                  (JsMap.keys (chatroomUsers s0)) (s0, [])
    | None => (s0, [])
    end in
  let s2 := with_onlineUsers
              (JsMap.delete jsstring_eq_dec sock (onlineUsers s1)) s1 in
  (with_sockets (JsMap.delete jsstring_eq_dec sock (sockets s2)) s2, out).

(* ================================================================== *)
(** ** The event loop *)
(* ================================================================== *)

(** What a client sends; the payloads are well-formed ([chatroomId] and
    [id] numbers, [content] a string, [isTyping] a boolean). *)
Inductive ClientEvent :=
| Connection
| Authenticate (id : Z)
| JoinRoom (chatroomId : Z)
| Message (chatroomId : Z) (content : jsstring)
| Typing (chatroomId : Z) (isTyping : bool)
| LeaveRoom (chatroomId : Z)
| Disconnect.

(** The synchronous start of the handler of a client event. *)
Definition start (sock : SocketId) (ev : ClientEvent) (s : Server) : Piece :=
  match ev with
  | Connection => (on_connection sock s, [], None)
  | Authenticate id => authenticate_start sock id s
  | JoinRoom chatroomId => joinRoom_start sock chatroomId s
  | Message chatroomId content => message_start sock chatroomId content s
  | Typing chatroomId isTyping =>
      let (s', out) := on_typing sock chatroomId isTyping s in (s', out, None)
  | LeaveRoom chatroomId =>
      let (s', out) := on_leaveRoom sock chatroomId s in (s', out, None)
  | Disconnect =>
      let (s', out) := on_disconnect sock s in (s', out, None)
  end.

(** The store runs an awaited query at time [now]. *)
Definition db_perform (now : Z) (a : Await) (d : Db) : Db * Ready :=
  match a with
  | AwUserFind sock id =>
      (d, RdUserFind sock (Resolved (User_findById d id)))
  | AwRoomFind sock user chatroomId =>
      (d, RdRoomFind sock user chatroomId
            (Resolved (Chatroom_findById d chatroomId)))
  | AwAddMember sock user chatroomId =>
      (Chatroom_addMember now chatroomId (ui_id user) d,
       RdAddMember sock user chatroomId (Resolved tt))
  | AwHistory sock user chatroomId =>
      (d, RdHistory sock user chatroomId
            (Resolved (Message_getByChatroom d chatroomId 50)))
  | AwMembers sock user chatroomId =>
      (d, RdMembers sock user chatroomId
            (Resolved (Chatroom_getMembers d chatroomId)))
  | AwCreate sock user chatroomId content =>
      match Message_create now chatroomId (ui_id user) (trim content) d with
      | Some (d', message) =>
          (d', RdCreate sock user chatroomId content (Resolved message))
      | None => (d, RdCreate sock user chatroomId content Rejected)
      end
  end.

(** The store fails the query (connection lost, timeout): the promise is
    rejected and the tables stay as they are. *)
Definition db_fail (a : Await) : Ready :=
  match a with
  | AwUserFind sock _ => RdUserFind sock Rejected
  | AwRoomFind sock user chatroomId => RdRoomFind sock user chatroomId Rejected
  | AwAddMember sock user chatroomId => RdAddMember sock user chatroomId Rejected
  | AwHistory sock user chatroomId => RdHistory sock user chatroomId Rejected
  | AwMembers sock user chatroomId => RdMembers sock user chatroomId Rejected
  | AwCreate sock user chatroomId content =>
      RdCreate sock user chatroomId content Rejected
  end.

(** The handler resumes after its await. *)
Definition continue (clock : jsstring) (r : Ready) (s : Server) : Piece :=
  match r with
  | RdUserFind sock o => authenticate_found sock o s
  | RdRoomFind sock user chatroomId o => joinRoom_found sock user chatroomId o s
  | RdAddMember sock user chatroomId o => joinRoom_added sock user chatroomId o s
  | RdHistory sock user chatroomId o => joinRoom_history sock user chatroomId o s
  | RdMembers sock user chatroomId o => joinRoom_members sock user chatroomId o s
  | RdCreate sock user chatroomId content o =>
      message_created clock sock user chatroomId content o s
  end.

(** A handler that reached an await: its query is still running, has
    settled, or the handler has returned. *)
Inductive Task :=
| Waiting (a : Await)
| Settled (r : Ready)
| Finished.

Record World := {
  server : Server;
  db : Db;
  (** the handlers that reached an await, in the order they did *)
  tasks : list Task }.

Definition task_of (a : option Await) : Task :=
  match a with Some a => Waiting a | None => Finished end.

Fixpoint set_nth (A : Type) (n : nat) (x : A) (l : list A) : list A :=
  match l, n with
  | [], _ => []
  | _ :: l', O => x :: l'
  | y :: l', S n' => y :: set_nth n' x l'
  end.

(** What can happen next: a client event arrives, the store runs or fails
    the query of task [n], or task [n] resumes. *)
Inductive Label :=
| Client (sock : SocketId) (ev : ClientEvent)
| Query (n : nat) (now : Z)
| QueryFails (n : nat)
| Resume (n : nat) (clock : jsstring).

Definition step (l : Label) (w : World) : World * list Emission :=
  match l with
  | Client sock ev =>
      let '(s', out, a) := start sock ev (server w) in
      ({| server := s'; db := db w;
          tasks := tasks w ++
                   match a with Some a => [Waiting a] | None => [] end |},
       out)
  | Query n now =>
      match nth_error (tasks w) n with
      | Some (Waiting a) =>
          let (d', r) := db_perform now a (db w) in
          ({| server := server w; db := d';
              tasks := set_nth n (Settled r) (tasks w) |}, [])
      | _ => (w, [])
      end
  | QueryFails n =>
      match nth_error (tasks w) n with
      | Some (Waiting a) =>
          ({| server := server w; db := db w;
              tasks := set_nth n (Settled (db_fail a)) (tasks w) |}, [])
      | _ => (w, [])
      end
  | Resume n clock =>
      match nth_error (tasks w) n with
      | Some (Settled r) =>
          let '(s', out, a) := continue clock r (server w) in
          ({| server := s'; db := db w;
              tasks := set_nth n (task_of a) (tasks w) |}, out)
      | _ => (w, [])
      end
  end.

(** A run: the labels in order, with everything that was sent. *)
Fixpoint run (ls : list Label) (w : World) : World * list Emission :=
  match ls with
  | [] => (w, [])
  | l :: ls' =>
      let (w1, out1) := step l w in
      let (w2, out2) := run ls' w1 in
      (w2, out1 ++ out2)
  end.

(** A handler run without interleaving: each query is run by the store
    as soon as it is awaited and the handler resumes at once.  No handler
    has more than four awaits. *)
Fixpoint drive (fuel : nat) (now : Z) (clock : jsstring) (p : Piece) (d : Db)
    : Server * Db * list Emission * option Await :=
  let '(s, out, a) := p in
  match a, fuel with
  | Some q, S fuel' =>
      let (d', r) := db_perform now q d in
      let '(s', d'', out', a') :=
        drive fuel' now clock (continue clock r s) d' in
      (s', d'', out ++ out', a')
  | _, _ => (s, d, out, a)
  end.

Definition handle (now : Z) (clock : jsstring) (sock : SocketId)
    (ev : ClientEvent) (s : Server) (d : Db)
    : Server * Db * list Emission * option Await :=
  drive 4 now clock (start sock ev s) d.

Definition is_userJoined (ev : ServerEvent) : bool :=
  match ev with EvUserJoined _ _ _ _ => true | _ => false end.
Definition is_userLeft (ev : ServerEvent) : bool :=
  match ev with EvUserLeft _ _ _ => true | _ => false end.
Definition is_message (ev : ServerEvent) : bool :=
  match ev with EvMessage _ => true | _ => false end.
Definition is_typingUsers (ev : ServerEvent) : bool :=
  match ev with EvTypingUsers _ _ => true | _ => false end.

(** [sock] is sent an event of kind [kind] in [out]. *)
Definition receives (kind : ServerEvent -> bool) (sock : SocketId)
    (out : list Emission) : Prop :=
  exists ev, In (sock, ev) out /\ kind ev = true.

(** [sock] has an entry in the typing map of room [chatroomId]. *)
Definition typing_entry (s : Server) (chatroomId : Z) (sock : SocketId) : bool :=
  JsMap.has jsstring_eq_dec sock (room_typing s chatroomId).

(** Label [l] resumes task [n]. *)
Definition is_resume_of (n : nat) (l : Label) : bool :=
  match l with Resume m _ => Nat.eqb m n | _ => false end.

(** Task [n] is the publish of [content] to room [R] by [sock], and its
    insert has succeeded. *)
Definition persisted (w : World) (n : nat) (sock : SocketId) (user : UserInfo)
    (R : Z) (content : jsstring) : Prop :=
  exists m,
    nth_error (tasks w) n =
    Some (Settled (RdCreate sock user R content (Resolved m))).

(** Task [n] is that publish, not yet resumed. *)
Definition publish_in_flight (w : World) (n : nat) (sock : SocketId)
    (user : UserInfo) (R : Z) (content : jsstring) : Prop :=
  nth_error (tasks w) n = Some (Waiting (AwCreate sock user R content)) \/
  exists o, nth_error (tasks w) n = Some (Settled (RdCreate sock user R content o)).

(** The socket whose handler a settled query resumes. *)
Definition ready_socket (r : Ready) : SocketId :=
  match r with
  | RdUserFind sock _ => sock
  | RdRoomFind sock _ _ _ => sock
  | RdAddMember sock _ _ _ => sock
  | RdHistory sock _ _ _ => sock
  | RdMembers sock _ _ _ => sock
  | RdCreate sock _ _ _ _ => sock
  end.

(** What a piece sent. *)
Definition sent (p : Piece) : list Emission := snd (fst p).

(** A run with the time at which each step happens.  The server sets no
    timer ([server.js] has no [setTimeout] or [setInterval]), so between
    two steps its state stays as it is: the state at time [T] is the
    state after the steps that happened up to [T]. *)
Definition TimedRun := list (Z * Label).

Definition upto (T : Z) (r : TimedRun) : list Label :=
  List.map snd (List.filter (fun e => fst e <=? T) r).

(** Label [l] is [sock] saying it stopped typing in room [R], or [sock]
    disconnecting. *)
Definition stops_typing (sock : SocketId) (R : Z) (l : Label) : bool :=
  match l with
  | Client c (Typing R' false) =>
      (if jsstring_eq_dec c sock then true else false) && (R' =? R)
  | Client c Disconnect => if jsstring_eq_dec c sock then true else false
  | _ => false
  end.

(* ------------------------------------------------------------------ *)
(** *** A small world for the examples *)
(* ------------------------------------------------------------------ *)

Definition alice : UserRow :=
  {| u_id := 1; u_username := js "alice"; u_nickname := js "Alice";
     u_email := None; u_avatar := None; u_created_at := 0;
     u_last_login := None |}.
Definition bob : UserRow :=
  {| u_id := 2; u_username := js "bob"; u_nickname := js "Bob";
     u_email := None; u_avatar := None; u_created_at := 0;
     u_last_login := None |}.
Definition carol : UserRow :=
  {| u_id := 3; u_username := js "carol"; u_nickname := js "Carol";
     u_email := None; u_avatar := None; u_created_at := 0;
     u_last_login := None |}.
Definition lobby : ChatroomRow :=
  {| c_id := 42; c_name := js "lobby"; c_description := None;
     c_created_by := 1; c_created_at := 0; c_is_public := true |}.

Definition demo_db : Db :=
  {| users := [alice; bob; carol]; chatrooms := [lobby];
     chatroom_members := []; messages := []; messages_auto_increment := 1 |}.

Definition demo_world : World :=
  {| server := empty_server; db := demo_db; tasks := [] |}.

Definition info_of (u : UserRow) : UserInfo :=
  {| ui_id := u_id u; ui_nickname := u_nickname u;
     ui_username := u_username u; ui_email := u_email u;
     ui_avatar := u_avatar u |}.

Definition sockA : SocketId := js "sockA".
Definition sockB : SocketId := js "sockB".
Definition sockC : SocketId := js "sockC".

(** A socket connects and authenticates as user [id]; the handler's
    query is task [n]. *)
Definition login (sock : SocketId) (id : Z) (n : nat) : list Label :=
  [Client sock Connection; Client sock (Authenticate id);
   Query n 0; Resume n []].

(** A socket joins room [R] with nothing in between; the handler is task
    [n] and its four queries run at time [now]. *)
Definition join (sock : SocketId) (R : Z) (n : nat) (now : Z) : list Label :=
  [Client sock (JoinRoom R);
   Query n now; Resume n []; Query n now; Resume n [];
   Query n now; Resume n []; Query n now; Resume n []].

(** Alice, Bob and Carol are logged in on [sockA], [sockB] and [sockC];
    [sockA] and [sockB] are in room 42. *)
Definition lobby_world : World :=
  fst (run (login sockA 1 0 ++ login sockB 2 1 ++ login sockC 3 2 ++
            join sockA 42 3 10 ++ join sockB 42 4 11) demo_world).

(** A socket publishes [content] to room [R] with nothing in between;
    the handler is task [n] and the insert runs at time [now]. *)
Definition say (sock : SocketId) (R : Z) (content : jsstring) (n : nat)
    (now : Z) : list Label :=
  [Client sock (Message R content); Query n now; Resume n (js "12:00:00")].

(** Three messages in room 42, stored with the timestamps 30, 20, 40. *)
Definition chatty_world : World :=
  fst (run (say sockA 42 (js "one") 5 30 ++ say sockB 42 (js " two ") 6 20 ++
            say sockA 42 (js "three") 7 40) lobby_world).

(** A socket types in room 42, leaves it and disconnects. *)
Definition typed_left_gone : World :=
  fst (run [Client sockA (Typing 42 true); Client sockA (LeaveRoom 42);
            Client sockA Disconnect] lobby_world).

(** A socket types in room 7, which it never joined, and disconnects. *)
Definition typed_outside_gone : World :=
  fst (run [Client sockC (Typing 7 true); Client sockC Disconnect] lobby_world).

(* ------------------------------------------------------------------ *)
(** *** Runs of the server *)
(* ------------------------------------------------------------------ *)

(** The socket whose handler waits for a query. *)
Definition await_socket (a : Await) : SocketId :=
  match a with
  | AwUserFind sock _ => sock
  | AwRoomFind sock _ _ => sock
  | AwAddMember sock _ _ => sock
  | AwHistory sock _ _ => sock
  | AwMembers sock _ _ => sock
  | AwCreate sock _ _ _ => sock
  end.

(** The text the [catch] block of the waiting handler sends. *)
Definition catch_message (a : Await) : jsstring :=
  match a with
  | AwUserFind _ _ => msg_auth_failed
  | AwRoomFind _ _ _ => msg_join_failed
  | AwAddMember _ _ _ => msg_join_failed
  | AwHistory _ _ _ => msg_join_failed
  | AwMembers _ _ _ => msg_join_failed
  | AwCreate _ _ _ _ => msg_send_failed
  end.

(** The server right after start, over a given store. *)
Definition init_world (d : Db) : World :=
  {| server := empty_server; db := d; tasks := [] |}.

(** Every value a map holds satisfies [P]. *)
Definition values_ok (K V : Type) (K_eq_dec : forall a b : K, {a = b} + {a <> b})
    (P : V -> Prop) (m : JsMap.t K V) : Prop :=
  forall k v, JsMap.get K_eq_dec k m = Some v -> P v.

(** No Socket.IO room and no [chatroomUsers] set lists a socket twice,
    and no typing map has two entries for one socket. *)
Definition sets_ok (s : Server) : Prop :=
  values_ok Z.eq_dec (@NoDup SocketId) (rooms s) /\
  values_ok Z.eq_dec (@NoDup SocketId) (chatroomUsers s) /\
  values_ok Z.eq_dec (fun m => NoDup (JsMap.keys m)) (typingUsers s).

(** The socket for which a step runs handler code, if it runs any. *)
Definition actor (w : World) (l : Label) : option SocketId :=
  match l with
  | Client sock _ => Some sock
  | Resume n _ =>
      match nth_error (tasks w) n with
      | Some (Settled r) => Some (ready_socket r)
      | _ => None
      end
  | Query _ _ => None
  | QueryFails _ => None
  end.

(** The events that answer one socket's own request. *)
Definition is_reply (ev : ServerEvent) : bool :=
  match ev with
  | EvError _ => true
  | EvAuthenticated => true
  | EvMessageHistory _ => true
  | EvRoomMembers _ => true
  | _ => false
  end.



(* ------------------------------------------------------------------ *)
(** *** Keys of the tables *)
(* ------------------------------------------------------------------ *)

(** The unique key [(chatroom_id, user_id)] of [chatroom_members]. *)
Definition member_key (r : MemberRow) : Z * Z :=
  (cm_chatroom_id r, cm_user_id r).

Definition members_unique (d : Db) : Prop :=
  NoDup (List.map member_key (chatroom_members d)).

(** The ids of [messages] grow along the table and stay below the
    AUTO_INCREMENT counter. *)
Definition message_ids_ok (d : Db) : Prop :=
  StronglySorted Z.lt (List.map m_id (messages d)) /\
  Forall (fun m => m_id m < messages_auto_increment d) (messages d).

(** A row of [Chatroom.getMembers]: a member row joined with its user. *)
Definition member_view (u : UserRow) (cm : MemberRow) : MemberView :=
  {| mv_id := u_id u; mv_username := u_username u;
     mv_nickname := u_nickname u; mv_joined_at := cm_joined_at cm |}.

(** A row of [Message.getByChatroom]: a message joined with its author. *)
Definition history_row (u : UserRow) (m : MessageRow) : HistoryRow :=
  {| h_message := m; h_nickname := u_nickname u;
     h_username := u_username u; h_avatar := u_avatar u |}.

(* ------------------------------------------------------------------ *)
(** *** Pinned rooms *)
(* ------------------------------------------------------------------ *)

(** A row of [user_pinned_chatrooms]; its primary key is
    [(user_id, chatroom_id)]. *)
Record PinRow := {
  p_user_id : Z;
  p_chatroom_id : Z;
  p_pinned_at : Z }.

Definition is_pinned (pins : list PinRow) (userId chatroomId : Z) : bool :=
  existsb (fun p => (p_user_id p =? userId) && (p_chatroom_id p =? chatroomId))
          pins.

(** [Chatroom.pinChatroom]: [INSERT IGNORE INTO user_pinned_chatrooms].  A
    row that would repeat the primary key or break a foreign key is
    dropped without an error, so the function returns [true] either way;
    [now] is the store's [CURRENT_TIMESTAMP]. *)
Definition Chatroom_pinChatroom (now : Z) (userId chatroomId : Z) (d : Db)
    (pins : list PinRow) : list PinRow * bool :=
  (if is_pinned pins userId chatroomId
      || negb (user_exists d userId)
      || negb (chatroom_exists d chatroomId)
   then pins
   else pins ++ [{| p_user_id := userId; p_chatroom_id := chatroomId;
                    p_pinned_at := now |}],
   true).

(** [Chatroom.unpinChatroom]: [DELETE FROM user_pinned_chatrooms WHERE
    user_id = ? AND chatroom_id = ?]. *)
Definition Chatroom_unpinChatroom (userId chatroomId : Z) (pins : list PinRow)
    : list PinRow * bool :=
  (List.filter
     (fun p => negb ((p_user_id p =? userId) && (p_chatroom_id p =? chatroomId)))
     pins,
   true).

(** [Chatroom.getPinnedChatrooms]: the user's pins, latest first, as room
    ids. *)
Definition Chatroom_getPinnedChatrooms (userId : Z) (pins : list PinRow)
    : list Z :=
  List.map p_chatroom_id
    (order_by (fun a b => p_pinned_at b <=? p_pinned_at a)
       (List.filter (fun p => p_user_id p =? userId) pins)).

(** [Chatroom.removeMember]: [DELETE FROM chatroom_members WHERE
    chatroom_id = ? AND user_id = ?]. *)
Definition Chatroom_removeMember (chatroomId userId : Z) (d : Db) : Db :=
  {| users := users d;
     chatrooms := chatrooms d;
     chatroom_members :=
       List.filter
         (fun r => negb ((cm_chatroom_id r =? chatroomId)
                         && (cm_user_id r =? userId)))
         (chatroom_members d);
     messages := messages d;
     messages_auto_increment := messages_auto_increment d |}.

(* ================================================================== *)
(** ** auth.js: default avatars, registration and login *)
(* ================================================================== *)

(** *** generateDefaultAvatar *)

(** ECMAScript's ToInt32: a number as a signed 32-bit integer. *)
Definition toInt32 (z : Z) : Z := (z + 2 ^ 31) mod 2 ^ 32 - 2 ^ 31.

(** One turn of the loop: [hash = ((hash << 5) - hash) + char; hash = hash
    & hash].  The shift and the [&] work on 32-bit integers; the
    subtraction and the addition in between are exact. *)
Definition hash_step (hash : Z) (char : N) : Z :=
  toInt32 (toInt32 (hash * 32) - hash + Z.of_N char).

Definition avatar_hash (nickname : jsstring) : Z :=
  fold_left hash_step nickname 0.

Definition colors : list jsstring :=
  [js "4f46e5"; js "7c3aed"; js "dc2626"; js "ea580c";
   js "16a34a"; js "0891b2"; js "be185d"; js "9333ea"].

Definition styles : list jsstring :=
  [js "avataaars"; js "personas"; js "micah"; js "adventurer"].

(** [Math.abs(hash) % colors.length]. *)
Definition colorIndex (nickname : jsstring) : nat :=
  Z.to_nat (Z.abs (avatar_hash nickname) mod Z.of_nat (List.length colors)).

(** [Math.abs(hash >> 8) % styles.length]. *)
Definition styleIndex (nickname : jsstring) : nat :=
  Z.to_nat (Z.abs (Z.shiftr (avatar_hash nickname) 8)
            mod Z.of_nat (List.length styles)).

(** The characters [encodeURIComponent] leaves as they are: letters,
    digits and [- _ . ! ~ * ' ( )]. *)
Definition is_unescaped (c : N) : bool :=
  ((65 <=? c) && (c <=? 90) || (97 <=? c) && (c <=? 122)
   || (48 <=? c) && (c <=? 57)
   || (c =? 45) || (c =? 95) || (c =? 46) || (c =? 33) || (c =? 126)
   || (c =? 42) || (c =? 39) || (c =? 40) || (c =? 41))%N.

Definition is_lead_surrogate (c : N) : bool := ((55296 <=? c) && (c <=? 56319))%N.
Definition is_trail_surrogate (c : N) : bool := ((56320 <=? c) && (c <=? 57343))%N.

(** An upper-case hexadecimal digit. *)
Definition hex_digit (n : N) : N := (if n <? 10 then 48 + n else 55 + n)%N.

(** [%XX] for one octet. *)
Definition percent_octet (b : N) : jsstring :=
  [37%N; hex_digit (b / 16); hex_digit (b mod 16)].

(** The UTF-8 octets of a code point. *)
Definition utf8 (cp : N) : list N :=
  (if cp <? 128 then [cp]
   else if cp <? 2048 then [192 + cp / 64; 128 + cp mod 64]
   else if cp <? 65536 then
     [224 + cp / 4096; 128 + (cp / 64) mod 64; 128 + cp mod 64]
   else [240 + cp / 262144; 128 + (cp / 4096) mod 64;
         128 + (cp / 64) mod 64; 128 + cp mod 64])%N.

Definition percent_encode (cp : N) : jsstring :=
  flat_map percent_octet (utf8 cp).

(** The code point of a surrogate pair. *)
Definition surrogate_pair (lead trail : N) : N :=
  ((lead - 55296) * 1024 + (trail - 56320) + 65536)%N.

(** [encodeURIComponent]; [None] is the [URIError] it throws on a
    surrogate without its partner. *)
Fixpoint encodeURIComponent (s : jsstring) : option jsstring :=
  match s with
  | [] => Some []
  | c :: rest =>
      if is_unescaped c then option_map (cons c) (encodeURIComponent rest)
      else if is_lead_surrogate c then
        match rest with
        | c2 :: rest' =>
            if is_trail_surrogate c2
            then option_map (app (percent_encode (surrogate_pair c c2)))
                            (encodeURIComponent rest')
            else None
        | [] => None
        end
      else if is_trail_surrogate c then None
      else option_map (app (percent_encode c)) (encodeURIComponent rest)
  end.

(** [generateDefaultAvatar]; [None] when [encodeURIComponent] throws. *)
Definition generateDefaultAvatar (nickname : jsstring) : option jsstring :=
  let color := nth (colorIndex nickname) colors (js "undefined") in
  let style := nth (styleIndex nickname) styles (js "undefined") in
  match encodeURIComponent nickname with
  | Some seed =>
      Some (js "https://api.dicebear.com/7.x/" ++ style ++ js "/svg?seed=" ++
            seed ++ js "&backgroundColor=" ++ color)
  | None => None
  end.

(** The characters a URL built by [generateDefaultAvatar] is made of:
    the unescaped ones, [%], and [: / ? = &] from the template. *)
Definition is_url_char (c : N) : bool :=
  (is_unescaped c || (c =? 37) || (c =? 58) || (c =? 47) || (c =? 63)
   || (c =? 61) || (c =? 38))%N.

(** *** The users table with its passwords *)

(** A row of [users] with the column [users db] leaves out. *)
Record Account := {
  a_user : UserRow;
  a_password : jsstring }.

Record UsersTable := {
  accounts : list Account;
  (** the AUTO_INCREMENT counter of [users] *)
  users_auto_increment : Z }.

(** What a registration or a login ends with when it fails: an [Error]
    thrown by [auth.js] with its message, the [URIError] of
    [encodeURIComponent], or an error of the store. *)
Inductive Failure :=
| ErrorThrown (message : jsstring)
| URIErrorThrown
| StoreError.

Inductive Result (A : Type) :=
| Ok (a : A)
| Fails (f : Failure).
Arguments Fails {A}.

Definition msg_username_taken : jsstring :=    (* the username already exists *)
  [29992; 25143; 21517; 24050; 23384; 22312]%N.
Definition msg_fields_required : jsstring :=   (* username, password and nickname must not be empty *)
  [29992; 25143; 21517; 12289; 23494; 30721; 21644; 26165; 31216; 19981;
   33021; 20026; 31354]%N.
Definition msg_username_length : jsstring :=   (* the username must have 3 to 20 characters *)
  [29992; 25143; 21517; 38271; 24230; 24517; 39035; 22312; 51; 45; 50; 48;
   20010; 23383; 31526; 20043; 38388]%N.
Definition msg_password_length : jsstring :=   (* the password must have at least 6 characters *)
  [23494; 30721; 38271; 24230; 19981; 33021; 23569; 20110; 54; 20010; 23383;
   31526]%N.
Definition msg_nickname_length : jsstring :=   (* the nickname must have 2 to 20 characters *)
  [26165; 31216; 38271; 24230; 24517; 39035; 22312; 50; 45; 50; 48; 20010;
   23383; 31526; 20043; 38388]%N.
Definition msg_login_required : jsstring :=    (* username and password must not be empty *)
  [29992; 25143; 21517; 21644; 23494; 30721; 19981; 33021; 20026; 31354]%N.
Definition msg_bad_credentials : jsstring :=   (* wrong username or password *)
  [29992; 25143; 21517; 25110; 23494; 30721; 38169; 35823]%N.

(** The body of a registration request; the three required fields are
    strings, [email] may be missing. *)
Record RegisterData := {
  r_username : jsstring;
  r_password : jsstring;
  r_nickname : jsstring;
  r_email : option jsstring }.

(** [!s] for a string. *)
Definition is_empty (s : jsstring) : bool :=
  match s with [] => true | _ => false end.

(** [email || null]. *)
Definition or_null (email : option jsstring) : option jsstring :=
  match email with
  | Some [] => None
  | _ => email
  end.

(** The [user] object both functions return. *)
Definition account_info (u : UserRow) : UserInfo :=
  {| ui_id := u_id u; ui_nickname := u_nickname u;
     ui_username := u_username u; ui_email := u_email u;
     ui_avatar := u_avatar u |}.

(** The checks of [registerUser] between the lookup and the hashing, in
    the order they are made; [None] when all pass. *)
Definition register_checks (existingUser : option Account) (data : RegisterData)
    : option jsstring :=
  match existingUser with
  | Some _ => Some msg_username_taken
  | None =>
      if is_empty (r_username data) || is_empty (r_password data)
         || is_empty (r_nickname data)
      then Some msg_fields_required
      else if (List.length (r_username data) <? 3)%nat
              || (20 <? List.length (r_username data))%nat
      then Some msg_username_length
      else if (List.length (r_password data) <? 6)%nat
      then Some msg_password_length
      else if (List.length (r_nickname data) <? 2)%nat
              || (20 <? List.length (r_nickname data))%nat
      then Some msg_nickname_length
      else None
  end.

Section Auth.

(** [bcryptjs] is a library: [bcrypt.hash(password, 10)] with the salt it
    draws, and [bcrypt.compare(password, hash)]. *)
Variable bcrypt_hash : jsstring -> jsstring -> jsstring.
Variable bcrypt_compare : jsstring -> jsstring -> bool.

(** When the store takes two usernames for equal: the collation of the
    [username] column decides it, in [WHERE username = ?] and in the
    UNIQUE key alike. *)
Variable same_username : jsstring -> jsstring -> bool.

(** [User.findByUsername]: [rows[0] || null]. *)
Definition User_findByUsername (t : UsersTable) (username : jsstring)
    : option Account :=
  List.find (fun a => same_username (u_username (a_user a)) username)
            (accounts t).

(** [User.create]: [INSERT INTO users].  The insert throws ([None]) when
    the username is taken (the UNIQUE key) or when the store does not take
    the row for a reason of its own ([accepted = false]: a value too long
    for its column, a lost connection); otherwise the row gets the next
    AUTO_INCREMENT id, the store's [CURRENT_TIMESTAMP] and no last login. *)
Definition User_create (accepted : bool) (now : Z) (username password nickname : jsstring)
    (email avatar : option jsstring) (t : UsersTable)
    : option (UsersTable * UserInfo) :=
  if accepted
     && negb (existsb (fun a => same_username (u_username (a_user a)) username)
                      (accounts t))
  then
    let id := users_auto_increment t in
    Some ({| accounts :=
               accounts t ++
               [{| a_user := {| u_id := id; u_username := username;
                                u_nickname := nickname; u_email := email;
                                u_avatar := avatar; u_created_at := now;
                                u_last_login := None |};
                   a_password := password |}];
             users_auto_increment := id + 1 |},
          {| ui_id := id; ui_nickname := nickname; ui_username := username;
             ui_email := email; ui_avatar := avatar |})
  else None.

(** [User.updateLastLogin]: [UPDATE users SET last_login =
    CURRENT_TIMESTAMP WHERE id = ?]. *)
Definition User_updateLastLogin (now : Z) (id : Z) (t : UsersTable) : UsersTable :=
  {| accounts :=
       List.map
         (fun a =>
            if u_id (a_user a) =? id
            then {| a_user :=
                      {| u_id := u_id (a_user a);
                         u_username := u_username (a_user a);
                         u_nickname := u_nickname (a_user a);
                         u_email := u_email (a_user a);
                         u_avatar := u_avatar (a_user a);
                         u_created_at := u_created_at (a_user a);
                         u_last_login := Some now |};
                    a_password := a_password a |}
            else a)
         (accounts t);
     users_auto_increment := users_auto_increment t |}.

(** [registerUser], run without interleaving and with a store that
    answers the lookup; [salt] is what [bcrypt.hash] draws, [now] the
    store's clock, [accepted] whether the store takes the new row. *)
Definition registerUser (salt : jsstring) (now : Z) (accepted : bool)
    (userData : RegisterData) (t : UsersTable)
    : Result (UsersTable * UserInfo) :=
  match register_checks (User_findByUsername t (r_username userData)) userData with
  | Some message => Fails (ErrorThrown message)
  | None =>
      let hashedPassword := bcrypt_hash salt (r_password userData) in
      match generateDefaultAvatar (r_nickname userData) with
      | None => Fails URIErrorThrown
      | Some defaultAvatar =>
          match User_create accepted now (r_username userData) hashedPassword
                  (r_nickname userData) (or_null (r_email userData))
                  (Some defaultAvatar) t with
          | None => Fails StoreError
          | Some (t', newUser) => Ok (t', newUser)
          end
      end
  end.

(** [loginUser], run without interleaving and with a store that
    answers. *)
Definition loginUser (now : Z) (username password : jsstring) (t : UsersTable)
    : Result (UsersTable * UserInfo) :=
  if is_empty username || is_empty password
  then Fails (ErrorThrown msg_login_required)
  else
    match User_findByUsername t username with
    | None => Fails (ErrorThrown msg_bad_credentials)
    | Some user =>
        if bcrypt_compare password (a_password user)
        then Ok (User_updateLastLogin now (u_id (a_user user)) t,
                 account_info (a_user user))
        else Fails (ErrorThrown msg_bad_credentials)
    end.

End Auth.

(** Usernames compared code unit by code unit (a binary collation). *)
Definition same_units (a b : jsstring) : bool :=
  if jsstring_eq_dec a b then true else false.

(** The hash of Java's [String.hashCode], before it is cut to 32 bits:
    the sum of [char(i) * 31^(n-1-i)]. *)
Definition polynomial_hash (s : jsstring) : Z :=
  fold_left (fun h c => 31 * h + Z.of_N c) s 0.

(* ------------------------------------------------------------------ *)
(** *** The client: the room it shows and its typing signal *)
(* ------------------------------------------------------------------ *)

(** The fields of the client's [ChatRoom] object that its room and typing
    code reads and writes, from login to logout, while its socket stays
    connected.  [currentRoom] is the id of [this.currentRoom] (this code
    reads nothing else of it); [typingTimeout] is the time at which the
    pending timer is due, [None] when none is pending. *)
Record ChatRoom := {
  currentRoom : option Z;
  isTyping : bool;
  typingTimeout : option Z }.

(** The three fields as the constructor sets them. *)
Definition new_client : ChatRoom :=
  {| currentRoom := None; isTyping := false; typingTimeout := None |}.

Definition with_currentRoom (v : option Z) (c : ChatRoom) : ChatRoom :=
  {| currentRoom := v; isTyping := isTyping c;
     typingTimeout := typingTimeout c |}.

Definition with_isTyping (v : bool) (c : ChatRoom) : ChatRoom :=
  {| currentRoom := currentRoom c; isTyping := v;
     typingTimeout := typingTimeout c |}.

Definition with_typingTimeout (v : option Z) (c : ChatRoom) : ChatRoom :=
  {| currentRoom := currentRoom c; isTyping := isTyping c;
     typingTimeout := v |}.

(** [stopTyping]: what it emits on the socket, then [clearTimeout]. *)
Definition stopTyping (c : ChatRoom) : ChatRoom * list ClientEvent :=
  let (c1, out) :=
    match isTyping c, currentRoom c with
    | true, Some room => (with_isTyping false c, [Typing room false])
    | _, _ => (c, [])
    end in
  (with_typingTimeout None c1, out).

(** [handleTyping], on an [input] event of the message box at time
    [now]: the timer is set anew, 3000 ms ahead. *)
Definition handleTyping (now : Z) (c : ChatRoom) : ChatRoom * list ClientEvent :=
  match currentRoom c with
  | None => (c, [])
  | Some room =>
      let (c1, out) :=
        if isTyping c then (c, [])
        else (with_isTyping true c, [Typing room true]) in
      (with_typingTimeout (Some (now + 3000)) c1, out)
  end.

(** The timer's callback.  The browser runs it at a time [now] that is
    not before the timer is due, and only while the timer is pending;
    with that the timer is spent. *)
Definition typing_timer (now : Z) (c : ChatRoom) : ChatRoom * list ClientEvent :=
  match typingTimeout c with
  | Some due =>
      if due <=? now then stopTyping (with_typingTimeout None c) else (c, [])
  | None => (c, [])
  end.

(** [sendMessage], on a click on the send button or on Enter; [value] is
    what the message box holds. *)
Definition sendMessage (value : jsstring) (c : ChatRoom)
    : ChatRoom * list ClientEvent :=
  let message := trim value in
  match currentRoom c with
  | Some room =>
      if is_empty message then (c, [])
      else
        let (c1, out) := stopTyping c in
        (c1, Message room message :: out)
  | None => (c, [])
  end.

(** [showChatroomList], on a click on the back button. *)
Definition showChatroomList (c : ChatRoom) : ChatRoom * list ClientEvent :=
  match currentRoom c with
  | Some room => (with_currentRoom None c, [LeaveRoom room])
  | None => (c, [])
  end.

(** [leaveCurrentRoom], on a click on the leave button. *)
Definition leaveCurrentRoom (c : ChatRoom) : ChatRoom * list ClientEvent :=
  match currentRoom c with
  | Some room =>
      let (c1, out) := showChatroomList (with_currentRoom None c) in
      (c1, LeaveRoom room :: out)
  | None => (c, [])
  end.

(** [joinChatroom] from the point where [POST /api/chatrooms/:id/join]
    has answered with success (with any other answer the three fields
    stay as they are and nothing is emitted). *)
Definition joinChatroom_ok (room : Z) (c : ChatRoom) : ChatRoom * list ClientEvent :=
  (with_currentRoom (Some room) c, [JoinRoom room]).

(** What happens at the client. *)
Inductive UiEvent :=
| UiInput
| UiTimer
| UiSend (value : jsstring)
| UiLeave
| UiBack
| UiJoined (room : Z).

Definition ui_step (now : Z) (e : UiEvent) (c : ChatRoom)
    : ChatRoom * list ClientEvent :=
  match e with
  | UiInput => handleTyping now c
  | UiTimer => typing_timer now c
  | UiSend value => sendMessage value c
  | UiLeave => leaveCurrentRoom c
  | UiBack => showChatroomList c
  | UiJoined room => joinChatroom_ok room c
  end.

(** A run of the client: the events with their times, and everything the
    client emitted on its socket, in order. *)
Fixpoint ui_run (es : list (Z * UiEvent)) (c : ChatRoom)
    : ChatRoom * list ClientEvent :=
  match es with
  | [] => (c, [])
  | (now, e) :: es' =>
      let (c1, out1) := ui_step now e c in
      let (c2, out2) := ui_run es' c1 in
      (c2, out1 ++ out2)
  end.

(** The flags of the typing signals among what was emitted. *)
Definition typing_flags (out : list ClientEvent) : list bool :=
  flat_map (fun ev => match ev with Typing _ f => [f] | _ => [] end) out.

(** The flags take turns, starting with [next]. *)
Fixpoint alternating (next : bool) (l : list bool) : Prop :=
  match l with
  | [] => True
  | b :: l' => b = next /\ alternating (negb next) l'
  end.

(** The events one socket sent, in order, among the labels of a run. *)
Definition events_of (sock : SocketId) (ls : list Label) : list ClientEvent :=
  flat_map (fun l => match l with
                     | Client c ev => if jsstring_eq_dec c sock then [ev] else []
                     | _ => []
                     end) ls.

(** The flag of the last typing signal for room [R] among [evs], [b]
    when there is none. *)
Definition last_flag (R : Z) (evs : list ClientEvent) (b : bool) : bool :=
  fold_left (fun b ev => match ev with
                         | Typing R' f => if R' =? R then f else b
                         | _ => b
                         end) evs b.

(** The events the client's code emits between login and logout. *)
Definition is_session_event (ev : ClientEvent) : bool :=
  match ev with
  | Connection => false
  | Authenticate _ => false
  | Disconnect => false
  | _ => true
  end.

(** The events that happen while the chat view of one room stays open. *)
Definition stays_in_room (e : UiEvent) : bool :=
  match e with
  | UiInput => true
  | UiTimer => true
  | UiSend _ => true
  | _ => false
  end.

Definition is_joined (R : Z) (e : UiEvent) : bool :=
  match e with UiJoined room => room =? R | _ => false end.

(* ------------------------------------------------------------------ *)
(** *** The online count of the room list *)
(* ------------------------------------------------------------------ *)

(** [online_count] as [GET /api/chatrooms] computes it for a room:
    [chatroomUsers.has(room.id) ? chatroomUsers.get(room.id).size : 0]. *)
Definition online_count (s : Server) (roomId : Z) : nat :=
  if JsMap.has Z.eq_dec roomId (chatroomUsers s)
  then match JsMap.get Z.eq_dec roomId (chatroomUsers s) with
       | Some socketIds => List.length socketIds
       | None => O
       end
  else O.

(** Socket.IO gives every connection an id of its own: in a run, the
    [connection] of a socket comes before anything else that socket
    sends.  [seen] are the sockets that have sent something already. *)
Fixpoint fresh_connections (seen : list SocketId) (ls : list Label) : bool :=
  match ls with
  | [] => true
  | Client c ev :: ls' =>
      match ev with
      | Connection => negb (JsSet.has jsstring_eq_dec c seen)
      | _ => true
      end && fresh_connections (c :: seen) ls'
  | _ :: ls' => fresh_connections seen ls'
  end.

(** The socket a task belongs to. *)
Definition task_socket (t : Task) : option SocketId :=
  match t with
  | Waiting a => Some (await_socket a)
  | Settled r => Some (ready_socket r)
  | Finished => None
  end.

(** Every socket in a Socket.IO room is connected. *)
Definition rooms_connected (s : Server) : Prop :=
  forall R c, In c (room_sockets s R) -> is_connected s c = true.

(** The sets of [chatroomUsers] against the Socket.IO rooms: a socket in
    a room is in the room's set, a connected socket in a set is in the
    room, and the sockets in the sets and the sockets of the tasks have
    been seen. *)
Definition presence_ok (seen : list SocketId) (w : World) : Prop :=
  (forall R c, In c (room_sockets (server w) R) ->
               In c (chatroom_sockets (server w) R)) /\
  (forall R c, In c (chatroom_sockets (server w) R) ->
               is_connected (server w) c = true ->
               In c (room_sockets (server w) R)) /\
  (forall R c, In c (chatroom_sockets (server w) R) -> In c seen) /\
  (forall t c, In t (tasks w) -> task_socket t = Some c -> In c seen).

(* ------------------------------------------------------------------ *)
(** *** The published message *)
(* ------------------------------------------------------------------ *)

(** Task [n] is the publish of [content] to room [R] by [sock], and its
    insert has returned [message]. *)
Definition persisted_as (w : World) (n : nat) (sock : SocketId)
    (user : UserInfo) (R : Z) (content : jsstring) (message : CreatedMessage)
    : Prop :=
  nth_error (tasks w) n =
  Some (Settled (RdCreate sock user R content (Resolved message))).

(** The [message] event of that publish, stamped [clock] when the handler
    resumes. *)
Definition published_event (message : CreatedMessage) (user : UserInfo)
    (R : Z) (content clock : jsstring) : ServerEvent :=
  EvMessage {| md_id := cr_id message; md_userId := ui_id user;
               md_nickname := ui_nickname user;
               md_username := ui_username user;
               md_avatar := ui_avatar user; md_content := trim content;
               md_timestamp := clock; md_chatroomId := R |}.

(** The row of that publish in [messages]. *)
Definition published_row (message : CreatedMessage) (user : UserInfo)
    (R : Z) (content : jsstring) (now : Z) : MessageRow :=
  {| m_id := cr_id message; m_chatroom_id := R; m_user_id := ui_id user;
     m_content := trim content; m_created_at := now |}.

(** If the insert of task [n] has succeeded, its row is in the store. *)
Definition publish_row_stored (w : World) (n : nat) (sock : SocketId)
    (user : UserInfo) (R : Z) (content : jsstring) : Prop :=
  forall m, persisted_as w n sock user R content m ->
            exists now, In (published_row m user R content now)
                           (messages (db w)).

(** Two rows of [users] that differ at most in [last_login]. *)
Definition same_but_last_login (a a' : Account) : Prop :=
  a_password a' = a_password a /\
  u_id (a_user a') = u_id (a_user a) /\
  u_username (a_user a') = u_username (a_user a) /\
  u_nickname (a_user a') = u_nickname (a_user a) /\
  u_email (a_user a') = u_email (a_user a) /\
  u_avatar (a_user a') = u_avatar (a_user a) /\
  u_created_at (a_user a') = u_created_at (a_user a).

(* ================================================================== *)
(** ** Lemmas on maps, sets and record updates *)
(* ================================================================== *)

Unset Implicit Arguments.

Section JsMapFacts.
Variables K V : Type.
Variable K_eq_dec : forall a b : K, {a = b} + {a <> b}.
Implicit Types (k : K) (v : V) (m : JsMap.t K V).

Lemma get_set_eq k v m : JsMap.get K_eq_dec k (JsMap.set K_eq_dec k v m) = Some v.
Proof.
  induction m as [|[k' v'] m IH]; simpl.
  - destruct (K_eq_dec k k); congruence.
  - destruct (K_eq_dec k k') as [e|ne]; simpl.
    + destruct (K_eq_dec k k); congruence.
    + destruct (K_eq_dec k k'); congruence.
Qed.

Lemma get_set_ne k k' v m :
  k <> k' -> JsMap.get K_eq_dec k' (JsMap.set K_eq_dec k v m) = JsMap.get K_eq_dec k' m.
Proof.
  intros ne. induction m as [|[k0 v0] m IH]; simpl.
  - destruct (K_eq_dec k' k); congruence.
  - destruct (K_eq_dec k k0) as [e|ne0]; simpl.
    + subst k0. destruct (K_eq_dec k' k); congruence.
    + destruct (K_eq_dec k' k0); congruence.
Qed.

Lemma set_same k v m :
  JsMap.get K_eq_dec k m = Some v -> JsMap.set K_eq_dec k v m = m.
Proof.
  induction m as [|[k0 v0] m IH]; simpl; [discriminate|].
  destruct (K_eq_dec k k0) as [e|ne]; intros H.
  - congruence.
  - rewrite IH; auto.
Qed.

Lemma get_delete_eq k m : JsMap.get K_eq_dec k (JsMap.delete K_eq_dec k m) = None.
Proof.
  induction m as [|[k0 v0] m IH]; simpl; auto.
  destruct (K_eq_dec k k0) as [e|ne]; simpl; auto.
  destruct (K_eq_dec k k0); congruence.
Qed.

Lemma get_delete_ne k k' m :
  k <> k' ->
  JsMap.get K_eq_dec k' (JsMap.delete K_eq_dec k m) = JsMap.get K_eq_dec k' m.
Proof.
  intros ne. induction m as [|[k0 v0] m IH]; simpl; auto.
  destruct (K_eq_dec k k0) as [e|ne0]; simpl.
  - subst k0. destruct (K_eq_dec k' k); congruence.
  - destruct (K_eq_dec k' k0); congruence.
Qed.

Lemma keys_set_present k v m :
  JsMap.has K_eq_dec k m = true ->
  JsMap.keys (JsMap.set K_eq_dec k v m) = JsMap.keys m.
Proof.
  unfold JsMap.has, JsMap.keys.
  induction m as [|[k0 v0] m IH]; simpl; [discriminate|].
  destruct (K_eq_dec k k0) as [e|ne]; simpl; intros H.
  - congruence.
  - rewrite IH; auto.
Qed.
End JsMapFacts.

Section JsSetFacts.
Variable A : Type.
Variable A_eq_dec : forall a b : A, {a = b} + {a <> b}.

Lemma in_add x y (s : JsSet.t A) :
  In x (JsSet.add A_eq_dec y s) <-> x = y \/ In x s.
Proof.
  unfold JsSet.add. destruct (in_dec A_eq_dec y s) as [i|n].
  - split; [auto|]. intros [e|h]; subst; auto.
  - rewrite in_app_iff. simpl. intuition.
Qed.

Lemma add_present x (s : JsSet.t A) : In x s -> JsSet.add A_eq_dec x s = s.
Proof.
  intros i. unfold JsSet.add. destruct (in_dec A_eq_dec x s); tauto.
Qed.

Lemma in_delete x y (s : JsSet.t A) :
  In x (JsSet.delete A_eq_dec y s) <-> In x s /\ x <> y.
Proof.
  unfold JsSet.delete. split.
  - apply in_remove.
  - intros [i ne]. apply in_in_remove; auto.
Qed.

Lemma has_true x (s : JsSet.t A) : JsSet.has A_eq_dec x s = true <-> In x s.
Proof.
  unfold JsSet.has. destruct (in_dec A_eq_dec x s); split; auto; discriminate.
Qed.
End JsSetFacts.

Lemma with_rooms_same s : with_rooms (rooms s) s = s.
Proof. destruct s; reflexivity. Qed.

Lemma with_chatroomUsers_same s : with_chatroomUsers (chatroomUsers s) s = s.
Proof. destruct s; reflexivity. Qed.

(** A socket with a [user] is connected. *)
Lemma socket_user_connected s sock user :
  socket_user s sock = Some user -> is_connected s sock = true.
Proof.
  unfold socket_user, is_connected, JsMap.has.
  destruct (JsMap.get jsstring_eq_dec sock (sockets s)); [reflexivity|discriminate].
Qed.

Lemma socket_join_connected s sock R :
  is_connected s sock = true ->
  socket_join sock R s =
    with_rooms
      (JsMap.set Z.eq_dec R (JsSet.add jsstring_eq_dec sock (room_sockets s R))
         (rooms s)) s.
Proof. intros C. unfold socket_join. rewrite C. reflexivity. Qed.

Lemma socket_join_fields s sock R :
  sockets (socket_join sock R s) = sockets s /\
  onlineUsers (socket_join sock R s) = onlineUsers s /\
  chatroomUsers (socket_join sock R s) = chatroomUsers s /\
  typingUsers (socket_join sock R s) = typingUsers s.
Proof. unfold socket_join. destruct (is_connected s sock); simpl; auto. Qed.

Lemma set_socket_user_fields s sock v :
  rooms (set_socket_user sock v s) = rooms s /\
  onlineUsers (set_socket_user sock v s) = onlineUsers s /\
  chatroomUsers (set_socket_user sock v s) = chatroomUsers s /\
  typingUsers (set_socket_user sock v s) = typingUsers s.
Proof. unfold set_socket_user. destruct (is_connected s sock); simpl; auto. Qed.

Lemma set_socket_user_connected s sock v :
  is_connected s sock = true ->
  set_socket_user sock v s =
    with_sockets (JsMap.set jsstring_eq_dec sock v (sockets s)) s.
Proof. intros C. unfold set_socket_user. rewrite C. reflexivity. Qed.

(** Who gets a room broadcast. *)
Lemma in_io_to_emit s R ev t e :
  In (t, e) (io_to_emit s R ev) <-> In t (room_sockets s R) /\ e = ev.
Proof.
  unfold io_to_emit. rewrite in_map_iff. split.
  - intros [x [E I]]. inversion E; subst. auto.
  - intros [I E]. subst. exists t. auto.
Qed.

Lemma in_socket_to_emit sock s R ev t e :
  In (t, e) (socket_to_emit sock s R ev) <->
  In t (room_sockets s R) /\ t <> sock /\ e = ev.
Proof.
  unfold socket_to_emit. rewrite in_map_iff. split.
  - intros [x [E I]]. inversion E; subst. apply in_delete in I. tauto.
  - intros [I [N E]]. subst. exists t. split; auto. apply in_delete. auto.
Qed.

(* ================================================================== *)
(** ** Publishing: the fan-out reads the room when the handler resumes *)
(* ================================================================== *)

Lemma nth_error_set_nth_eq (A : Type) (l : list A) n x y :
  nth_error l n = Some y -> nth_error (set_nth n x l) n = Some x.
Proof.
  revert n. induction l as [|a l IH]; intros [|n]; simpl; try discriminate; auto.
Qed.

Lemma nth_error_set_nth_ne (A : Type) (l : list A) m n x :
  m <> n -> nth_error (set_nth m x l) n = nth_error l n.
Proof.
  revert m n. induction l as [|a l IH]; intros [|m] [|n] ne; simpl; auto;
    try congruence.
Qed.

Lemma nth_error_app_old (A : Type) (l l' : list A) n x :
  nth_error l n = Some x -> nth_error (l ++ l') n = Some x.
Proof.
  intros H. rewrite nth_error_app1; auto.
  apply nth_error_Some. congruence.
Qed.

(** A step that does not resume task [n] leaves the publish in flight. *)
Lemma step_keeps_publish l w n sock user R content :
  is_resume_of n l = false ->
  publish_in_flight w n sock user R content ->
  publish_in_flight (fst (step l w)) n sock user R content.
Proof.
  unfold publish_in_flight. intros NR H.
  destruct l as [c ev|m now|m|m clock]; simpl.
  - destruct (start c ev (server w)) as [[s' out] a]. simpl.
    destruct H as [H|[o H]]; [left|right; exists o];
      apply nth_error_app_old; exact H.
  - destruct (nth_error (tasks w) m) as [[a|r|]|] eqn:E; simpl; auto.
    destruct (db_perform now a (db w)) as [d' r] eqn:P. simpl.
    destruct (Nat.eq_dec m n) as [e|ne].
    + subst m. right. destruct H as [H|[o H]]; [|congruence].
      rewrite E in H. inversion H; subst a. simpl in P.
      destruct (Message_create now R (ui_id user) (trim content) (db w))
        as [[d1 msg]|]; inversion P; subst; eexists;
        eapply nth_error_set_nth_eq; eauto.
    + rewrite nth_error_set_nth_ne; auto.
  - destruct (nth_error (tasks w) m) as [[a|r|]|] eqn:E; simpl; auto.
    destruct (Nat.eq_dec m n) as [e|ne].
    + subst m. right. destruct H as [H|[o H]]; [|congruence].
      rewrite E in H. inversion H; subst a. simpl.
      eexists. eapply nth_error_set_nth_eq; eauto.
    + rewrite nth_error_set_nth_ne; auto.
  - simpl in NR. apply Nat.eqb_neq in NR.
    destruct (nth_error (tasks w) m) as [[a|r|]|] eqn:E; simpl; auto.
    destruct (continue clock r (server w)) as [[s' out] a]. simpl.
    rewrite nth_error_set_nth_ne; auto.
Qed.

Lemma run_keeps_publish ls : forall w n sock user R content,
  forallb (fun l => negb (is_resume_of n l)) ls = true ->
  publish_in_flight w n sock user R content ->
  publish_in_flight (fst (run ls w)) n sock user R content.
Proof.
  induction ls as [|l ls IH]; intros w n sock user R content F H; simpl; auto.
  simpl in F. apply andb_true_iff in F. destruct F as [F1 F2].
  apply negb_true_iff in F1.
  pose proof (step_keeps_publish l w n sock user R content F1 H) as H1.
  destruct (step l w) as [w1 out1]. simpl in H1.
  specialize (IH w1 n sock user R content F2 H1).
  destruct (run ls w1) as [w2 out2]. exact IH.
Qed.

(** The publish handler puts its insert in flight as the next task. *)
Lemma message_start_in_flight w sock user R content :
  socket_user (server w) sock = Some user ->
  blank content = false ->
  publish_in_flight (fst (step (Client sock (Message R content)) w))
    (List.length (tasks w)) sock user R content.
Proof.
  intros U B. left. simpl. unfold message_start. rewrite U, B. simpl.
  rewrite nth_error_app2, Nat.sub_diag; auto.
Qed.

(** Leaving takes the socket out of the room. *)
Lemma leaveRoom_leaves sock R s user :
  socket_user s sock = Some user ->
  ~ In sock (room_sockets (fst (on_leaveRoom sock R s)) R).
Proof.
  intros U. unfold on_leaveRoom. rewrite U. simpl.
  assert (L : ~ In sock (room_sockets (socket_leave sock R s) R)).
  { unfold socket_leave, room_sockets.
    destruct (JsMap.get Z.eq_dec R (rooms s)) as [l|] eqn:E; simpl.
    - rewrite get_set_eq. intros I. apply in_delete in I. tauto.
    - rewrite E. auto. }
  destruct (JsMap.get Z.eq_dec R (chatroomUsers (socket_leave sock R s)));
    exact L.
Qed.

(** So does disconnecting, for every room. *)
Lemma leave_all_leaves sock s R : ~ In sock (room_sockets (leave_all sock s) R).
Proof.
  unfold room_sockets, leave_all. simpl.
  induction (rooms s) as [|[k l] m IH]; simpl; auto.
  destruct (Z.eq_dec R k); auto.
  intros I. apply in_delete in I. tauto.
Qed.

(** When a join resumes after [addMember], the socket is in the room if
    it is still connected. *)
Lemma joinRoom_added_joins sock user R s :
  is_connected s sock = true ->
  In sock (room_sockets (fst (fst (joinRoom_added sock user R (Resolved tt) s))) R).
Proof.
  intros C. simpl. rewrite (socket_join_connected s sock R C).
  unfold room_sockets. simpl. rewrite get_set_eq.
  apply in_add. auto.
Qed.

(* ================================================================== *)
(** ** Publishing does not look at presence *)
(* ================================================================== *)




(* ================================================================== *)
(** ** Authenticating again *)
(* ================================================================== *)

(** C4, as the code has it.  The [authenticate] handler does not look at
    [socket.user]: on a socket that is already bound, an id the store
    knows binds the socket to that user, in [socket.user] and in
    [onlineUsers], and is acknowledged; an id it does not know is
    answered with an error and leaves the binding as it was. *)
Theorem authenticate_again_rebinds :
  forall (s : Server) (d : Db) (sock : SocketId) (old : UserInfo) (id : Z)
         (now : Z) (clock : jsstring),
    socket_user s sock = Some old ->
    (forall u, User_findById d id = Some u ->
       exists s',
         handle now clock sock (Authenticate id) s d =
           (s', d, [(sock, EvAuthenticated)], None) /\
         socket_user s' sock = Some (info_of u) /\
         JsMap.get jsstring_eq_dec sock (onlineUsers s') = Some (info_of u)) /\
    (User_findById d id = None ->
       handle now clock sock (Authenticate id) s d =
         (s, d, [(sock, EvError msg_user_not_found)], None)).
Proof.
  intros s d sock old id now clock U. split.
  - intros u F. unfold handle. simpl. rewrite F. simpl.
    rewrite (set_socket_user_connected s sock _ (socket_user_connected s sock old U)).
    eexists. split; [reflexivity|]. split.
    + unfold socket_user. simpl. rewrite get_set_eq. reflexivity.
    + simpl. rewrite get_set_eq. reflexivity.
  - intros F. unfold handle. simpl. rewrite F. reflexivity.
Qed.

Lemma authenticate_again_rebinds_witness :
  let r := handle 20 [] sockA (Authenticate 2)
             (server lobby_world) (db lobby_world) in
  socket_user (server lobby_world) sockA = Some (info_of alice) /\
  exists s', r = (s', db lobby_world, [(sockA, EvAuthenticated)], None) /\
             socket_user s' sockA = Some (info_of bob).
Proof.
  split; [reflexivity|].
  destruct (authenticate_again_rebinds (server lobby_world) (db lobby_world)
              sockA (info_of alice) 2 20 [] eq_refl) as [H _].
  destruct (H bob eq_refl) as [s' [E [U _]]].
  exists s'. split; assumption.
Defined.

(** A socket bound to Alice authenticates with Bob's id: it is
    acknowledged, no error is sent, and the socket is now Bob's. *)
Lemma second_authenticate_changes_identity :
  let r := handle 20 [] sockA (Authenticate 2)
             (server lobby_world) (db lobby_world) in
  socket_user (server lobby_world) sockA = Some (info_of alice) /\
  snd (fst r) = [(sockA, EvAuthenticated)] /\
  socket_user (fst (fst (fst r))) sockA = Some (info_of bob) /\
  JsMap.get jsstring_eq_dec sockA (onlineUsers (fst (fst (fst r)))) =
    Some (info_of bob).
Proof. vm_compute. repeat split. Qed.

(* ================================================================== *)
(** ** Typing *)
(* ================================================================== *)

Lemma room_typing_set s R m :
  room_typing (with_typingUsers (JsMap.set Z.eq_dec R m (typingUsers s)) s) R = m.
Proof. unfold room_typing. simpl. rewrite get_set_eq. reflexivity. Qed.

Lemma room_typing_set_ne s R R' m :
  R <> R' ->
  room_typing (with_typingUsers (JsMap.set Z.eq_dec R m (typingUsers s)) s) R'
  = room_typing s R'.
Proof. intros N. unfold room_typing. simpl. rewrite get_set_ne; auto. Qed.

Lemma has_set_eq (m : JsMap.t SocketId TypingInfo) sock v :
  JsMap.has jsstring_eq_dec sock (JsMap.set jsstring_eq_dec sock v m) = true.
Proof. unfold JsMap.has. rewrite get_set_eq. reflexivity. Qed.

Lemma has_delete_eq (m : JsMap.t SocketId TypingInfo) sock :
  JsMap.has jsstring_eq_dec sock (JsMap.delete jsstring_eq_dec sock m) = false.
Proof. unfold JsMap.has. rewrite get_delete_eq. reflexivity. Qed.

(** The effect of one typing signal of an authenticated socket. *)
Lemma on_typing_effect s sock user R isTyping :
  socket_user s sock = Some user ->
  snd (on_typing sock R isTyping s) =
    List.map (fun t => (t, EvTypingUsers R
                             (JsMap.values
                                (room_typing (fst (on_typing sock R isTyping s)) R))))
             (room_sockets s R) /\
  typing_entry (fst (on_typing sock R isTyping s)) R sock = isTyping.
Proof.
  intros U. unfold on_typing, typing_entry. rewrite U.
  simpl. rewrite room_typing_set. split.
  - reflexivity.
  - destruct isTyping; [apply has_set_eq|apply has_delete_eq].
Qed.

(** C6, as the code has it.  The [typing] handler of an authenticated
    socket sends the room's typing list to every socket in the room on
    every signal, whatever the entry was before; afterwards the socket
    has an entry exactly when the signal was [true]. *)
Theorem typing_broadcasts_on_every_signal :
  forall (s : Server) (sock : SocketId) (user : UserInfo) (R : Z)
         (isTyping : bool),
    socket_user s sock = Some user ->
    let s' := fst (on_typing sock R isTyping s) in
    snd (on_typing sock R isTyping s) =
      List.map (fun t => (t, EvTypingUsers R (JsMap.values (room_typing s' R))))
               (room_sockets s R) /\
    typing_entry s' R sock = isTyping.
Proof.
  intros s sock user R isTyping U s'. exact (on_typing_effect s sock user R isTyping U).
Qed.

Lemma typing_broadcasts_on_every_signal_witness :
  let s1 := fst (on_typing sockA 42 true (server lobby_world)) in
  typing_entry s1 42 sockA = true /\
  snd (on_typing sockA 42 true s1) =
    [(sockA, EvTypingUsers 42 [{| ty_id := 1; ty_nickname := js "Alice" |}]);
     (sockB, EvTypingUsers 42 [{| ty_id := 1; ty_nickname := js "Alice" |}])].
Proof.
  split; [reflexivity|].
  destruct (typing_broadcasts_on_every_signal
              (fst (on_typing sockA 42 true (server lobby_world)))
              sockA (info_of alice) 42 true eq_refl) as [H _].
  rewrite H. reflexivity.
Defined.

(** A socket that already has an entry signals [true] again, and a
    socket with no entry signals [false]: both times the typing list is
    sent to the room. *)
Lemma repeated_typing_signal_is_broadcast :
  let s0 := server lobby_world in
  let s1 := fst (on_typing sockA 42 true s0) in
  (typing_entry s1 42 sockA = true /\
   List.map fst (snd (on_typing sockA 42 true s1)) = [sockA; sockB] /\
   forallb (fun e => is_typingUsers (snd e)) (snd (on_typing sockA 42 true s1))
     = true) /\
  (typing_entry s0 42 sockB = false /\
   List.map fst (snd (on_typing sockB 42 false s0)) = [sockA; sockB] /\
   forallb (fun e => is_typingUsers (snd e)) (snd (on_typing sockB 42 false s0))
     = true).
Proof. vm_compute. repeat split. Qed.

(* ================================================================== *)
(** ** Which failures are reported *)
(* ================================================================== *)

(** C9, as the code has it.  A failed check is answered with an [error]
    event to the socket that sent the request when it is an unknown user
    in [authenticate], a missing login or an unknown room in [joinRoom],
    or a missing login in [message].  Two failures are silent and change
    nothing: a blank [message], and a [typing] signal from a socket that
    is not logged in. *)
Theorem failures_reported_or_silent :
  forall (s : Server) (d : Db) (sock : SocketId) (now : Z) (clock : jsstring),
    (forall id, User_findById d id = None ->
       handle now clock sock (Authenticate id) s d =
         (s, d, [(sock, EvError msg_user_not_found)], None)) /\
    (forall R, socket_user s sock = None ->
       handle now clock sock (JoinRoom R) s d =
         (s, d, [(sock, EvError msg_login_first)], None)) /\
    (forall R user, socket_user s sock = Some user ->
       Chatroom_findById d R = None ->
       handle now clock sock (JoinRoom R) s d =
         (s, d, [(sock, EvError msg_room_not_found)], None)) /\
    (forall R content, socket_user s sock = None ->
       handle now clock sock (Message R content) s d =
         (s, d, [(sock, EvError msg_login_first)], None)) /\
    (forall R content user, socket_user s sock = Some user ->
       blank content = true ->
       handle now clock sock (Message R content) s d = (s, d, [], None)) /\
    (forall R isTyping, socket_user s sock = None ->
       handle now clock sock (Typing R isTyping) s d = (s, d, [], None)).
Proof.
  intros s d sock now clock. unfold handle. repeat split.
  - intros id F. simpl. rewrite F. reflexivity.
  - intros R U. simpl. unfold joinRoom_start. rewrite U. reflexivity.
  - intros R user U F. simpl. unfold joinRoom_start. rewrite U. simpl.
    rewrite F. reflexivity.
  - intros R content U. simpl. unfold message_start. rewrite U. reflexivity.
  - intros R content user U B. simpl. unfold message_start. rewrite U, B.
    reflexivity.
  - intros R isTyping U. simpl. unfold on_typing. rewrite U. reflexivity.
Qed.

(** A socket that has connected and not logged in sends a typing
    signal: nothing is sent back, no [error] either, and nothing
    changes. *)
Lemma typing_before_login_is_silent :
  let w := fst (run [Client sockA Connection] demo_world) in
  socket_user (server w) sockA = None /\
  handle 5 [] sockA (Typing 42 true) (server w) (db w) =
    (server w, db w, [], None).
Proof. vm_compute. split; reflexivity. Qed.

Lemma failures_reported_or_silent_witness :
  let w := fst (run [Client sockA Connection] demo_world) in
  let l := lobby_world in
  (User_findById (db w) 99 = None /\
   handle 5 [] sockA (Authenticate 99) (server w) (db w) =
     (server w, db w, [(sockA, EvError msg_user_not_found)], None)) /\
  (socket_user (server w) sockA = None /\
   handle 5 [] sockA (JoinRoom 42) (server w) (db w) =
     (server w, db w, [(sockA, EvError msg_login_first)], None) /\
   handle 5 [] sockA (Message 42 (js "hi")) (server w) (db w) =
     (server w, db w, [(sockA, EvError msg_login_first)], None) /\
   handle 5 [] sockA (Typing 42 true) (server w) (db w) =
     (server w, db w, [], None)) /\
  (socket_user (server l) sockA = Some (info_of alice) /\
   Chatroom_findById (db l) 7 = None /\
   blank (js "   ") = true /\
   handle 5 [] sockA (JoinRoom 7) (server l) (db l) =
     (server l, db l, [(sockA, EvError msg_room_not_found)], None) /\
   handle 5 [] sockA (Message 42 (js "   ")) (server l) (db l) =
     (server l, db l, [], None)).
Proof.
  cbv zeta.
  destruct (failures_reported_or_silent
              (server (fst (run [Client sockA Connection] demo_world)))
              (db (fst (run [Client sockA Connection] demo_world)))
              sockA 5 []) as [H1 [H2 [_ [H4 [_ H6]]]]].
  destruct (failures_reported_or_silent (server lobby_world) (db lobby_world)
              sockA 5 []) as [_ [_ [H3 [_ [H5 _]]]]].
  split; [split; [reflexivity|exact (H1 99 eq_refl)]|].
  split.
  - split; [reflexivity|]. split; [exact (H2 42 eq_refl)|].
    split; [exact (H4 42 (js "hi") eq_refl)|exact (H6 42 true eq_refl)].
  - split; [reflexivity|]. split; [reflexivity|]. split; [reflexivity|].
    split; [exact (H3 7 (info_of alice) eq_refl eq_refl)|].
    exact (H5 42 (js "   ") (info_of alice) eq_refl eq_refl).
Defined.

(* ================================================================== *)
(** ** Who is told about a socket's own join, leave and typing *)
(* ================================================================== *)

Lemma socket_to_emit_not_self sock s R ev e :
  ~ In (sock, e) (socket_to_emit sock s R ev).
Proof. intros I. apply in_socket_to_emit in I. tauto. Qed.

Lemma disconnect_room_not_self sock user R acc :
  (forall e, ~ In (sock, e) (snd acc)) ->
  forall e, ~ In (sock, e) (snd (disconnect_room sock user acc R)).
Proof.
  destruct acc as [s out]. simpl. intros H e.
  destruct (JsMap.get Z.eq_dec R (chatroomUsers s)) as [ids|]; simpl; auto.
  destruct (JsSet.has jsstring_eq_dec sock ids); simpl; auto.
  destruct (JsMap.get Z.eq_dec R (typingUsers s)) as [m|]; simpl;
    rewrite ?in_app_iff; intros [I|I]; try (eapply H; eassumption);
    try destruct I as [I|I];
    try (eapply socket_to_emit_not_self; eassumption); auto.
Qed.

Lemma disconnect_loop_not_self sock user Rs : forall acc,
  (forall e, ~ In (sock, e) (snd acc)) ->
  forall e, ~ In (sock, e) (snd (fold_left (disconnect_room sock user) Rs acc)).
Proof.
  induction Rs as [|R Rs IH]; intros acc H; simpl; auto.
  apply IH. apply disconnect_room_not_self. exact H.
Qed.

(** The disconnect handler sends nothing to the socket that went away. *)
Lemma on_disconnect_not_self sock s e : ~ In (sock, e) (snd (on_disconnect sock s)).
Proof.
  unfold on_disconnect.
  destruct (socket_user (leave_all sock s) sock) as [user|].
  - pose proof (disconnect_loop_not_self sock user
                  (JsMap.keys (chatroomUsers (leave_all sock s)))
                  (leave_all sock s, [])) as H.
    destruct (fold_left _ _ _) as [s1 out]. simpl in *. apply H. auto.
  - simpl. auto.
Qed.

(** What a handler sends to its own socket is never a [userJoined] or
    a [userLeft]: closes a goal whose hypothesis [I] says that the event
    [e] was sent to the socket itself. *)
Ltac own_event I :=
  repeat match type of I with
         | False => destruct I
         | _ \/ _ => destruct I as [I|I]
         | (_, _) = (_, _) => inversion I; subst; split; reflexivity
         | In _ (_ ++ _) => apply in_app_or in I
         | In _ (socket_emit _ _) => unfold socket_emit in I; simpl in I
         | In _ (io_to_emit _ _ _) =>
             apply in_io_to_emit in I; destruct I as [_ I]; subst;
             split; reflexivity
         | In _ (socket_to_emit _ _ _ _) =>
             apply socket_to_emit_not_self in I
         end.

Lemma start_no_echo sock ev s e :
  In (sock, e) (sent (start sock ev s)) ->
  is_userJoined e = false /\ is_userLeft e = false.
Proof.
  unfold sent. intros I. destruct ev as [|id|R|R content|R b|R|]; simpl in I.
  - own_event I.
  - own_event I.
  - unfold joinRoom_start in I.
    destruct (socket_user s sock); simpl in I; own_event I.
  - unfold message_start in I.
    destruct (socket_user s sock); [destruct (blank content)|]; simpl in I;
      own_event I.
  - unfold on_typing in I.
    destruct (socket_user s sock); simpl in I; own_event I.
  - unfold on_leaveRoom in I.
    destruct (socket_user s sock); simpl in I; own_event I.
  - destruct (on_disconnect sock s) as [s' out] eqn:D. simpl in I.
    exfalso. apply (on_disconnect_not_self sock s e). rewrite D. exact I.
Qed.

Lemma continue_no_echo clock r s e :
  In (ready_socket r, e) (sent (continue clock r s)) ->
  is_userJoined e = false /\ is_userLeft e = false.
Proof.
  unfold sent. intros I.
  destruct r as [c o|c u R o|c u R o|c u R o|c u R o|c u R b o];
    destruct o as [a|]; simpl in I.
  - destruct a; simpl in I; own_event I.
  - own_event I.
  - destruct a; simpl in I; own_event I.
  - own_event I.
  - own_event I.
  - own_event I.
  - own_event I.
  - own_event I.
  - own_event I.
  - own_event I.
  - own_event I.
  - own_event I.
Qed.

Lemma get_in_values (K V : Type) (dec : forall a b : K, {a = b} + {a <> b})
    (k : K) (m : JsMap.t K V) v :
  JsMap.get dec k m = Some v -> In v (JsMap.values m).
Proof.
  unfold JsMap.values. induction m as [|[k0 v0] m IH]; simpl; [discriminate|].
  destruct (dec k k0); [intros H; left; congruence|auto].
Qed.

(** C7, as the code has it.  No piece of a handler that runs for a
    socket sends that socket a [userJoined] or a [userLeft], and the
    disconnect handler sends it nothing at all.  The [typing] handler is
    different: it sends one and the same typing list, the room's list as
    it is after the signal, to every socket in the room and to no other,
    so to the socket that signalled when it is in the room.  After
    [typing: true] that list carries the socket's own entry, with the id
    and the nickname of its user; after [typing: false] the room's map has
    no entry for the socket. *)
Theorem own_join_and_leave_not_echoed_but_typing_is :
  (forall (sock : SocketId) (ev : ClientEvent) (s : Server),
     ~ receives is_userJoined sock (sent (start sock ev s)) /\
     ~ receives is_userLeft sock (sent (start sock ev s))) /\
  (forall (clock : jsstring) (r : Ready) (s : Server),
     ~ receives is_userJoined (ready_socket r) (sent (continue clock r s)) /\
     ~ receives is_userLeft (ready_socket r) (sent (continue clock r s))) /\
  (forall (sock : SocketId) (s : Server) (e : ServerEvent),
     ~ In (sock, e) (snd (on_disconnect sock s))) /\
  (forall (sock : SocketId) (s : Server) (user : UserInfo) (R : Z)
          (isTyping : bool),
     socket_user s sock = Some user ->
     let s' := fst (on_typing sock R isTyping s) in
     let typingList := JsMap.values (room_typing s' R) in
     let own := {| ty_id := ui_id user; ty_nickname := ui_nickname user |} in
     snd (on_typing sock R isTyping s) =
       List.map (fun t => (t, EvTypingUsers R typingList)) (room_sockets s R) /\
     (In sock (room_sockets s R) ->
      In (sock, EvTypingUsers R typingList) (snd (on_typing sock R isTyping s))) /\
     (isTyping = true ->
      JsMap.get jsstring_eq_dec sock (room_typing s' R) = Some own /\
      In own typingList) /\
     (isTyping = false ->
      JsMap.get jsstring_eq_dec sock (room_typing s' R) = None)).
Proof.
  split; [|split; [|split]].
  - intros sock ev s. unfold receives. split.
    + intros [e [I K]]. apply start_no_echo in I. destruct I; congruence.
    + intros [e [I K]]. apply start_no_echo in I. destruct I; congruence.
  - intros clock r s. unfold receives. split.
    + intros [e [I K]]. apply continue_no_echo in I. destruct I; congruence.
    + intros [e [I K]]. apply continue_no_echo in I. destruct I; congruence.
  - intros sock s e. apply on_disconnect_not_self.
  - intros sock s user R isTyping U s' typingList own.
    assert (O : snd (on_typing sock R isTyping s) =
                List.map (fun t => (t, EvTypingUsers R typingList))
                         (room_sockets s R)).
    { apply (on_typing_effect s sock user R isTyping U). }
    assert (G : JsMap.get jsstring_eq_dec sock (room_typing s' R) =
                if isTyping then Some own else None).
    { unfold s', on_typing. rewrite U. simpl. rewrite room_typing_set.
      destruct isTyping; [apply get_set_eq|apply get_delete_eq]. }
    split; [exact O|]. split; [|split].
    + intros I. rewrite O. apply in_map_iff. exists sock. auto.
    + intros T. subst isTyping. split; [exact G|].
      apply (get_in_values _ _ jsstring_eq_dec sock _ own G).
    + intros T. subst isTyping. exact G.
Qed.

Lemma own_join_and_leave_not_echoed_but_typing_is_witness :
  socket_user (server lobby_world) sockA = Some (info_of alice) /\
  In sockA (room_sockets (server lobby_world) 42) /\
  In (sockA, EvTypingUsers 42 [{| ty_id := 1; ty_nickname := js "Alice" |}])
     (snd (on_typing sockA 42 true (server lobby_world))) /\
  In (sockA, EvTypingUsers 42 [])
     (snd (on_typing sockA 42 false (server lobby_world))).
Proof.
  assert (U : socket_user (server lobby_world) sockA = Some (info_of alice))
    by (vm_compute; reflexivity).
  assert (I : In sockA (room_sockets (server lobby_world) 42))
    by (vm_compute; auto).
  split; [exact U|]. split; [exact I|].
  destruct own_join_and_leave_not_echoed_but_typing_is as [_ [_ [_ H]]].
  split.
  - pose proof (proj1 (proj2 (H sockA (server lobby_world) (info_of alice) 42
                                true U)) I) as K.
    vm_compute in K. vm_compute. exact K.
  - pose proof (proj1 (proj2 (H sockA (server lobby_world) (info_of alice) 42
                                false U)) I) as K.
    vm_compute in K. vm_compute. exact K.
Defined.

(** A socket in room 42 signals that it is typing: the typing list,
    with its own entry and nothing else in it, is sent to the socket
    itself as well as to the other socket in the room. *)
Lemma own_typing_is_echoed :
  room_sockets (server lobby_world) 42 = [sockA; sockB] /\
  snd (on_typing sockA 42 true (server lobby_world)) =
    [(sockA, EvTypingUsers 42 [{| ty_id := 1; ty_nickname := js "Alice" |}]);
     (sockB, EvTypingUsers 42 [{| ty_id := 1; ty_nickname := js "Alice" |}])].
Proof. vm_compute. split; reflexivity. Qed.

(* ================================================================== *)
(** ** Joining a room twice *)
(* ================================================================== *)

Lemma room_sockets_get s R sock :
  In sock (room_sockets s R) ->
  JsMap.get Z.eq_dec R (rooms s) = Some (room_sockets s R).
Proof.
  unfold room_sockets. destruct (JsMap.get Z.eq_dec R (rooms s)); simpl; tauto.
Qed.

Lemma chatroom_sockets_get s R sock :
  In sock (chatroom_sockets s R) ->
  JsMap.get Z.eq_dec R (chatroomUsers s) = Some (chatroom_sockets s R).
Proof.
  unfold chatroom_sockets.
  destruct (JsMap.get Z.eq_dec R (chatroomUsers s)); simpl; tauto.
Qed.

(** [socket.join] and the [chatroomUsers] update change nothing for a
    socket that is already in both. *)
Lemma joinRoom_added_again sock user R s :
  In sock (room_sockets s R) ->
  In sock (chatroom_sockets s R) ->
  joinRoom_added sock user R (Resolved tt) s =
    (s, [], Some (AwHistory sock user R)).
Proof.
  intros I J. unfold joinRoom_added.
  assert (E : socket_join sock R s = s).
  { unfold socket_join. rewrite add_present by exact I.
    rewrite set_same by (eapply room_sockets_get; eauto).
    rewrite with_rooms_same. destruct (is_connected s sock); reflexivity. }
  rewrite E. rewrite add_present by exact J.
  rewrite set_same by (eapply chatroom_sockets_get; eauto).
  rewrite with_chatroomUsers_same. reflexivity.
Qed.

(** C8, as the code has it.  A socket that is already in room [R] (in
    Socket.IO's room and in [chatroomUsers]) joins it again: the server's
    state, and so the membership of every room, is what it was; the
    socket is sent the history and the member list again, and every other
    socket in the room is sent [userJoined] again. *)
Theorem rejoin_keeps_members_and_notifies_again :
  forall (s : Server) (d : Db) (sock : SocketId) (user : UserInfo) (R : Z)
         (now : Z) (clock : jsstring),
    socket_user s sock = Some user ->
    In sock (room_sockets s R) ->
    In sock (chatroom_sockets s R) ->
    Chatroom_findById d R <> None ->
    let d' := Chatroom_addMember now R (ui_id user) d in
    handle now clock sock (JoinRoom R) s d =
      (s, d',
       [(sock, EvMessageHistory (Message_getByChatroom d' R 50));
        (sock, EvRoomMembers (Chatroom_getMembers d' R))] ++
       socket_to_emit sock s R
         (EvUserJoined (ui_id user) (ui_nickname user) (ui_username user)
            (ui_nickname user ++ txt_joined)),
       None).
Proof.
  intros s d sock user R now clock U I J F d'.
  unfold handle. simpl. unfold joinRoom_start. rewrite U. simpl.
  destruct (Chatroom_findById d R) as [room|]; [|congruence]. simpl.
  pose proof (joinRoom_added_again sock user R s I J) as E.
  unfold joinRoom_added in E. injection E as E. rewrite E. reflexivity.
Qed.

Lemma lobby_sockA_in_room : In sockA (room_sockets (server lobby_world) 42).
Proof. vm_compute. left. reflexivity. Qed.

Lemma lobby_sockA_in_chatroom :
  In sockA (chatroom_sockets (server lobby_world) 42).
Proof. vm_compute. left. reflexivity. Qed.

Lemma lobby_room_found : Chatroom_findById (db lobby_world) 42 <> None.
Proof. vm_compute. discriminate. Qed.

Lemma rejoin_keeps_members_and_notifies_again_witness :
  let r := handle 12 [] sockA (JoinRoom 42) (server lobby_world)
             (db lobby_world) in
  fst (fst (fst r)) = server lobby_world /\
  In (sockB, EvUserJoined 1 (js "Alice") (js "alice") (js "Alice" ++ txt_joined))
     (snd (fst r)).
Proof.
  cbv zeta.
  rewrite (rejoin_keeps_members_and_notifies_again
             (server lobby_world) (db lobby_world) sockA (info_of alice) 42
             12 [] eq_refl lobby_sockA_in_room lobby_sockA_in_chatroom
             lobby_room_found).
  cbn [fst snd]. split; [reflexivity|].
  vm_compute. right. right. left. reflexivity.
Defined.

(** A socket that is in room 42 joins it again: the other socket in the
    room is sent another [userJoined] for it. *)
Lemma rejoin_notifies_again :
  let out := snd (run (join sockA 42 5 12) lobby_world) in
  In sockA (room_sockets (server lobby_world) 42) /\
  In sockA (chatroom_sockets (server lobby_world) 42) /\
  List.filter (fun e => is_userJoined (snd e)) out =
    [(sockB, EvUserJoined 1 (js "Alice") (js "alice")
               (js "Alice" ++ txt_joined))].
Proof. vm_compute. repeat split; auto. Qed.

(* ================================================================== *)
(** ** Typing entries stay until the client stops them *)
(* ================================================================== *)

Lemma typing_entry_ext s s' R c :
  typingUsers s' = typingUsers s -> typing_entry s' R c = typing_entry s R c.
Proof. unfold typing_entry, room_typing. intros E. rewrite E. reflexivity. Qed.

Lemma continue_typingUsers clock r s :
  typingUsers (fst (fst (continue clock r s))) = typingUsers s.
Proof.
  destruct r as [c o|c u R o|c u R o|c u R o|c u R o|c u R b o];
    destruct o as [a|]; try destruct a; simpl;
    unfold set_socket_user, socket_join;
    try destruct (is_connected s c); reflexivity.
Qed.

Lemma on_leaveRoom_typingUsers sock R s :
  typingUsers (fst (on_leaveRoom sock R s)) = typingUsers s.
Proof.
  unfold on_leaveRoom. destruct (socket_user s sock); simpl; auto.
  unfold socket_leave.
  destruct (JsMap.get Z.eq_dec R (rooms s)); simpl;
    match goal with |- context [JsMap.get ?d ?k ?m] =>
      destruct (JsMap.get d k m) end; reflexivity.
Qed.

(** Another socket's entry survives a [set] or a [delete] on the map. *)
Lemma has_set_other (m : JsMap.t SocketId TypingInfo) sock c v :
  JsMap.has jsstring_eq_dec c m = true ->
  JsMap.has jsstring_eq_dec c (JsMap.set jsstring_eq_dec sock v m) = true.
Proof.
  unfold JsMap.has. intros H. destruct (jsstring_eq_dec sock c) as [e|ne].
  - subst. rewrite get_set_eq. reflexivity.
  - rewrite get_set_ne; auto.
Qed.

Lemma has_delete_other (m : JsMap.t SocketId TypingInfo) sock c :
  sock <> c ->
  JsMap.has jsstring_eq_dec c (JsMap.delete jsstring_eq_dec sock m) =
  JsMap.has jsstring_eq_dec c m.
Proof. unfold JsMap.has. intros ne. rewrite get_delete_ne; auto. Qed.

Lemma on_typing_keeps_entry sock R' b s c R :
  (b = false -> sock = c -> R' <> R) ->
  typing_entry s R c = true ->
  typing_entry (fst (on_typing sock R' b s)) R c = true.
Proof.
  intros N H. unfold on_typing. destruct (socket_user s sock); simpl; auto.
  unfold typing_entry. destruct (Z.eq_dec R' R) as [e|ne].
  - subst R'. rewrite room_typing_set. destruct b.
    + apply has_set_other. exact H.
    + rewrite has_delete_other; [exact H|]. intros E. apply (N eq_refl E eq_refl).
  - rewrite room_typing_set_ne; auto.
Qed.

Lemma disconnect_room_keeps_entry sock user c R acc R' :
  sock <> c ->
  typing_entry (fst acc) R c = true ->
  typing_entry (fst (disconnect_room sock user acc R')) R c = true.
Proof.
  intros ne H. destruct acc as [s out]. simpl in *.
  destruct (JsMap.get Z.eq_dec R' (chatroomUsers s)) as [ids|]; simpl; auto.
  destruct (JsSet.has jsstring_eq_dec sock ids); simpl; auto.
  destruct (JsMap.get Z.eq_dec R' (typingUsers s)) as [m|] eqn:E; simpl; auto.
  unfold typing_entry. simpl. destruct (Z.eq_dec R' R) as [e|ne'].
  - subst R'.
    change (JsMap.has jsstring_eq_dec c
              (room_typing
                 (with_typingUsers
                    (JsMap.set Z.eq_dec R (JsMap.delete jsstring_eq_dec sock m)
                       (typingUsers s)) s) R) = true).
    rewrite room_typing_set. rewrite has_delete_other by exact ne.
    unfold typing_entry, room_typing in H. rewrite E in H. exact H.
  - unfold room_typing. simpl. rewrite get_set_ne by exact ne'. exact H.
Qed.

Lemma disconnect_loop_keeps_entry sock user c R Rs : forall acc,
  sock <> c ->
  typing_entry (fst acc) R c = true ->
  typing_entry (fst (fold_left (disconnect_room sock user) Rs acc)) R c = true.
Proof.
  induction Rs as [|R' Rs IH]; intros acc ne H; simpl; auto.
  apply IH; auto. apply disconnect_room_keeps_entry; auto.
Qed.

Lemma on_disconnect_keeps_entry sock c R s :
  sock <> c ->
  typing_entry s R c = true ->
  typing_entry (fst (on_disconnect sock s)) R c = true.
Proof.
  intros ne H. unfold on_disconnect.
  assert (H0 : typing_entry (leave_all sock s) R c = true)
    by (rewrite (typing_entry_ext s (leave_all sock s)); auto).
  destruct (socket_user (leave_all sock s) sock) as [user|].
  - pose proof (disconnect_loop_keeps_entry sock user c R
                  (JsMap.keys (chatroomUsers (leave_all sock s)))
                  (leave_all sock s, []) ne H0) as K.
    destruct (fold_left _ _ _) as [s1 out]. simpl in *. exact K.
  - simpl. exact H0.
Qed.

(** A step other than the socket's own stop signal or disconnect leaves
    its typing entry in place. *)
Lemma step_keeps_typing_entry l w c R :
  stops_typing c R l = false ->
  typing_entry (server w) R c = true ->
  typing_entry (server (fst (step l w))) R c = true.
Proof.
  intros N H. destruct l as [sock ev|n now|n|n clock]; simpl.
  - destruct ev as [|id|R'|R' content|R' b|R'|]; simpl.
    + exact H.
    + exact H.
    + unfold joinRoom_start. destruct (socket_user (server w) sock); exact H.
    + unfold message_start. destruct (socket_user (server w) sock);
        [destruct (blank content)|]; exact H.
    + pose proof (on_typing_keeps_entry sock R' b (server w) c R) as K.
      destruct (on_typing sock R' b (server w)) as [s' out]. simpl in *.
      apply K; auto. intros -> ->. simpl in N.
      destruct (jsstring_eq_dec c c); [|congruence]. simpl in N.
      intros ->. rewrite Z.eqb_refl in N. discriminate.
    + pose proof (on_leaveRoom_typingUsers sock R' (server w)) as K.
      destruct (on_leaveRoom sock R' (server w)) as [s' out]. simpl in *.
      rewrite (typing_entry_ext (server w) s'); auto.
    + pose proof (on_disconnect_keeps_entry sock c R (server w)) as K.
      destruct (on_disconnect sock (server w)) as [s' out]. simpl in *.
      apply K; auto. simpl in N.
      destruct (jsstring_eq_dec sock c); [discriminate|assumption].
  - destruct (nth_error (tasks w) n) as [[a|r|]|]; simpl; auto.
    destruct (db_perform now a (db w)). exact H.
  - destruct (nth_error (tasks w) n) as [[a|r|]|]; simpl; auto.
  - destruct (nth_error (tasks w) n) as [[a|r|]|]; simpl; auto.
    pose proof (continue_typingUsers clock r (server w)) as K.
    destruct (continue clock r (server w)) as [[s' out] a]. simpl in *.
    rewrite (typing_entry_ext (server w) s'); auto.
Qed.

Lemma run_keeps_typing_entry ls : forall w c R,
  forallb (fun l => negb (stops_typing c R l)) ls = true ->
  typing_entry (server w) R c = true ->
  typing_entry (server (fst (run ls w))) R c = true.
Proof.
  induction ls as [|l ls IH]; intros w c R F H; simpl; auto.
  simpl in F. apply andb_true_iff in F. destruct F as [F1 F2].
  apply negb_true_iff in F1.
  pose proof (step_keeps_typing_entry l w c R F1 H) as H1.
  destruct (step l w) as [w1 out1]. simpl in H1.
  specialize (IH w1 c R F2 H1).
  destruct (run ls w1) as [w2 out2]. exact IH.
Qed.

Lemma upto_no_stop c R T (r : TimedRun) :
  forallb (fun e => negb (stops_typing c R (snd e))) r = true ->
  forallb (fun l => negb (stops_typing c R l)) (upto T r) = true.
Proof.
  unfold upto. induction r as [|[t l] r IH]; simpl; auto.
  intros F. apply andb_true_iff in F. destruct F as [F1 F2].
  destruct (t <=? T); simpl; auto. rewrite F1. auto.
Qed.

(** C5, as the code has it.  The server keeps no expiry time and sets no
    timer.  Once an authenticated socket has signalled [typing: true] for
    room [R], its entry is there after every run of steps, and so at
    every later time, in which the socket neither signals [typing: false]
    for [R] nor disconnects; the explicit [typing: false] is what removes
    it, and it sends the new list to the room. *)
Theorem typing_entry_stays_until_stopped :
  forall (w : World) (sock : SocketId) (user : UserInfo) (R : Z),
    socket_user (server w) sock = Some user ->
    let w1 := fst (step (Client sock (Typing R true)) w) in
    (forall ls,
       forallb (fun l => negb (stops_typing sock R l)) ls = true ->
       typing_entry (server (fst (run ls w1))) R sock = true) /\
    (forall (r : TimedRun) (T : Z),
       forallb (fun e => negb (stops_typing sock R (snd e))) r = true ->
       typing_entry (server (fst (run (upto T r) w1))) R sock = true) /\
    (forall w2 user2,
       socket_user (server w2) sock = Some user2 ->
       let r := step (Client sock (Typing R false)) w2 in
       typing_entry (server (fst r)) R sock = false /\
       List.map fst (snd r) = room_sockets (server w2) R /\
       forallb (fun e => is_typingUsers (snd e)) (snd r) = true).
Proof.
  intros w sock user R U w1.
  assert (H1 : typing_entry (server w1) R sock = true).
  { unfold w1. simpl.
    pose proof (on_typing_effect (server w) sock user R true U)
      as [_ K].
    destruct (on_typing sock R true (server w)) as [s' out]. exact K. }
  split; [|split].
  - intros ls F. apply run_keeps_typing_entry; auto.
  - intros r T F. apply run_keeps_typing_entry; auto. apply upto_no_stop; auto.
  - intros w2 user2 U2 r. unfold r. simpl.
    pose proof (on_typing_effect (server w2) sock user2 R false
                  U2) as [O K].
    destruct (on_typing sock R false (server w2)) as [s' out]. simpl in *.
    split; [exact K|]. subst out. split.
    + rewrite map_map. simpl. apply map_id.
    + rewrite forallb_forall. intros e I. apply in_map_iff in I.
      destruct I as [t [E _]]. subst e. reflexivity.
Qed.

Lemma typing_entry_stays_until_stopped_witness :
  let w1 := fst (step (Client sockA (Typing 42 true)) lobby_world) in
  let later := [(1, Client sockB (Typing 42 true));
                (2, Client sockB (Typing 42 false));
                (5, Client sockC (JoinRoom 42)); (6, Query 5 6)] in
  typing_entry (server (fst (run (upto 1000 later) w1))) 42 sockA = true.
Proof.
  destruct (typing_entry_stays_until_stopped lobby_world sockA (info_of alice)
              42 eq_refl) as [_ [H _]].
  apply (H [(1, Client sockB (Typing 42 true));
            (2, Client sockB (Typing 42 false));
            (5, Client sockC (JoinRoom 42)); (6, Query 5 6)] 1000 eq_refl).
Defined.

(** A socket signals [typing: true] at time 0 and then sends nothing.
    Its entry is there at time 3, at time 4 and at time 1000000, and after
    the broadcast of the signal itself nothing more is sent. *)
Lemma typing_entry_outlives_idle_window :
  let r := [(0, Client sockA (Typing 42 true))] in
  let at_time T := run (upto T r) lobby_world in
  typing_entry (server (fst (at_time 3))) 42 sockA = true /\
  typing_entry (server (fst (at_time 4))) 42 sockA = true /\
  typing_entry (server (fst (at_time 1000000))) 42 sockA = true /\
  snd (at_time 1000000) = snd (at_time 0).
Proof. vm_compute. repeat split. Qed.

(* ================================================================== *)
(** ** The history a join sends *)
(* ================================================================== *)

Section OrderByFacts.
Variable A : Type.
Variable before : A -> A -> bool.
Hypothesis before_total : forall x y, before x y = true \/ before y x = true.
Hypothesis before_trans :
  forall x y z, before x y = true -> before y z = true -> before x z = true.

Lemma insert_row_perm x l : Permutation (x :: l) (insert_row before x l).
Proof.
  induction l as [|y l IH]; simpl; auto.
  destruct (before x y); auto.
  rewrite perm_swap. apply perm_skip. exact IH.
Qed.

Lemma order_by_perm l : Permutation l (order_by before l).
Proof.
  induction l as [|x l IH]; simpl; auto.
  rewrite <- insert_row_perm. apply perm_skip. exact IH.
Qed.

Lemma insert_row_sorted x l :
  StronglySorted (fun a b => before a b = true) l ->
  StronglySorted (fun a b => before a b = true) (insert_row before x l).
Proof.
  induction 1 as [|y l S IH F]; simpl.
  - constructor; constructor.
  - destruct (before x y) eqn:E.
    + constructor; [constructor; assumption|].
      constructor; [exact E|].
      eapply Forall_impl; [|exact F]. intros z Hz.
      eapply before_trans; eauto.
    + constructor; [exact IH|].
      apply (Permutation_Forall (insert_row_perm x l)).
      constructor; [|exact F].
      destruct (before_total x y) as [H|H]; [congruence|exact H].
Qed.

Lemma order_by_sorted l :
  StronglySorted (fun a b => before a b = true) (order_by before l).
Proof.
  induction l as [|x l IH]; simpl; [constructor|].
  apply insert_row_sorted. exact IH.
Qed.
End OrderByFacts.

Section SortedFacts.
Variable A : Type.
Variable R : A -> A -> Prop.




End SortedFacts.

Lemma sorted_weaken (A : Type) (R R' : A -> A -> Prop) l :
  (forall a b, R a b -> R' a b) -> StronglySorted R l -> StronglySorted R' l.
Proof.
  intros W. induction 1 as [|x l S IH F]; constructor; auto.
  eapply Forall_impl; [|exact F]. intros y. apply W.
Qed.

Lemma history_rows_from_room d R h :
  In h (history_rows d R) ->
  m_chatroom_id (h_message h) = R /\ In (h_message h) (messages d).
Proof.
  unfold history_rows. rewrite in_flat_map. intros [m [I J]].
  apply filter_In in I. destruct I as [I E]. apply Z.eqb_eq in E.
  apply in_map_iff in J. destruct J as [u [J _]]. subst h. simpl. auto.
Qed.


Lemma addMember_messages now R uid d :
  messages (Chatroom_addMember now R uid d) = messages d /\
  users (Chatroom_addMember now R uid d) = users d.
Proof.
  unfold Chatroom_addMember.
  destruct (is_member d R uid || negb (chatroom_exists d R)
            || negb (user_exists d uid)); auto.
Qed.




(* ================================================================== *)
(** ** What the disconnect handler cleans up *)
(* ================================================================== *)

Lemma get_in_keys (K V : Type) (dec : forall a b : K, {a = b} + {a <> b})
    (k : K) (m : JsMap.t K V) v :
  JsMap.get dec k m = Some v -> In k (JsMap.keys m).
Proof.
  induction m as [|[k0 v0] m IH]; simpl; [discriminate|].
  destruct (dec k k0); auto.
Qed.

Lemma chatroom_sockets_set s R ids :
  chatroom_sockets
    (with_chatroomUsers (JsMap.set Z.eq_dec R ids (chatroomUsers s)) s) R = ids.
Proof. unfold chatroom_sockets. simpl. rewrite get_set_eq. reflexivity. Qed.

Lemma chatroom_sockets_set_ne s R R' ids :
  R <> R' ->
  chatroom_sockets
    (with_chatroomUsers (JsMap.set Z.eq_dec R ids (chatroomUsers s)) s) R'
  = chatroom_sockets s R'.
Proof. intros N. unfold chatroom_sockets. simpl. rewrite get_set_ne; auto. Qed.

(** One turn of the loop takes the socket out of that room's set and
    leaves the other sets alone. *)
Lemma disconnect_room_chatroom sock user acc R0 R :
  chatroom_sockets (fst (disconnect_room sock user acc R0)) R =
  if Z.eq_dec R0 R
  then JsSet.delete jsstring_eq_dec sock (chatroom_sockets (fst acc) R)
  else chatroom_sockets (fst acc) R.
Proof.
  destruct acc as [s out]. simpl.
  destruct (JsMap.get Z.eq_dec R0 (chatroomUsers s)) as [ids|] eqn:E; simpl.
  - destruct (JsSet.has jsstring_eq_dec sock ids) eqn:H; simpl.
    + assert (C : chatroom_sockets
                    (with_chatroomUsers
                       (JsMap.set Z.eq_dec R0
                          (JsSet.delete jsstring_eq_dec sock ids)
                          (chatroomUsers s)) s) R =
                  if Z.eq_dec R0 R
                  then JsSet.delete jsstring_eq_dec sock (chatroom_sockets s R)
                  else chatroom_sockets s R).
      { destruct (Z.eq_dec R0 R) as [e|ne].
        - subst R0. rewrite chatroom_sockets_set. unfold chatroom_sockets.
          rewrite E. reflexivity.
        - apply chatroom_sockets_set_ne. exact ne. }
      destruct (JsMap.get Z.eq_dec R0 (typingUsers s)); simpl; exact C.
    + destruct (Z.eq_dec R0 R) as [e|ne]; auto. subst R0.
      unfold chatroom_sockets at 2. rewrite E. unfold JsSet.delete.
      rewrite notin_remove; [unfold chatroom_sockets; rewrite E; reflexivity|].
      intros I. apply (has_true _ jsstring_eq_dec) in I. congruence.
  - destruct (Z.eq_dec R0 R) as [e|ne]; auto. subst R0.
    unfold chatroom_sockets. rewrite E. reflexivity.
Qed.

Lemma disconnect_loop_chatroom sock user R Rs : forall acc,
  In R Rs \/ ~ In sock (chatroom_sockets (fst acc) R) ->
  ~ In sock (chatroom_sockets (fst (fold_left (disconnect_room sock user) Rs acc)) R).
Proof.
  induction Rs as [|R0 Rs IH]; intros acc H; simpl.
  - destruct H as [[]|H]; exact H.
  - apply IH. rewrite disconnect_room_chatroom.
    destruct (Z.eq_dec R0 R) as [e|ne].
    + right. intros I. apply in_delete in I. tauto.
    + destruct H as [[E|I]|H]; [congruence|left; exact I|right; exact H].
Qed.

(** A turn of the loop never gives the socket a typing entry. *)
Lemma disconnect_room_no_entry sock user acc R0 R :
  typing_entry (fst acc) R sock = false ->
  typing_entry (fst (disconnect_room sock user acc R0)) R sock = false.
Proof.
  destruct acc as [s out]. simpl. intros H.
  destruct (JsMap.get Z.eq_dec R0 (chatroomUsers s)) as [ids|]; simpl; auto.
  destruct (JsSet.has jsstring_eq_dec sock ids); simpl; auto.
  destruct (JsMap.get Z.eq_dec R0 (typingUsers s)) as [m|] eqn:E; simpl; auto.
  unfold typing_entry. destruct (Z.eq_dec R0 R) as [e|ne].
  - subst R0.
    change (JsMap.has jsstring_eq_dec sock
              (room_typing
                 (with_typingUsers
                    (JsMap.set Z.eq_dec R (JsMap.delete jsstring_eq_dec sock m)
                       (typingUsers s)) s) R) = false).
    rewrite room_typing_set. apply has_delete_eq.
  - unfold room_typing. simpl. rewrite get_set_ne by exact ne. exact H.
Qed.

(** The turn for a room whose set holds the socket removes its typing
    entry there. *)
Lemma disconnect_room_clears_entry sock user acc R :
  In sock (chatroom_sockets (fst acc) R) ->
  typing_entry (fst (disconnect_room sock user acc R)) R sock = false.
Proof.
  destruct acc as [s out]. simpl. unfold chatroom_sockets. intros I.
  destruct (JsMap.get Z.eq_dec R (chatroomUsers s)) as [ids|]; [|destruct I].
  apply (has_true _ jsstring_eq_dec) in I. rewrite I.
  destruct (JsMap.get Z.eq_dec R (typingUsers s)) as [m|] eqn:E; simpl.
  - unfold typing_entry.
    change (JsMap.has jsstring_eq_dec sock
              (room_typing
                 (with_typingUsers
                    (JsMap.set Z.eq_dec R (JsMap.delete jsstring_eq_dec sock m)
                       (typingUsers s)) s) R) = false).
    rewrite room_typing_set. apply has_delete_eq.
  - unfold typing_entry, room_typing. simpl. rewrite E. reflexivity.
Qed.

Lemma disconnect_loop_clears_entry sock user R Rs : forall acc,
  typing_entry (fst acc) R sock = false \/
  (In R Rs /\ In sock (chatroom_sockets (fst acc) R)) ->
  typing_entry (fst (fold_left (disconnect_room sock user) Rs acc)) R sock = false.
Proof.
  induction Rs as [|R0 Rs IH]; intros acc H; simpl.
  - destruct H as [H|[[] _]]. exact H.
  - apply IH. destruct H as [H|[[E|I] J]].
    + left. apply disconnect_room_no_entry. exact H.
    + subst R0. left. apply disconnect_room_clears_entry. exact J.
    + destruct (Z.eq_dec R0 R) as [e|ne].
      * subst R0. left. apply disconnect_room_clears_entry. exact J.
      * right. split; [exact I|]. rewrite disconnect_room_chatroom.
        destruct (Z.eq_dec R0 R); [congruence|exact J].
Qed.

Lemma disconnect_room_rooms sock user acc R0 :
  rooms (fst (disconnect_room sock user acc R0)) = rooms (fst acc).
Proof.
  destruct acc as [s out]. simpl.
  destruct (JsMap.get Z.eq_dec R0 (chatroomUsers s)) as [ids|]; simpl; auto.
  destruct (JsSet.has jsstring_eq_dec sock ids); simpl; auto.
  destruct (JsMap.get Z.eq_dec R0 (typingUsers s)); reflexivity.
Qed.

Lemma disconnect_loop_rooms sock user Rs : forall acc,
  rooms (fst (fold_left (disconnect_room sock user) Rs acc)) = rooms (fst acc).
Proof.
  induction Rs as [|R0 Rs IH]; intros acc; simpl; auto.
  rewrite IH. apply disconnect_room_rooms.
Qed.

(** What the disconnect handler does clean up.  It is a total function
    (it cannot fail), also for a socket that never logged in.  Afterwards
    the socket is in no Socket.IO room and not in [onlineUsers]; if it was
    logged in, it is in no set of [chatroomUsers], and it has no typing
    entry in any room whose set held it. *)
Theorem disconnect_clears_presence :
  forall (sock : SocketId) (s : Server),
    let s' := fst (on_disconnect sock s) in
    (forall R, ~ In sock (room_sockets s' R)) /\
    JsMap.has jsstring_eq_dec sock (onlineUsers s') = false /\
    (forall R, socket_user s sock <> None ->
               ~ In sock (chatroom_sockets s' R)) /\
    (forall R, socket_user s sock <> None ->
               In sock (chatroom_sockets s R) ->
               typing_entry s' R sock = false).
Proof.
  intros sock s. unfold on_disconnect.
  assert (SU : socket_user (leave_all sock s) sock = socket_user s sock)
    by reflexivity.
  assert (CS : forall R, chatroom_sockets (leave_all sock s) R = chatroom_sockets s R)
    by reflexivity.
  rewrite SU.
  destruct (socket_user s sock) as [user|] eqn:U.
  - pose proof (disconnect_loop_rooms sock user
                  (JsMap.keys (chatroomUsers (leave_all sock s)))
                  (leave_all sock s, [])) as HR.
    pose proof (fun R => disconnect_loop_chatroom sock user R
                  (JsMap.keys (chatroomUsers (leave_all sock s)))
                  (leave_all sock s, [])) as HC.
    pose proof (fun R => disconnect_loop_clears_entry sock user R
                  (JsMap.keys (chatroomUsers (leave_all sock s)))
                  (leave_all sock s, [])) as HT.
    destruct (fold_left _ _ _) as [s1 out]. simpl in *.
    repeat split.
    + intros R. unfold room_sockets. simpl. rewrite HR.
      apply (leave_all_leaves sock s R).
    + unfold JsMap.has. rewrite get_delete_eq. reflexivity.
    + intros R _. apply HC.
      destruct (JsMap.get Z.eq_dec R (chatroomUsers s)) as [ids|] eqn:E.
      * left. eapply get_in_keys. exact E.
      * right. unfold chatroom_sockets. simpl. rewrite E. auto.
    + intros R _ I. apply HT. right. split; [|exact I].
      unfold chatroom_sockets in I.
      destruct (JsMap.get Z.eq_dec R (chatroomUsers s)) as [ids|] eqn:E;
        [|destruct I].
      eapply get_in_keys. exact E.
  - simpl. repeat split.
    + intros R. apply (leave_all_leaves sock s R).
    + unfold JsMap.has. rewrite get_delete_eq. reflexivity.
    + intros R N. congruence.
    + intros R N. congruence.
Qed.

Lemma disconnect_clears_presence_witness :
  let s := fst (on_typing sockA 42 true (server lobby_world)) in
  (typing_entry s 42 sockA = true /\ In sockA (chatroom_sockets s 42)) /\
  typing_entry (fst (on_disconnect sockA s)) 42 sockA = false /\
  ~ In sockA (chatroom_sockets (fst (on_disconnect sockA s)) 42).
Proof.
  assert (U : socket_user (fst (on_typing sockA 42 true (server lobby_world)))
                sockA <> None) by (vm_compute; discriminate).
  assert (I : In sockA (chatroom_sockets
                          (fst (on_typing sockA 42 true (server lobby_world))) 42))
    by (vm_compute; left; reflexivity).
  destruct (disconnect_clears_presence sockA
              (fst (on_typing sockA 42 true (server lobby_world))))
    as [_ [_ [HC HT]]].
  split; [split; [reflexivity|exact I]|].
  split; [exact (HT 42 U I)|exact (HC 42 U)].
Defined.

(** C2 on two inputs the server can receive.  A logged-in socket types in
    room 42, leaves the room and disconnects; another types in room 7,
    which it never joined, and disconnects.  Either way the socket is
    gone from the rooms, from [chatroomUsers] and from [onlineUsers], and
    its typing entry is still there. *)
Theorem disconnect_leaves_typing_entry :
  (room_sockets (server typed_left_gone) 42 = [sockB] /\
   chatroom_sockets (server typed_left_gone) 42 = [sockB] /\
   JsMap.has jsstring_eq_dec sockA (onlineUsers (server typed_left_gone)) = false /\
   room_typing (server typed_left_gone) 42 =
     [(sockA, {| ty_id := 1; ty_nickname := js "Alice" |})]) /\
  (JsMap.has jsstring_eq_dec sockC (onlineUsers (server typed_outside_gone)) = false /\
   room_typing (server typed_outside_gone) 7 =
     [(sockC, {| ty_id := 3; ty_nickname := js "Carol" |})]).
Proof. vm_compute. repeat split. Qed.

(* ================================================================== *)
(** ** Leaving a room *)
(* ================================================================== *)

Lemma leaveRoom_room_sockets sock R s user :
  socket_user s sock = Some user ->
  room_sockets (fst (on_leaveRoom sock R s)) R =
  JsSet.delete jsstring_eq_dec sock (room_sockets s R).
Proof.
  intros U. unfold on_leaveRoom. rewrite U. simpl.
  assert (L : room_sockets (socket_leave sock R s) R =
              JsSet.delete jsstring_eq_dec sock (room_sockets s R)).
  { unfold socket_leave, room_sockets.
    destruct (JsMap.get Z.eq_dec R (rooms s)) as [l|] eqn:E; simpl.
    - rewrite get_set_eq. reflexivity.
    - rewrite E. reflexivity. }
  destruct (JsMap.get Z.eq_dec R (chatroomUsers (socket_leave sock R s)));
    exact L.
Qed.

Lemma leaveRoom_chatroom_sockets sock R s user :
  socket_user s sock = Some user ->
  chatroom_sockets (fst (on_leaveRoom sock R s)) R =
  JsSet.delete jsstring_eq_dec sock (chatroom_sockets s R).
Proof.
  intros U. unfold on_leaveRoom. rewrite U. simpl.
  assert (C : chatroomUsers (socket_leave sock R s) = chatroomUsers s).
  { unfold socket_leave. destruct (JsMap.get Z.eq_dec R (rooms s)); reflexivity. }
  rewrite C. unfold chatroom_sockets at 2.
  destruct (JsMap.get Z.eq_dec R (chatroomUsers s)) as [ids|] eqn:E.
  - unfold chatroom_sockets. simpl. rewrite get_set_eq. reflexivity.
  - unfold chatroom_sockets. rewrite C, E. reflexivity.
Qed.

Lemma socket_leave_rooms sock R s R' :
  room_sockets (socket_leave sock R s) R' =
  if Z.eq_dec R R' then JsSet.delete jsstring_eq_dec sock (room_sockets s R')
  else room_sockets s R'.
Proof.
  unfold socket_leave, room_sockets.
  destruct (JsMap.get Z.eq_dec R (rooms s)) as [l|] eqn:E; simpl.
  - destruct (Z.eq_dec R R') as [e|ne].
    + subst R'. rewrite get_set_eq, E. reflexivity.
    + rewrite get_set_ne by exact ne. reflexivity.
  - destruct (Z.eq_dec R R') as [e|ne]; [|reflexivity].
    subst R'. rewrite E. reflexivity.
Qed.

Lemma on_leaveRoom_presence sock R s user R' :
  socket_user s sock = Some user ->
  sockets (fst (on_leaveRoom sock R s)) = sockets s /\
  room_sockets (fst (on_leaveRoom sock R s)) R' =
    (if Z.eq_dec R R' then JsSet.delete jsstring_eq_dec sock (room_sockets s R')
     else room_sockets s R') /\
  chatroom_sockets (fst (on_leaveRoom sock R s)) R' =
    (if Z.eq_dec R R' then JsSet.delete jsstring_eq_dec sock (chatroom_sockets s R')
     else chatroom_sockets s R').
Proof.
  intros U. unfold on_leaveRoom. rewrite U. simpl.
  assert (S0 : sockets (socket_leave sock R s) = sockets s).
  { unfold socket_leave. destruct (JsMap.get Z.eq_dec R (rooms s)); reflexivity. }
  assert (C0 : chatroomUsers (socket_leave sock R s) = chatroomUsers s).
  { unfold socket_leave. destruct (JsMap.get Z.eq_dec R (rooms s)); reflexivity. }
  rewrite C0.
  destruct (JsMap.get Z.eq_dec R (chatroomUsers s)) as [ids|] eqn:E; simpl.
  - split; [exact S0|]. split.
    + change (room_sockets (socket_leave sock R s) R' =
              if Z.eq_dec R R'
              then JsSet.delete jsstring_eq_dec sock (room_sockets s R')
              else room_sockets s R').
      apply socket_leave_rooms.
    + unfold chatroom_sockets. simpl. destruct (Z.eq_dec R R') as [e|ne].
      * subst R'. rewrite get_set_eq, E. reflexivity.
      * rewrite get_set_ne by exact ne. reflexivity.
  - split; [exact S0|]. split; [apply socket_leave_rooms|].
    unfold chatroom_sockets. rewrite C0.
    destruct (Z.eq_dec R R') as [e|ne]; [|reflexivity].
    subst R'. rewrite E. reflexivity.
Qed.

Lemma on_leaveRoom_others sock R s :
  onlineUsers (fst (on_leaveRoom sock R s)) = onlineUsers s.
Proof.
  unfold on_leaveRoom. destruct (socket_user s sock); simpl; auto.
  unfold socket_leave.
  destruct (JsMap.get Z.eq_dec R (rooms s)); simpl;
    match goal with |- context [JsMap.get ?d ?k ?m] =>
      destruct (JsMap.get d k m) end; reflexivity.
Qed.

(** An authenticated socket leaves room [R]: afterwards it is neither in
    Socket.IO's room nor in the room's [chatroomUsers] set; nobody else
    has left [R] and no other room or set has changed; the sockets'
    users, [onlineUsers] and the typing maps are what they were; and
    [userLeft] is sent once to each socket still in the room, and to
    nobody else. *)
Theorem leave_removes_and_notifies :
  forall (s : Server) (sock : SocketId) (user : UserInfo) (R : Z),
    socket_user s sock = Some user ->
    let s' := fst (on_leaveRoom sock R s) in
    ~ In sock (room_sockets s' R) /\
    ~ In sock (chatroom_sockets s' R) /\
    (forall t R', t <> sock \/ R' <> R ->
       (In t (room_sockets s' R') <-> In t (room_sockets s R')) /\
       (In t (chatroom_sockets s' R') <-> In t (chatroom_sockets s R'))) /\
    (sockets s' = sockets s /\ onlineUsers s' = onlineUsers s /\
     typingUsers s' = typingUsers s) /\
    snd (on_leaveRoom sock R s) =
      List.map (fun t => (t, EvUserLeft (ui_id user) (ui_nickname user)
                               (ui_nickname user ++ txt_left)))
               (room_sockets s' R).
Proof.
  intros s sock user R U s'.
  pose proof (fun R' => on_leaveRoom_presence sock R s user R' U) as P.
  fold s' in P.
  assert (N : ~ In sock (room_sockets s' R)).
  { rewrite (proj1 (proj2 (P R))). destruct (Z.eq_dec R R); [|congruence].
    intros I. apply in_delete in I. tauto. }
  split; [exact N|]. split; [|split; [|split]].
  - rewrite (proj2 (proj2 (P R))). destruct (Z.eq_dec R R); [|congruence].
    intros I. apply in_delete in I. tauto.
  - intros t R' H.
    rewrite (proj1 (proj2 (P R'))), (proj2 (proj2 (P R'))).
    destruct (Z.eq_dec R R') as [e|ne]; [|tauto].
    subst R'. rewrite !in_delete. destruct H as [H|H]; [tauto|congruence].
  - split; [exact (proj1 (P R))|]. split.
    + apply on_leaveRoom_others.
    + apply on_leaveRoom_typingUsers.
  - unfold s' in *. unfold on_leaveRoom in *. rewrite U in *. simpl in *.
    unfold socket_to_emit. unfold JsSet.delete at 1.
    rewrite notin_remove by exact N. reflexivity.
Qed.

Lemma leave_removes_and_notifies_witness :
  room_sockets (server lobby_world) 42 = [sockA; sockB] /\
  snd (on_leaveRoom sockA 42 (server lobby_world)) =
    [(sockB, EvUserLeft 1 (js "Alice") (js "Alice" ++ txt_left))].
Proof.
  split; [reflexivity|].
  destruct (leave_removes_and_notifies (server lobby_world) sockA
              (info_of alice) 42 eq_refl) as [_ [_ [_ [_ H]]]].
  rewrite H. reflexivity.
Defined.

(* ================================================================== *)
(** ** Joining a room for the first time *)
(* ================================================================== *)

Lemma get_set_case (K V : Type) (dec : forall a b : K, {a = b} + {a <> b})
    (k k' : K) (v : V) (m : JsMap.t K V) :
  JsMap.get dec k' (JsMap.set dec k v m) =
  if dec k k' then Some v else JsMap.get dec k' m.
Proof.
  destruct (dec k k') as [e|ne].
  - subst. apply get_set_eq.
  - apply get_set_ne. exact ne.
Qed.

Lemma findById_exists d R :
  Chatroom_findById d R <> None -> chatroom_exists d R = true.
Proof.
  unfold Chatroom_findById, chatroom_exists.
  induction (chatrooms d) as [|c l IH]; simpl; [congruence|].
  destruct (c_id c =? R); simpl; auto.
Qed.

Lemma addMember_is_member now R uid d :
  chatroom_exists d R = true -> user_exists d uid = true ->
  is_member (Chatroom_addMember now R uid d) R uid = true.
Proof.
  intros C U. unfold Chatroom_addMember. rewrite C, U. simpl.
  rewrite !orb_false_r. destruct (is_member d R uid) eqn:M; [exact M|].
  unfold is_member. simpl. rewrite existsb_app. simpl.
  rewrite !Z.eqb_refl. simpl. apply orb_true_r.
Qed.

Lemma joinRoom_added_rooms sock user R s R' :
  room_sockets (fst (fst (joinRoom_added sock user R (Resolved tt) s))) R' =
  if is_connected s sock
  then if Z.eq_dec R R' then JsSet.add jsstring_eq_dec sock (room_sockets s R)
       else room_sockets s R'
  else room_sockets s R'.
Proof.
  simpl. unfold room_sockets at 1. simpl. unfold socket_join.
  destruct (is_connected s sock); [|reflexivity].
  simpl. rewrite get_set_case.
  destruct (Z.eq_dec R R'); reflexivity.
Qed.

Lemma joinRoom_added_chatroom sock user R s R' :
  chatroom_sockets (fst (fst (joinRoom_added sock user R (Resolved tt) s))) R' =
  if Z.eq_dec R R' then JsSet.add jsstring_eq_dec sock (chatroom_sockets s R)
  else chatroom_sockets s R'.
Proof.
  simpl. unfold chatroom_sockets at 1. simpl. rewrite get_set_case.
  unfold chatroom_sockets.
  rewrite (proj1 (proj2 (proj2 (socket_join_fields s sock R)))).
  destruct (Z.eq_dec R R'); reflexivity.
Qed.

(** An authenticated socket joins a room the store knows: afterwards it
    is in Socket.IO's room and in the room's [chatroomUsers] set, no other
    membership has changed, the store holds what [addMember] leaves (the
    user is a member of record if the store knows the user), and the
    handler has sent the history and the member list to the socket and
    [userJoined] to every other socket in the room. *)
Theorem join_adds_presence :
  forall (s : Server) (d : Db) (sock : SocketId) (user : UserInfo) (R : Z)
         (now : Z) (clock : jsstring),
    socket_user s sock = Some user ->
    Chatroom_findById d R <> None ->
    let r := handle now clock sock (JoinRoom R) s d in
    let s' := fst (fst (fst r)) in
    let d' := snd (fst (fst r)) in
    (In sock (room_sockets s' R) /\ In sock (chatroom_sockets s' R)) /\
    (forall t R', t <> sock \/ R' <> R ->
       (In t (room_sockets s' R') <-> In t (room_sockets s R')) /\
       (In t (chatroom_sockets s' R') <-> In t (chatroom_sockets s R'))) /\
    (d' = Chatroom_addMember now R (ui_id user) d /\
     (user_exists d (ui_id user) = true -> is_member d' R (ui_id user) = true)) /\
    r = (s', d',
         [(sock, EvMessageHistory (Message_getByChatroom d' R 50));
          (sock, EvRoomMembers (Chatroom_getMembers d' R))] ++
         List.map (fun t => (t, EvUserJoined (ui_id user) (ui_nickname user)
                                  (ui_username user)
                                  (ui_nickname user ++ txt_joined)))
                  (JsSet.delete jsstring_eq_dec sock (room_sockets s' R)),
         None).
Proof.
  intros s d sock user R now clock U F r s' d'.
  assert (E : r = (fst (fst (joinRoom_added sock user R (Resolved tt) s)),
                   Chatroom_addMember now R (ui_id user) d,
                   [(sock, EvMessageHistory
                             (Message_getByChatroom
                                (Chatroom_addMember now R (ui_id user) d) R 50));
                    (sock, EvRoomMembers
                             (Chatroom_getMembers
                                (Chatroom_addMember now R (ui_id user) d) R))] ++
                   socket_to_emit sock
                     (fst (fst (joinRoom_added sock user R (Resolved tt) s))) R
                     (EvUserJoined (ui_id user) (ui_nickname user)
                        (ui_username user) (ui_nickname user ++ txt_joined)),
                   None)).
  { unfold r, handle. simpl. unfold joinRoom_start. rewrite U. simpl.
    destruct (Chatroom_findById d R) as [room|]; [|congruence]. reflexivity. }
  assert (Es : s' = fst (fst (joinRoom_added sock user R (Resolved tt) s)))
    by (unfold s'; rewrite E; reflexivity).
  assert (Ed : d' = Chatroom_addMember now R (ui_id user) d)
    by (unfold d'; rewrite E; reflexivity).
  split; [|split; [|split]].
  - rewrite Es, joinRoom_added_rooms, joinRoom_added_chatroom.
    rewrite (socket_user_connected s sock user U).
    destruct (Z.eq_dec R R); [|congruence].
    split; apply in_add; left; reflexivity.
  - intros t R' H. rewrite Es, joinRoom_added_rooms, joinRoom_added_chatroom.
    rewrite (socket_user_connected s sock user U).
    destruct (Z.eq_dec R R') as [e|ne]; [|tauto]. subst R'.
    rewrite !in_add. destruct H as [H|H]; [|congruence]. tauto.
  - split; [exact Ed|]. intros UE. rewrite Ed.
    apply addMember_is_member; auto. apply findById_exists. exact F.
  - rewrite E at 1. rewrite <- Es, <- Ed. reflexivity.
Qed.

Lemma join_adds_presence_witness :
  let r := handle 12 [] sockC (JoinRoom 42) (server lobby_world)
             (db lobby_world) in
  room_sockets (fst (fst (fst r))) 42 = [sockA; sockB; sockC] /\
  is_member (snd (fst (fst r))) 42 3 = true.
Proof.
  destruct (join_adds_presence (server lobby_world) (db lobby_world) sockC
              (info_of carol) 42 12 [] eq_refl lobby_room_found)
    as [_ [_ [[_ M] _]]].
  split; [vm_compute; reflexivity|]. apply M. vm_compute. reflexivity.
Defined.

(* ================================================================== *)
(** ** Failures of the store *)
(* ================================================================== *)

(** The store fails the query a handler waits for: when the handler
    resumes, its [catch] block sends one [error] event, to the socket the
    handler runs for, the server's state and the store stay as they are,
    and the handler is over. *)
Theorem store_failure_is_reported :
  forall (w : World) (n : nat) (a : Await) (clock : jsstring),
    nth_error (tasks w) n = Some (Waiting a) ->
    run [QueryFails n; Resume n clock] w =
      ({| server := server w; db := db w;
          tasks := set_nth n Finished (tasks w) |},
       [(await_socket a, EvError (catch_message a))]).
Proof.
  intros w n a clock H. simpl. rewrite H. simpl.
  rewrite (nth_error_set_nth_eq _ (tasks w) n (Settled (db_fail a)) (Waiting a) H).
  assert (S : forall (x y : Task),
            set_nth n x (set_nth n y (tasks w)) = set_nth n x (tasks w)).
  { intros x y. clear H. revert n. induction (tasks w) as [|t l IH];
      intros [|n]; simpl; auto. rewrite IH. reflexivity. }
  destruct a; simpl; rewrite S; reflexivity.
Qed.

Lemma store_failure_is_reported_witness :
  let w := fst (step (Client sockC (JoinRoom 42)) lobby_world) in
  snd (run [QueryFails 5; Resume 5 []] w) = [(sockC, EvError msg_join_failed)] /\
  server (fst (run [QueryFails 5; Resume 5 []] w)) = server lobby_world.
Proof.
  cbv zeta.
  rewrite (store_failure_is_reported
             (fst (step (Client sockC (JoinRoom 42)) lobby_world)) 5
             (AwRoomFind sockC (info_of carol) 42) [] eq_refl).
  split; vm_compute; reflexivity.
Defined.

(** Publishing to a room the store does not know (or as a user it does
    not know): the insert breaks a foreign key, the sender is sent one
    [error] event, nothing is stored and nothing is broadcast, not even
    to sockets that are in Socket.IO's room of that id. *)
Theorem publish_to_unknown_room_fails :
  forall (s : Server) (d : Db) (sock : SocketId) (user : UserInfo) (R : Z)
         (content : jsstring) (now : Z) (clock : jsstring),
    socket_user s sock = Some user ->
    blank content = false ->
    chatroom_exists d R && user_exists d (ui_id user) = false ->
    handle now clock sock (Message R content) s d =
      (s, d, [(sock, EvError msg_send_failed)], None).
Proof.
  intros s d sock user R content now clock U B F.
  unfold handle. simpl. unfold message_start. rewrite U, B. simpl.
  unfold Message_create. rewrite F. reflexivity.
Qed.

Lemma publish_to_unknown_room_fails_witness :
  handle 20 [] sockA (Message 7 (js "hi")) (server lobby_world) (db lobby_world)
  = (server lobby_world, db lobby_world, [(sockA, EvError msg_send_failed)], None).
Proof.
  exact (publish_to_unknown_room_fails (server lobby_world) (db lobby_world)
           sockA (info_of alice) 7 (js "hi") 20 [] eq_refl eq_refl eq_refl).
Defined.

(* ================================================================== *)
(** ** No socket is listed twice *)
(* ================================================================== *)

Section ValuesOk.
Variables K V : Type.
Variable dec : forall a b : K, {a = b} + {a <> b}.
Variable P : V -> Prop.

Lemma values_ok_set k v (m : JsMap.t K V) :
  values_ok dec P m -> P v -> values_ok dec P (JsMap.set dec k v m).
Proof.
  intros H Pv k' v'. rewrite get_set_case.
  destruct (dec k k'); intros E; [inversion E; subst; exact Pv|].
  eapply H. exact E.
Qed.

Lemma get_map_values (f : V -> V) k (m : JsMap.t K V) :
  JsMap.get dec k (List.map (fun e => (fst e, f (snd e))) m) =
  option_map f (JsMap.get dec k m).
Proof.
  induction m as [|[k0 v0] m IH]; simpl; auto.
  destruct (dec k k0); auto.
Qed.

Lemma values_ok_map (f : V -> V) (m : JsMap.t K V) :
  (forall v, P v -> P (f v)) ->
  values_ok dec P m ->
  values_ok dec P (List.map (fun e => (fst e, f (snd e))) m).
Proof.
  intros F H k v. rewrite get_map_values.
  destruct (JsMap.get dec k m) as [v0|] eqn:E; simpl; [|discriminate].
  intros E'. inversion E'; subst. apply F. eapply H. exact E.
Qed.

End ValuesOk.

Section KeysFacts.
Variables K V : Type.
Variable dec : forall a b : K, {a = b} + {a <> b}.

Lemma in_keys_set k k' v (m : JsMap.t K V) :
  In k' (JsMap.keys (JsMap.set dec k v m)) <-> k' = k \/ In k' (JsMap.keys m).
Proof.
  unfold JsMap.keys. induction m as [|[k0 v0] m IH]; simpl.
  - intuition.
  - destruct (dec k k0) as [e|ne]; simpl.
    + subst. intuition.
    + rewrite IH. intuition.
Qed.

Lemma nodup_keys_set k v (m : JsMap.t K V) :
  NoDup (JsMap.keys m) -> NoDup (JsMap.keys (JsMap.set dec k v m)).
Proof.
  unfold JsMap.keys. induction m as [|[k0 v0] m IH]; simpl; intros H.
  - constructor; [simpl; tauto|constructor].
  - inversion H as [|? ? N H']; subst.
    destruct (dec k k0) as [e|ne]; simpl.
    + subst. constructor; assumption.
    + constructor; [|apply IH; exact H'].
      intros I. apply (in_keys_set k k0 v m) in I.
      destruct I as [I|I]; [congruence|]. apply N. exact I.
Qed.

Lemma in_keys_delete k k' (m : JsMap.t K V) :
  In k' (JsMap.keys (JsMap.delete dec k m)) -> In k' (JsMap.keys m).
Proof.
  unfold JsMap.keys. induction m as [|[k0 v0] m IH]; simpl; auto.
  destruct (dec k k0); simpl; intuition.
Qed.

Lemma nodup_keys_delete k (m : JsMap.t K V) :
  NoDup (JsMap.keys m) -> NoDup (JsMap.keys (JsMap.delete dec k m)).
Proof.
  unfold JsMap.keys. induction m as [|[k0 v0] m IH]; simpl; intros H; auto.
  inversion H as [|? ? N H']; subst.
  destruct (dec k k0); simpl; auto.
  constructor; auto. intros I. apply N. apply (in_keys_delete k k0 m I).
Qed.
End KeysFacts.

Lemma nodup_add sock (l : JsSet.t SocketId) :
  NoDup l -> NoDup (JsSet.add jsstring_eq_dec sock l).
Proof.
  intros H. unfold JsSet.add. destruct (in_dec jsstring_eq_dec sock l); auto.
  apply NoDup_app; auto.
  - constructor; [simpl; tauto|constructor].
  - intros a I [E|[]]. subst. contradiction.
Qed.

Lemma nodup_delete sock (l : JsSet.t SocketId) :
  NoDup l -> NoDup (JsSet.delete jsstring_eq_dec sock l).
Proof.
  unfold JsSet.delete. induction 1 as [|a l N H IH]; simpl; [constructor|].
  destruct (jsstring_eq_dec sock a); auto.
  constructor; auto. intros I. apply in_remove in I. tauto.
Qed.

Lemma room_sockets_nodup s R :
  values_ok Z.eq_dec (@NoDup SocketId) (rooms s) -> NoDup (room_sockets s R).
Proof.
  intros H. unfold room_sockets.
  destruct (JsMap.get Z.eq_dec R (rooms s)) eqn:E; [eapply H; eauto|constructor].
Qed.

Lemma chatroom_sockets_nodup s R :
  values_ok Z.eq_dec (@NoDup SocketId) (chatroomUsers s) ->
  NoDup (chatroom_sockets s R).
Proof.
  intros H. unfold chatroom_sockets.
  destruct (JsMap.get Z.eq_dec R (chatroomUsers s)) eqn:E;
    [eapply H; eauto|constructor].
Qed.

Lemma room_typing_nodup s R :
  values_ok Z.eq_dec (fun m : JsMap.t SocketId TypingInfo => NoDup (JsMap.keys m))
            (typingUsers s) ->
  NoDup (JsMap.keys (room_typing s R)).
Proof.
  intros H. unfold room_typing.
  destruct (JsMap.get Z.eq_dec R (typingUsers s)) eqn:E;
    [eapply H; eauto|constructor].
Qed.

Lemma sets_ok_same s s' :
  rooms s' = rooms s -> chatroomUsers s' = chatroomUsers s ->
  typingUsers s' = typingUsers s -> sets_ok s -> sets_ok s'.
Proof. unfold sets_ok. intros -> -> ->. auto. Qed.

Lemma on_typing_sets_ok sock R b s :
  sets_ok s -> sets_ok (fst (on_typing sock R b s)).
Proof.
  intros H. unfold on_typing. destruct (socket_user s sock); simpl; auto.
  destruct H as [H1 [H2 H3]]. repeat split; simpl; auto.
  apply values_ok_set; auto.
  pose proof (room_typing_nodup s R H3) as N.
  destruct b; [apply nodup_keys_set|apply nodup_keys_delete]; exact N.
Qed.

Lemma on_leaveRoom_sets_ok sock R s :
  sets_ok s -> sets_ok (fst (on_leaveRoom sock R s)).
Proof.
  intros [H1 [H2 H3]]. unfold on_leaveRoom.
  destruct (socket_user s sock); simpl; [|repeat split; auto].
  assert (L : sets_ok (socket_leave sock R s)).
  { unfold socket_leave.
    destruct (JsMap.get Z.eq_dec R (rooms s)) as [l|] eqn:E;
      repeat split; simpl; auto.
    apply values_ok_set; auto. apply nodup_delete. eapply H1; eauto. }
  destruct L as [L1 [L2 L3]].
  destruct (JsMap.get Z.eq_dec R (chatroomUsers (socket_leave sock R s)))
    as [ids|] eqn:E; repeat split; simpl; auto.
  apply values_ok_set; auto. apply nodup_delete. eapply L2; eauto.
Qed.

Lemma joinRoom_added_sets_ok sock user R o s :
  sets_ok s -> sets_ok (fst (fst (joinRoom_added sock user R o s))).
Proof.
  intros [H1 [H2 H3]]. destruct o as [[]|]; simpl; [|repeat split; auto].
  assert (J : sets_ok (socket_join sock R s)).
  { unfold socket_join. destruct (is_connected s sock);
      [|split; [exact H1|split; [exact H2|exact H3]]].
    split; [|split; [exact H2|exact H3]]. simpl.
    apply values_ok_set; auto. apply nodup_add. apply room_sockets_nodup; auto. }
  destruct J as [J1 [J2 J3]].
  split; [exact J1|]. split; [|exact J3]. simpl.
  apply values_ok_set; auto. apply nodup_add.
  apply (chatroom_sockets_nodup (socket_join sock R s) R). exact J2.
Qed.

Lemma disconnect_room_sets_ok sock user acc R :
  sets_ok (fst acc) -> sets_ok (fst (disconnect_room sock user acc R)).
Proof.
  destruct acc as [s out]. simpl. intros [H1 [H2 H3]].
  destruct (JsMap.get Z.eq_dec R (chatroomUsers s)) as [ids|] eqn:E; simpl;
    [|repeat split; auto].
  destruct (JsSet.has jsstring_eq_dec sock ids); simpl; [|repeat split; auto].
  assert (C : values_ok Z.eq_dec (@NoDup SocketId)
                (JsMap.set Z.eq_dec R (JsSet.delete jsstring_eq_dec sock ids)
                   (chatroomUsers s))).
  { apply values_ok_set; auto. apply nodup_delete. eapply H2; eauto. }
  destruct (JsMap.get Z.eq_dec R (typingUsers s)) as [m|] eqn:T; simpl;
    repeat split; simpl; auto.
  apply values_ok_set; auto. apply nodup_keys_delete. eapply H3; eauto.
Qed.

Lemma disconnect_loop_sets_ok sock user Rs : forall acc,
  sets_ok (fst acc) -> sets_ok (fst (fold_left (disconnect_room sock user) Rs acc)).
Proof.
  induction Rs as [|R Rs IH]; intros acc H; simpl; auto.
  apply IH. apply disconnect_room_sets_ok. exact H.
Qed.

Lemma on_disconnect_sets_ok sock s :
  sets_ok s -> sets_ok (fst (on_disconnect sock s)).
Proof.
  intros [H1 [H2 H3]]. unfold on_disconnect.
  assert (L : sets_ok (leave_all sock s)).
  { repeat split; simpl; auto.
    apply (values_ok_map Z (JsSet.t SocketId) Z.eq_dec (@NoDup SocketId)
             (JsSet.delete jsstring_eq_dec sock)); auto.
    intros v. apply nodup_delete. }
  destruct (socket_user (leave_all sock s) sock) as [user|].
  - pose proof (disconnect_loop_sets_ok sock user
                  (JsMap.keys (chatroomUsers (leave_all sock s)))
                  (leave_all sock s, []) L) as K.
    destruct (fold_left _ _ _) as [s1 out]. simpl in *.
    eapply sets_ok_same; [| | |exact K]; reflexivity.
  - simpl. eapply sets_ok_same; [| | |exact L]; reflexivity.
Qed.

Lemma start_sets_ok sock ev s :
  sets_ok s -> sets_ok (fst (fst (start sock ev s))).
Proof.
  intros H. destruct ev as [|id|R|R content|R b|R|]; simpl.
  - eapply sets_ok_same; [| | |exact H]; reflexivity.
  - exact H.
  - unfold joinRoom_start. destruct (socket_user s sock); exact H.
  - unfold message_start.
    destruct (socket_user s sock); [destruct (blank content)|]; exact H.
  - pose proof (on_typing_sets_ok sock R b s H) as K.
    destruct (on_typing sock R b s). exact K.
  - pose proof (on_leaveRoom_sets_ok sock R s H) as K.
    destruct (on_leaveRoom sock R s). exact K.
  - pose proof (on_disconnect_sets_ok sock s H) as K.
    destruct (on_disconnect sock s). exact K.
Qed.

Lemma continue_sets_ok clock r s :
  sets_ok s -> sets_ok (fst (fst (continue clock r s))).
Proof.
  intros H. destruct r as [c o|c u R o|c u R o|c u R o|c u R o|c u R b o].
  - destruct o as [[a|]|]; simpl; try exact H.
    destruct (set_socket_user_fields s c
                (Some {| ui_id := u_id a; ui_nickname := u_nickname a;
                         ui_username := u_username a; ui_email := u_email a;
                         ui_avatar := u_avatar a |})) as [A [_ [B C]]].
    eapply sets_ok_same; [| | |exact H]; simpl; assumption.
  - destruct o as [[a|]|]; exact H.
  - apply joinRoom_added_sets_ok. exact H.
  - destruct o; exact H.
  - destruct o; exact H.
  - destruct o; exact H.
Qed.

Lemma step_sets_ok l w :
  sets_ok (server w) -> sets_ok (server (fst (step l w))).
Proof.
  intros H. destruct l as [sock ev|n now|n|n clock]; simpl.
  - pose proof (start_sets_ok sock ev (server w) H) as K.
    destruct (start sock ev (server w)) as [[s' out] a]. exact K.
  - destruct (nth_error (tasks w) n) as [[a|r|]|]; simpl; auto.
    destruct (db_perform now a (db w)). exact H.
  - destruct (nth_error (tasks w) n) as [[a|r|]|]; simpl; auto.
  - destruct (nth_error (tasks w) n) as [[a|r|]|]; simpl; auto.
    pose proof (continue_sets_ok clock r (server w) H) as K.
    destruct (continue clock r (server w)) as [[s' out] a]. exact K.
Qed.

Lemma run_sets_ok ls : forall w,
  sets_ok (server w) -> sets_ok (server (fst (run ls w))).
Proof.
  induction ls as [|l ls IH]; intros w H; simpl; auto.
  pose proof (step_sets_ok l w H) as H1.
  destruct (step l w) as [w1 out1]. specialize (IH w1 H1).
  destruct (run ls w1) as [w2 out2]. exact IH.
Qed.

(** Whatever the clients send and however the handlers interleave, in
    every state the server reaches from its start no Socket.IO room and no
    [chatroomUsers] set lists a socket twice, and no room's typing map has
    two entries for one socket: a broadcast to a room names each socket
    once. *)
Theorem reachable_sets_have_no_duplicates :
  forall (d : Db) (ls : list Label) (R : Z) (ev : ServerEvent),
    let s := server (fst (run ls (init_world d))) in
    NoDup (room_sockets s R) /\
    NoDup (chatroom_sockets s R) /\
    NoDup (JsMap.keys (room_typing s R)) /\
    NoDup (List.map fst (io_to_emit s R ev)).
Proof.
  intros d ls R ev s.
  assert (H : sets_ok s).
  { apply run_sets_ok. repeat split; intros k v E; discriminate. }
  destruct H as [H1 [H2 H3]].
  split; [apply room_sockets_nodup; exact H1|].
  split; [apply chatroom_sockets_nodup; exact H2|].
  split; [apply room_typing_nodup; exact H3|].
  unfold io_to_emit. rewrite map_map. simpl. rewrite map_id.
  apply room_sockets_nodup. exact H1.
Qed.

(* ================================================================== *)
(** ** A handler answers, and rebinds, only its own socket *)
(* ================================================================== *)

(** Closes a goal [t = sock] from a hypothesis [I] that the event [e] was
    sent to [t] and a hypothesis [K] that [e] is a reply. *)
Ltac reply_event I K :=
  repeat match type of I with
         | False => destruct I
         | _ \/ _ => destruct I as [I|I]
         | (_, _) = (_, _) =>
             inversion I; subst; first [reflexivity | discriminate K]
         | In _ (_ ++ _) => apply in_app_or in I
         | In _ (socket_emit _ _) => unfold socket_emit in I; simpl in I
         | In _ (io_to_emit _ _ _) =>
             apply in_io_to_emit in I; destruct I as [_ I]; subst;
             discriminate K
         | In _ (socket_to_emit _ _ _ _) =>
             apply in_socket_to_emit in I; destruct I as [_ [_ I]]; subst;
             discriminate K
         end.

Lemma disconnect_room_fields sock user acc R :
  sockets (fst (disconnect_room sock user acc R)) = sockets (fst acc) /\
  onlineUsers (fst (disconnect_room sock user acc R)) = onlineUsers (fst acc) /\
  ((forall t e, In (t, e) (snd acc) -> is_reply e = false) ->
   forall t e, In (t, e) (snd (disconnect_room sock user acc R)) ->
               is_reply e = false).
Proof.
  destruct acc as [s out]. simpl.
  destruct (JsMap.get Z.eq_dec R (chatroomUsers s)) as [ids|]; simpl; auto.
  destruct (JsSet.has jsstring_eq_dec sock ids); simpl; auto.
  destruct (JsMap.get Z.eq_dec R (typingUsers s)) as [m|]; simpl;
    (split; [reflexivity|split; [reflexivity|]]); intros H t e I;
    repeat (apply in_app_or in I; destruct I as [I|I]);
    try (eapply H; eassumption);
    try destruct I;
    apply in_socket_to_emit in I; destruct I as [_ [_ I]]; subst; reflexivity.
Qed.

Lemma disconnect_loop_fields sock user Rs : forall acc,
  sockets (fst (fold_left (disconnect_room sock user) Rs acc)) = sockets (fst acc) /\
  onlineUsers (fst (fold_left (disconnect_room sock user) Rs acc)) =
    onlineUsers (fst acc) /\
  ((forall t e, In (t, e) (snd acc) -> is_reply e = false) ->
   forall t e, In (t, e) (snd (fold_left (disconnect_room sock user) Rs acc)) ->
               is_reply e = false).
Proof.
  induction Rs as [|R Rs IH]; intros acc; simpl.
  - repeat split; auto.
  - destruct (IH (disconnect_room sock user acc R)) as [A [B C]].
    destruct (disconnect_room_fields sock user acc R) as [A' [B' C']].
    split; [congruence|split; [congruence|]].
    intros H. apply C. apply C'. exact H.
Qed.

Lemma on_disconnect_fields sock s :
  sockets (fst (on_disconnect sock s)) =
    JsMap.delete jsstring_eq_dec sock (sockets s) /\
  onlineUsers (fst (on_disconnect sock s)) =
    JsMap.delete jsstring_eq_dec sock (onlineUsers s) /\
  (forall t e, In (t, e) (snd (on_disconnect sock s)) -> is_reply e = false).
Proof.
  unfold on_disconnect.
  destruct (socket_user (leave_all sock s) sock) as [user|].
  - pose proof (disconnect_loop_fields sock user
                  (JsMap.keys (chatroomUsers (leave_all sock s)))
                  (leave_all sock s, [])) as [A [B C]].
    destruct (fold_left _ _ _) as [s1 out]. simpl in *.
    rewrite A, B. repeat split; auto. apply C. intros t e [].
  - simpl. repeat split; auto. intros t e [].
Qed.

Lemma start_replies sock ev s t e :
  In (t, e) (sent (start sock ev s)) -> is_reply e = true -> t = sock.
Proof.
  unfold sent. intros I K. destruct ev as [|id|R|R content|R b|R|]; simpl in I.
  - reply_event I K.
  - reply_event I K.
  - unfold joinRoom_start in I.
    destruct (socket_user s sock); simpl in I; reply_event I K.
  - unfold message_start in I.
    destruct (socket_user s sock); [destruct (blank content)|]; simpl in I;
      reply_event I K.
  - unfold on_typing in I.
    destruct (socket_user s sock); simpl in I; reply_event I K.
  - unfold on_leaveRoom in I.
    destruct (socket_user s sock); simpl in I; reply_event I K.
  - destruct (on_disconnect_fields sock s) as [_ [_ H]].
    destruct (on_disconnect sock s) as [s' out]. simpl in *.
    apply H in I. congruence.
Qed.

Lemma continue_replies clock r s t e :
  In (t, e) (sent (continue clock r s)) -> is_reply e = true ->
  t = ready_socket r.
Proof.
  unfold sent. intros I K.
  destruct r as [c o|c u R o|c u R o|c u R o|c u R o|c u R b o];
    destruct o as [a|]; simpl in I; try (destruct a; simpl in I);
    reply_event I K.
Qed.

Lemma start_bindings sock ev s c :
  sock <> c ->
  socket_user (fst (fst (start sock ev s))) c = socket_user s c /\
  JsMap.get jsstring_eq_dec c (onlineUsers (fst (fst (start sock ev s)))) =
    JsMap.get jsstring_eq_dec c (onlineUsers s).
Proof.
  intros ne. destruct ev as [|id|R|R content|R b|R|]; simpl.
  - unfold socket_user. simpl. rewrite get_set_ne by exact ne. auto.
  - auto.
  - unfold joinRoom_start. destruct (socket_user s sock); auto.
  - unfold message_start.
    destruct (socket_user s sock); [destruct (blank content)|]; auto.
  - unfold on_typing. destruct (socket_user s sock); auto.
  - unfold on_leaveRoom. destruct (socket_user s sock); simpl; auto.
    unfold socket_leave.
    destruct (JsMap.get Z.eq_dec R (rooms s)); simpl;
      match goal with |- context [JsMap.get Z.eq_dec R ?m] =>
        destruct (JsMap.get Z.eq_dec R m) end; auto.
  - destruct (on_disconnect_fields sock s) as [A [B _]].
    destruct (on_disconnect sock s) as [s' out]. simpl in *.
    unfold socket_user. rewrite A, B. rewrite !get_delete_ne by exact ne. auto.
Qed.

Lemma continue_bindings clock r s c :
  ready_socket r <> c ->
  socket_user (fst (fst (continue clock r s))) c = socket_user s c /\
  JsMap.get jsstring_eq_dec c (onlineUsers (fst (fst (continue clock r s)))) =
    JsMap.get jsstring_eq_dec c (onlineUsers s).
Proof.
  intros ne.
  destruct r as [k o|k u R o|k u R o|k u R o|k u R o|k u R b o];
    destruct o as [a|]; simpl in *; try (destruct a; simpl); auto.
  - unfold socket_user, set_socket_user. destruct (is_connected s k); simpl;
      rewrite !get_set_ne by exact ne; auto.
  - unfold socket_user. simpl.
    rewrite (proj1 (socket_join_fields s k R)),
      (proj1 (proj2 (socket_join_fields s k R))). auto.
Qed.

(** A step does not touch the identity of a socket it does not run for:
    that socket's [socket.user] and its [onlineUsers] entry stay as they
    are, and it is sent no [error], [authenticated], [messageHistory] or
    [roomMembers] event (those go to the requesting socket only). *)
Theorem step_touches_only_its_socket :
  forall (l : Label) (w : World) (c : SocketId),
    actor w l <> Some c ->
    socket_user (server (fst (step l w))) c = socket_user (server w) c /\
    JsMap.get jsstring_eq_dec c (onlineUsers (server (fst (step l w)))) =
      JsMap.get jsstring_eq_dec c (onlineUsers (server w)) /\
    (forall ev, is_reply ev = true -> ~ In (c, ev) (snd (step l w))).
Proof.
  intros l w c A. destruct l as [sock ev|n now|n|n clock]; simpl in *.
  - assert (ne : sock <> c) by congruence.
    pose proof (start_bindings sock ev (server w) c ne) as [B1 B2].
    pose proof (fun e => start_replies sock ev (server w) c e) as R.
    unfold sent in R.
    destruct (start sock ev (server w)) as [[s' out] a]. simpl in *.
    repeat split; auto. intros e K I. apply ne. symmetry. eapply R; eauto.
  - destruct (nth_error (tasks w) n) as [[a|r|]|]; simpl; auto.
    destruct (db_perform now a (db w)). simpl. auto.
  - destruct (nth_error (tasks w) n) as [[a|r|]|]; simpl; auto.
  - destruct (nth_error (tasks w) n) as [[a|r|]|]; simpl; auto.
    assert (ne : ready_socket r <> c) by congruence.
    pose proof (continue_bindings clock r (server w) c ne) as [B1 B2].
    pose proof (fun e => continue_replies clock r (server w) c e) as R.
    unfold sent in R.
    destruct (continue clock r (server w)) as [[s' out] a]. simpl in *.
    repeat split; auto. intros e K I. apply ne. symmetry. eapply R; eauto.
Qed.

Lemma step_touches_only_its_socket_witness :
  let r := step (Client sockA Disconnect) lobby_world in
  socket_user (server (fst r)) sockB = Some (info_of bob) /\
  JsMap.has jsstring_eq_dec sockB (onlineUsers (server (fst r))) = true /\
  ~ In (sockB, EvError msg_login_first) (snd r).
Proof.
  assert (A : actor lobby_world (Client sockA Disconnect) <> Some sockB)
    by (vm_compute; intros E; discriminate E).
  destruct (step_touches_only_its_socket (Client sockA Disconnect) lobby_world
              sockB A) as [U [O P]].
  split; [|split].
  - transitivity (socket_user (server lobby_world) sockB);
      [exact U|vm_compute; reflexivity].
  - unfold JsMap.has.
    replace (JsMap.get jsstring_eq_dec sockB
               (onlineUsers (server (fst (step (Client sockA Disconnect)
                                            lobby_world)))))
      with (JsMap.get jsstring_eq_dec sockB (onlineUsers (server lobby_world)))
      by (symmetry; exact O).
    vm_compute. reflexivity.
  - apply P. reflexivity.
Defined.

(* ================================================================== *)
(** ** Which messages are dropped *)
(* ================================================================== *)










(* ================================================================== *)
(** ** Members of record *)
(* ================================================================== *)

Lemma is_member_in d R u :
  is_member d R u = true <-> In (R, u) (List.map member_key (chatroom_members d)).
Proof.
  unfold is_member. rewrite existsb_exists, in_map_iff. split.
  - intros [r [I E]]. apply andb_true_iff in E. destruct E as [E1 E2].
    apply Z.eqb_eq in E1, E2. exists r. unfold member_key. split; congruence.
  - intros [r [E I]]. exists r. split; auto. unfold member_key in E.
    inversion E. rewrite !Z.eqb_refl. reflexivity.
Qed.

(** [Chatroom.addMember] keeps the unique key, never removes or changes a
    row, and is idempotent; afterwards the pair is a member of record
    exactly if it was one before or the store knows both the room and the
    user, and no other pair's membership has changed. *)
Theorem addMember_keeps_unique_key :
  forall (now now' : Z) (R uid : Z) (d : Db),
    members_unique d ->
    let d' := Chatroom_addMember now R uid d in
    members_unique d' /\
    Chatroom_addMember now' R uid d' = d' /\
    is_member d' R uid =
      is_member d R uid || (chatroom_exists d R && user_exists d uid) /\
    (forall R' u', (R', u') <> (R, uid) ->
                   is_member d' R' u' = is_member d R' u') /\
    (exists added, chatroom_members d' = chatroom_members d ++ added).
Proof.
  intros now now' R uid d U d'. unfold d', Chatroom_addMember.
  destruct (is_member d R uid) eqn:M; simpl.
  - rewrite M. simpl. repeat split; auto. exists []. rewrite app_nil_r. reflexivity.
  - destruct (chatroom_exists d R) eqn:C; simpl.
    + destruct (user_exists d uid) eqn:X; simpl.
      * assert (M' : is_member
                       {| users := users d; chatrooms := chatrooms d;
                          chatroom_members :=
                            chatroom_members d ++
                            [{| cm_chatroom_id := R; cm_user_id := uid;
                                cm_joined_at := now |}];
                          messages := messages d;
                          messages_auto_increment := messages_auto_increment d |}
                       R uid = true).
        { unfold is_member. simpl. rewrite existsb_app. simpl.
          rewrite !Z.eqb_refl. simpl. apply orb_true_r. }
        rewrite M'. simpl. repeat split; auto.
        -- unfold members_unique. simpl. rewrite map_app. simpl.
           apply NoDup_app; auto.
           ++ constructor; [simpl; tauto|constructor].
           ++ intros a I [E|[]]. subst a. unfold member_key in I at 1.
              simpl in I. apply (is_member_in d R uid) in I. congruence.
        -- intros R' u' ne. unfold is_member. simpl. rewrite existsb_app. simpl.
           rewrite orb_false_r.
           destruct ((R =? R') && (uid =? u')) eqn:E; [|apply orb_false_r].
           apply andb_true_iff in E. destruct E as [E1 E2].
           apply Z.eqb_eq in E1, E2. subst. congruence.
        -- eexists. reflexivity.
      * rewrite M, C, X. simpl. repeat split; auto.
        exists []. rewrite app_nil_r. reflexivity.
    + rewrite M, C. simpl. repeat split; auto.
      exists []. rewrite app_nil_r. reflexivity.
Qed.

Lemma addMember_keeps_unique_key_witness :
  members_unique (db lobby_world) /\
  Chatroom_addMember 99 42 1 (db lobby_world) = db lobby_world /\
  is_member (Chatroom_addMember 99 42 3 (db lobby_world)) 42 3 = true.
Proof.
  assert (U : members_unique (db lobby_world)).
  { unfold members_unique. vm_compute.
    constructor; [intros [E|[]]; discriminate|].
    constructor; [intros []|constructor]. }
  split; [exact U|]. split; [vm_compute; reflexivity|].
  destruct (addMember_keeps_unique_key 99 99 42 3 (db lobby_world) U)
    as [_ [_ [H _]]].
  rewrite H. vm_compute. reflexivity.
Defined.

Lemma in_getMembers d R v :
  In v (Chatroom_getMembers d R) <->
  exists cm u, In cm (chatroom_members d) /\ cm_chatroom_id cm = R /\
               In u (users d) /\ u_id u = cm_user_id cm /\
               v = member_view u cm.
Proof.
  unfold Chatroom_getMembers.
  set (rows := flat_map _ _).
  assert (P : forall x, In x (order_by (fun a b => mv_joined_at a <=? mv_joined_at b) rows)
                        <-> In x rows).
  { intros x. split; apply Permutation_in;
      [apply Permutation_sym|]; apply order_by_perm. }
  rewrite P. unfold rows. rewrite in_flat_map. split.
  - intros [cm [I J]]. apply filter_In in I. destruct I as [I E].
    apply Z.eqb_eq in E. apply in_map_iff in J. destruct J as [u [V J]].
    apply filter_In in J. destruct J as [J F]. apply Z.eqb_eq in F.
    exists cm, u. repeat split; auto.
  - intros [cm [u [I [E [J [F V]]]]]]. exists cm. split.
    + apply filter_In. split; auto. apply Z.eqb_eq. exact E.
    + apply in_map_iff. exists u. split; [symmetry; exact V|].
      apply filter_In. split; auto. apply Z.eqb_eq. exact F.
Qed.

(** [Chatroom.getMembers] lists exactly the member rows of the room
    joined with their users, oldest membership first; a user the store
    knows shows up in it once [addMember] has run for a room it knows. *)
Theorem getMembers_lists_members_oldest_first :
  forall (d : Db) (R : Z),
    StronglySorted (fun a b => mv_joined_at a <= mv_joined_at b)
                   (Chatroom_getMembers d R) /\
    (forall v, In v (Chatroom_getMembers d R) <->
               exists cm u, In cm (chatroom_members d) /\ cm_chatroom_id cm = R /\
                            In u (users d) /\ u_id u = cm_user_id cm /\
                            v = member_view u cm) /\
    (forall now uid u,
       chatroom_exists d R = true ->
       User_findById d uid = Some u ->
       exists v, In v (Chatroom_getMembers (Chatroom_addMember now R uid d) R) /\
                 mv_id v = uid /\ mv_nickname v = u_nickname u).
Proof.
  intros d R. split; [|split].
  - unfold Chatroom_getMembers.
    eapply sorted_weaken;
      [|apply (order_by_sorted MemberView
                 (fun a b => mv_joined_at a <=? mv_joined_at b))].
    + intros a b H. apply Z.leb_le. exact H.
    + intros x y. destruct (Z.leb_spec (mv_joined_at x) (mv_joined_at y));
        [left; reflexivity|right; apply Z.leb_le; lia].
    + intros x y z H1 H2. apply Z.leb_le in H1, H2. apply Z.leb_le. lia.
  - intros v. apply in_getMembers.
  - intros now uid u C F.
    assert (Fu : In u (users d) /\ u_id u = uid).
    { unfold User_findById in F. apply find_some in F.
      destruct F as [I E]. apply Z.eqb_eq in E. auto. }
    destruct Fu as [Iu Eu].
    assert (X : user_exists d uid = true).
    { unfold user_exists. apply existsb_exists. exists u. split; auto.
      apply Z.eqb_eq. exact Eu. }
    pose proof (addMember_is_member now R uid d C X) as M.
    apply is_member_in in M. apply in_map_iff in M.
    destruct M as [cm [K I]]. unfold member_key in K. injection K as K1 K2.
    exists (member_view u cm). split; [|split; [simpl; congruence|reflexivity]].
    apply in_getMembers. exists cm, u.
    split; [exact I|]. split; [congruence|].
    split; [destruct (addMember_messages now R uid d) as [_ E]; rewrite E;
            exact Iu|].
    split; [congruence|reflexivity].
Qed.

Lemma getMembers_lists_members_oldest_first_witness :
  List.map mv_id (Chatroom_getMembers (db lobby_world) 42) = [1; 2] /\
  exists v, In v (Chatroom_getMembers
                    (Chatroom_addMember 99 42 3 (db lobby_world)) 42) /\
            mv_id v = 3 /\ mv_nickname v = js "Carol".
Proof.
  split; [vm_compute; reflexivity|].
  destruct (getMembers_lists_members_oldest_first (db lobby_world) 42)
    as [_ [_ H]].
  exact (H 99 3 carol eq_refl eq_refl).
Defined.

(** [Chatroom.removeMember] takes the pair out of the members of record
    and leaves every other pair's membership alone; [addMember] after it
    makes the pair a member again (with a new join time). *)
Theorem removeMember_removes_one_pair :
  forall (R uid : Z) (d : Db),
    let d' := Chatroom_removeMember R uid d in
    is_member d' R uid = false /\
    (forall R' u', (R', u') <> (R, uid) ->
                   is_member d' R' u' = is_member d R' u') /\
    (members_unique d -> members_unique d') /\
    (forall now, chatroom_exists d R = true -> user_exists d uid = true ->
                 is_member (Chatroom_addMember now R uid d') R uid = true).
Proof.
  intros R uid d d'. split; [|split; [|split]].
  - unfold d', is_member, Chatroom_removeMember. simpl.
    induction (chatroom_members d) as [|r l IH]; simpl; auto.
    destruct ((cm_chatroom_id r =? R) && (cm_user_id r =? uid)) eqn:E; simpl; auto.
    rewrite E. exact IH.
  - intros R' u' ne. unfold d', is_member, Chatroom_removeMember. simpl.
    induction (chatroom_members d) as [|r l IH]; simpl; auto.
    destruct ((cm_chatroom_id r =? R) && (cm_user_id r =? uid)) eqn:E; simpl.
    + rewrite IH. apply andb_true_iff in E. destruct E as [E1 E2].
      apply Z.eqb_eq in E1, E2.
      destruct ((cm_chatroom_id r =? R') && (cm_user_id r =? u')) eqn:E'; auto.
      apply andb_true_iff in E'. destruct E' as [E3 E4].
      apply Z.eqb_eq in E3, E4. exfalso. apply ne. congruence.
    + rewrite IH. reflexivity.
  - unfold d', members_unique, Chatroom_removeMember. simpl.
    induction (chatroom_members d) as [|r l IH]; simpl; auto.
    intros H. inversion H as [|? ? N H']; subst.
    destruct (negb _); simpl; auto. constructor; auto.
    intros I. apply N. apply in_map_iff in I. destruct I as [x [E I]].
    apply filter_In in I. apply in_map_iff. exists x. tauto.
  - intros now C X. apply addMember_is_member; assumption.
Qed.

Lemma removeMember_removes_one_pair_witness :
  is_member (db lobby_world) 42 1 = true /\
  is_member (Chatroom_removeMember 42 1 (db lobby_world)) 42 1 = false /\
  is_member (Chatroom_removeMember 42 1 (db lobby_world)) 42 2 = true /\
  is_member (Chatroom_addMember 99 42 1
               (Chatroom_removeMember 42 1 (db lobby_world))) 42 1 = true.
Proof.
  destruct (removeMember_removes_one_pair 42 1 (db lobby_world))
    as [H1 [_ [_ H4]]].
  split; [vm_compute; reflexivity|]. split; [exact H1|].
  split; [vm_compute; reflexivity|].
  apply H4; vm_compute; reflexivity.
Defined.

(* ================================================================== *)
(** ** The history query, for any limit *)
(* ================================================================== *)



Lemma safeLimit_pos limit : (1 <= safeLimit limit)%nat.
Proof. destruct limit; simpl; lia. Qed.


(* ================================================================== *)
(** ** A stored message is the last row of the history *)
(* ================================================================== *)

Lemma order_by_newest (l : list HistoryRow) (x : HistoryRow) :
  Forall (fun a => h_created_at a < h_created_at x) l ->
  order_by (fun a b => h_created_at b <=? h_created_at a) (l ++ [x]) =
  x :: order_by (fun a b => h_created_at b <=? h_created_at a) l.
Proof.
  induction 1 as [|a l Ha F IH]; simpl; [reflexivity|].
  rewrite IH. simpl.
  destruct (Z.leb_spec (h_created_at x) (h_created_at a)); [lia|reflexivity].
Qed.

Lemma history_rows_app (us : list UserRow) (ms ms' : list MessageRow) R :
  flat_map
    (fun m => List.map (fun u => history_row u m)
                (List.filter (fun u => u_id u =? m_user_id m) us))
    (List.filter (fun m => m_chatroom_id m =? R) (ms ++ ms')) =
  flat_map
    (fun m => List.map (fun u => history_row u m)
                (List.filter (fun u => u_id u =? m_user_id m) us))
    (List.filter (fun m => m_chatroom_id m =? R) ms) ++
  flat_map
    (fun m => List.map (fun u => history_row u m)
                (List.filter (fun u => u_id u =? m_user_id m) us))
    (List.filter (fun m => m_chatroom_id m =? R) ms').
Proof. rewrite filter_app, flat_map_app. reflexivity. Qed.

(** A message is inserted for an author the store holds exactly once, at
    a time later than every message of the room so far: the history query
    run afterwards, with any limit, ends with that message, carrying the
    stored content and the author's nickname, username and avatar. *)
Theorem created_message_ends_history :
  forall (d d' : Db) (now R uid : Z) (content : jsstring) (m : CreatedMessage)
         (u : UserRow) (limit : nat),
    Message_create now R uid content d = Some (d', m) ->
    List.filter (fun x => u_id x =? uid) (users d) = [u] ->
    Forall (fun x => m_chatroom_id x = R -> m_created_at x < now) (messages d) ->
    exists earlier,
      Message_getByChatroom d' R limit =
        earlier ++
        [history_row u {| m_id := cr_id m; m_chatroom_id := R; m_user_id := uid;
                          m_content := content; m_created_at := now |}] /\
      cr_id m = messages_auto_increment d /\
      cr_content m = content.
Proof.
  intros d d' now R uid content m u limit C U F.
  unfold Message_create in C.
  destruct (chatroom_exists d R && user_exists d uid); [|discriminate].
  inversion C; subst d' m; clear C. simpl.
  set (row := {| m_id := messages_auto_increment d; m_chatroom_id := R;
                 m_user_id := uid; m_content := content;
                 m_created_at := now |}).
  assert (H : history_rows
                {| users := users d; chatrooms := chatrooms d;
                   chatroom_members := chatroom_members d;
                   messages := messages d ++ [row];
                   messages_auto_increment := messages_auto_increment d + 1 |} R
              = history_rows d R ++ [history_row u row]).
  { unfold history_rows. simpl.
    change (fun m0 : MessageRow =>
              List.map
                (fun u0 : UserRow =>
                   {| h_message := m0; h_nickname := u_nickname u0;
                      h_username := u_username u0; h_avatar := u_avatar u0 |})
                (List.filter (fun u0 : UserRow => u_id u0 =? m_user_id m0) (users d)))
      with (fun m0 : MessageRow =>
              List.map (fun u0 => history_row u0 m0)
                (List.filter (fun u0 : UserRow => u_id u0 =? m_user_id m0) (users d))).
    rewrite history_rows_app. f_equal. simpl. rewrite Z.eqb_refl. simpl.
    rewrite U. reflexivity. }
  assert (Old : Forall (fun a => h_created_at a < h_created_at (history_row u row))
                       (history_rows d R)).
  { rewrite Forall_forall in *. intros a I.
    destruct (history_rows_from_room d R a I) as [E J].
    unfold h_created_at. simpl. apply (F (h_message a) J E). }
  unfold Message_getByChatroom. rewrite H, order_by_newest by exact Old.
  pose proof (safeLimit_pos limit) as L.
  destruct (safeLimit limit) as [|k]; [lia|]. simpl.
  eexists. split; [reflexivity|]. split; reflexivity.
Qed.

Lemma created_message_ends_history_witness :
  exists d' m earlier,
    Message_create 50 42 2 (js "four") (db chatty_world) = Some (d', m) /\
    Message_getByChatroom d' 42 3 =
      earlier ++
      [history_row bob {| m_id := 4; m_chatroom_id := 42; m_user_id := 2;
                          m_content := js "four"; m_created_at := 50 |}].
Proof.
  destruct (Message_create 50 42 2 (js "four") (db chatty_world))
    as [[d' m]|] eqn:C; [|vm_compute in C; discriminate].
  assert (F : Forall (fun x => m_chatroom_id x = 42 -> m_created_at x < 50)
                     (messages (db chatty_world))).
  { vm_compute. repeat constructor. }
  destruct (created_message_ends_history (db chatty_world) d' 50 42 2
              (js "four") m bob 3 C eq_refl F) as [earlier [H [I _]]].
  exists d', m, earlier. split; [reflexivity|].
  rewrite H. rewrite I. vm_compute. reflexivity.
Defined.

(* ================================================================== *)
(** ** Message ids *)
(* ================================================================== *)

Lemma sorted_lt_snoc (l : list Z) (x : Z) :
  StronglySorted Z.lt l -> Forall (fun y => y < x) l ->
  StronglySorted Z.lt (l ++ [x]).
Proof.
  induction 1 as [|a l S IH F]; intros G; simpl.
  - constructor; constructor.
  - inversion G; subst. constructor; [apply IH; assumption|].
    apply Forall_app. split; [exact F|]. constructor; [assumption|constructor].
Qed.

Lemma Message_create_ids_ok now R uid content d d' m :
  message_ids_ok d ->
  Message_create now R uid content d = Some (d', m) ->
  message_ids_ok d' /\ cr_id m = messages_auto_increment d /\
  messages d' = messages d ++
                [{| m_id := cr_id m; m_chatroom_id := R; m_user_id := uid;
                    m_content := content; m_created_at := now |}].
Proof.
  intros [S B] C. unfold Message_create in C.
  destruct (chatroom_exists d R && user_exists d uid); [|discriminate].
  inversion C; subst d' m; clear C. simpl. repeat split.
  - simpl. rewrite map_app. simpl. apply sorted_lt_snoc; auto.
    rewrite Forall_forall in *. intros y I. apply in_map_iff in I.
    destruct I as [x [E I]]. subst y. apply B. exact I.
  - simpl. apply Forall_app. split.
    + eapply Forall_impl; [|exact B]. simpl. intros a H. lia.
    + constructor; [simpl; lia|constructor].
Qed.

Lemma db_perform_ids_ok now a d :
  message_ids_ok d -> message_ids_ok (fst (db_perform now a d)).
Proof.
  intros H. destruct a as [c i|c u R|c u R|c u R|c u R|c u R b]; simpl; auto.
  - unfold message_ids_ok.
    destruct (addMember_messages now R (ui_id u) d) as [E _].
    unfold Chatroom_addMember.
    destruct (is_member d R (ui_id u) || negb (chatroom_exists d R)
              || negb (user_exists d (ui_id u))); exact H.
  - destruct (Message_create now R (ui_id u) (trim b) d) as [[d' m]|] eqn:C;
      simpl; auto.
    apply (Message_create_ids_ok now R (ui_id u) (trim b) d d' m H C).
Qed.

Lemma step_ids_ok l w :
  message_ids_ok (db w) -> message_ids_ok (db (fst (step l w))).
Proof.
  intros H. destruct l as [sock ev|n now|n|n clock]; simpl.
  - destruct (start sock ev (server w)) as [[s' out] a]. exact H.
  - destruct (nth_error (tasks w) n) as [[a|r|]|]; simpl; auto.
    pose proof (db_perform_ids_ok now a (db w) H) as K.
    destruct (db_perform now a (db w)). exact K.
  - destruct (nth_error (tasks w) n) as [[a|r|]|]; simpl; auto.
  - destruct (nth_error (tasks w) n) as [[a|r|]|]; simpl; auto.
    destruct (continue clock r (server w)) as [[s' out] a]. exact H.
Qed.

(** Message ids are handed out in the order the inserts run.  If the ids
    in [messages] grow along the table and lie below the AUTO_INCREMENT
    counter, this stays so through every run of the server, whatever
    interleaves: no two messages share an id, and [Message.create] returns
    the counter's value as the id of the row it appends. *)
Theorem message_ids_grow :
  forall (w : World) (ls : list Label),
    message_ids_ok (db w) ->
    message_ids_ok (db (fst (run ls w))) /\
    NoDup (List.map m_id (messages (db (fst (run ls w))))) /\
    (forall now R uid content d' m,
       Message_create now R uid content (db (fst (run ls w))) = Some (d', m) ->
       cr_id m = messages_auto_increment (db (fst (run ls w))) /\
       ~ In (cr_id m) (List.map m_id (messages (db (fst (run ls w))))) /\
       message_ids_ok d').
Proof.
  intros w ls H.
  assert (K : message_ids_ok (db (fst (run ls w)))).
  { revert w H. induction ls as [|l ls IH]; intros w H; simpl; auto.
    pose proof (step_ids_ok l w H) as H1.
    destruct (step l w) as [w1 out1]. specialize (IH w1 H1).
    destruct (run ls w1) as [w2 out2]. exact IH. }
  split; [exact K|]. split.
  - destruct K as [S _]. clear -S.
    induction S as [|a l S IH F]; constructor; auto.
    intros I. rewrite Forall_forall in F. specialize (F a I). lia.
  - intros now R uid content d' m C.
    destruct (Message_create_ids_ok now R uid content _ d' m K C) as [K' [E _]].
    split; [exact E|]. split; [|exact K'].
    rewrite E. destruct K as [_ B]. intros I. apply in_map_iff in I.
    destruct I as [x [Ex I]]. rewrite Forall_forall in B. specialize (B x I). lia.
Qed.

Lemma message_ids_grow_witness :
  message_ids_ok (db lobby_world) /\
  List.map m_id (messages (db chatty_world)) = [1; 2; 3] /\
  message_ids_ok (db chatty_world).
Proof.
  assert (H : message_ids_ok (db lobby_world)).
  { split; vm_compute; constructor. }
  split; [exact H|]. split; [vm_compute; reflexivity|].
  exact (proj1 (message_ids_grow lobby_world
                  (say sockA 42 (js "one") 5 30 ++ say sockB 42 (js " two ") 6 20 ++
                   say sockA 42 (js "three") 7 40) H)).
Defined.

(* ================================================================== *)
(** ** Pinned rooms *)
(* ================================================================== *)

Lemma unpin_not_pinned pins u c :
  is_pinned pins u c = false ->
  List.filter
    (fun p => negb ((p_user_id p =? u) && (p_chatroom_id p =? c))) pins = pins.
Proof.
  unfold is_pinned. induction pins as [|p l IH]; simpl; auto.
  intros H. apply orb_false_iff in H. destruct H as [H1 H2].
  rewrite H1. simpl. rewrite IH; auto.
Qed.

Lemma is_pinned_app pins pins' u c :
  is_pinned (pins ++ pins') u c = is_pinned pins u c || is_pinned pins' u c.
Proof. unfold is_pinned. apply existsb_app. Qed.

Lemma is_pinned_unpin pins u c u' c' :
  is_pinned (fst (Chatroom_unpinChatroom u c pins)) u' c' =
  is_pinned pins u' c' && negb ((u' =? u) && (c' =? c)).
Proof.
  unfold is_pinned. simpl. induction pins as [|p l IH]; simpl; auto.
  destruct ((p_user_id p =? u) && (p_chatroom_id p =? c)) eqn:E; simpl.
  - rewrite IH. apply andb_true_iff in E. destruct E as [E1 E2].
    apply Z.eqb_eq in E1, E2. rewrite E1, E2.
    destruct ((u =? u') && (c =? c')) eqn:E'; simpl.
    + apply andb_true_iff in E'. destruct E' as [E3 E4].
      apply Z.eqb_eq in E3, E4. subst. rewrite !Z.eqb_refl. simpl.
      apply andb_false_r.
    + reflexivity.
  - rewrite IH.
    destruct ((p_user_id p =? u') && (p_chatroom_id p =? c')) eqn:E'; simpl; auto.
    apply andb_true_iff in E'. destruct E' as [E3 E4].
    apply Z.eqb_eq in E3, E4. subst u' c'. rewrite E. reflexivity.
Qed.

Lemma in_getPinned pins u c :
  In c (Chatroom_getPinnedChatrooms u pins) <-> is_pinned pins u c = true.
Proof.
  unfold Chatroom_getPinnedChatrooms, is_pinned.
  rewrite in_map_iff, existsb_exists. split.
  - intros [p [E I]].
    apply (Permutation_in p (Permutation_sym (order_by_perm _ _ _))) in I.
    apply filter_In in I. destruct I as [I F]. exists p. split; auto.
    rewrite F, E, Z.eqb_refl. reflexivity.
  - intros [p [I E]]. apply andb_true_iff in E. destruct E as [E1 E2].
    apply Z.eqb_eq in E2. exists p. split; auto.
    apply (Permutation_in p (order_by_perm _ _ _)).
    apply filter_In. auto.
Qed.

(** Pinning and unpinning a room.  [pinChatroom] pins the room for the
    user when the store knows both (a second pin changes nothing: the
    first pin time stays), [unpinChatroom] removes the pin, neither
    touches any other pin, and unpinning right after a first pin gives the
    table back as it was.  [getPinnedChatrooms] lists exactly the rooms
    pinned by the user. *)
Theorem pin_and_unpin :
  forall (d : Db) (pins : list PinRow) (now now' uid cid : Z),
    let pinned := fst (Chatroom_pinChatroom now uid cid d pins) in
    let unpinned := fst (Chatroom_unpinChatroom uid cid pinned) in
    is_pinned pinned uid cid =
      is_pinned pins uid cid || (user_exists d uid && chatroom_exists d cid) /\
    fst (Chatroom_pinChatroom now' uid cid d pinned) = pinned /\
    is_pinned unpinned uid cid = false /\
    (forall u c, (u, c) <> (uid, cid) ->
       is_pinned pinned u c = is_pinned pins u c /\
       is_pinned unpinned u c = is_pinned pins u c) /\
    (is_pinned pins uid cid = false -> unpinned = pins) /\
    (forall u c table,
       In c (Chatroom_getPinnedChatrooms u table) <-> is_pinned table u c = true).
Proof.
  intros d pins now now' uid cid pinned unpinned.
  assert (N : forall u c, (u, c) <> (uid, cid) -> (u =? uid) && (c =? cid) = false).
  { intros u c ne. destruct ((u =? uid) && (c =? cid)) eqn:E; auto.
    apply andb_true_iff in E. destruct E as [E1 E2].
    apply Z.eqb_eq in E1, E2. subst. congruence. }
  assert (P : forall u c,
            is_pinned pinned u c =
            is_pinned pins u c ||
            (negb (is_pinned pins uid cid) && user_exists d uid
             && chatroom_exists d cid && (uid =? u) && (cid =? c))).
  { intros u c. unfold pinned. simpl.
    destruct (is_pinned pins uid cid) eqn:M; simpl; [rewrite orb_false_r; auto|].
    destruct (user_exists d uid); simpl; [|rewrite orb_false_r; auto].
    destruct (chatroom_exists d cid); simpl; [|rewrite orb_false_r; auto].
    rewrite is_pinned_app. unfold is_pinned at 2. simpl.
    rewrite orb_false_r. reflexivity. }
  split; [|split; [|split; [|split; [|split]]]].
  - rewrite P, !Z.eqb_refl. destruct (is_pinned pins uid cid); simpl; auto.
    rewrite !andb_true_r. reflexivity.
  - unfold Chatroom_pinChatroom at 1. simpl.
    destruct (is_pinned pinned uid cid) eqn:M; simpl; auto.
    rewrite P, !Z.eqb_refl, !andb_true_r in M.
    apply orb_false_iff in M. destruct M as [M1 M2]. rewrite M1 in M2.
    simpl in M2.
    destruct (user_exists d uid); destruct (chatroom_exists d cid);
      simpl in *; try reflexivity; discriminate.
  - unfold unpinned. rewrite is_pinned_unpin, !Z.eqb_refl. apply andb_false_r.
  - intros u c ne. pose proof (N u c ne) as E. split.
    + rewrite P.
      assert (E' : (uid =? u) && (cid =? c) = false).
      { rewrite (Z.eqb_sym uid u), (Z.eqb_sym cid c). exact E. }
      rewrite <- !andb_assoc, E', !andb_false_r. apply orb_false_r.
    + unfold unpinned. rewrite is_pinned_unpin, E. simpl. rewrite andb_true_r.
      rewrite P.
      assert (E' : (uid =? u) && (cid =? c) = false).
      { rewrite (Z.eqb_sym uid u), (Z.eqb_sym cid c). exact E. }
      rewrite <- !andb_assoc, E', !andb_false_r. apply orb_false_r.
  - intros M. unfold unpinned, pinned. simpl. rewrite M. simpl.
    destruct (negb (user_exists d uid) || negb (chatroom_exists d cid)).
    + apply unpin_not_pinned. exact M.
    + rewrite filter_app. simpl. rewrite !Z.eqb_refl. simpl.
      rewrite app_nil_r. apply unpin_not_pinned. exact M.
  - intros u c table. apply in_getPinned.
Qed.

Lemma pin_and_unpin_witness :
  let pinned := fst (Chatroom_pinChatroom 5 1 42 demo_db []) in
  Chatroom_getPinnedChatrooms 1 pinned = [42] /\
  fst (Chatroom_unpinChatroom 1 42 pinned) = [].
Proof.
  cbv zeta.
  destruct (pin_and_unpin demo_db [] 5 5 1 42) as [_ [_ [_ [_ [H _]]]]].
  split; [vm_compute; reflexivity|]. apply H. reflexivity.
Defined.


(* ================================================================== *)
(** ** Default avatars *)
(* ================================================================== *)

Lemma toInt32_range z : - 2 ^ 31 <= toInt32 z < 2 ^ 31.
Proof.
  unfold toInt32.
  pose proof (Z.mod_pos_bound (z + 2 ^ 31) (2 ^ 32) ltac:(lia)). lia.
Qed.

Lemma toInt32_shift z : exists k, toInt32 z = z - k * 2 ^ 32.
Proof.
  unfold toInt32. exists ((z + 2 ^ 31) / 2 ^ 32).
  pose proof (Z.div_mod (z + 2 ^ 31) (2 ^ 32) ltac:(lia)). lia.
Qed.

Lemma toInt32_unique z x k :
  - 2 ^ 31 <= x < 2 ^ 31 -> x = z - k * 2 ^ 32 -> toInt32 z = x.
Proof.
  intros R E. unfold toInt32.
  replace (z + 2 ^ 31) with ((x + 2 ^ 31) + k * 2 ^ 32) by lia.
  rewrite Z.mod_add by lia. rewrite Z.mod_small by lia. lia.
Qed.

Lemma hash_step_poly h c :
  hash_step (toInt32 h) c = toInt32 (31 * h + Z.of_N c).
Proof.
  unfold hash_step.
  destruct (toInt32_shift h) as [k1 E1].
  destruct (toInt32_shift (toInt32 h * 32)) as [k2 E2].
  destruct (toInt32_shift (toInt32 (toInt32 h * 32) - toInt32 h + Z.of_N c))
    as [k3 E3].
  symmetry. apply (toInt32_unique _ _ (31 * k1 + k2 + k3)).
  - apply toInt32_range.
  - rewrite E3, E2, E1. ring.
Qed.

Lemma avatar_hash_fold s : forall h,
  fold_left hash_step s (toInt32 h) =
  toInt32 (fold_left (fun h c => 31 * h + Z.of_N c) s h).
Proof.
  induction s as [|c s IH]; intros h; simpl; auto.
  rewrite hash_step_poly. apply IH.
Qed.

Lemma nth_in_or_default (A : Type) (n : nat) (l : list A) (d : A) :
  (n < List.length l)%nat -> In (nth n l d) l.
Proof. intros H. apply nth_In. exact H. Qed.

(** Both indices are within their tables. *)
Lemma avatar_hash_is_polynomial_hash_aux (s : jsstring) :
  In (nth (colorIndex s) colors (js "undefined")) colors /\
  In (nth (styleIndex s) styles (js "undefined")) styles.
Proof.
  split.
  - apply nth_In. unfold colorIndex. simpl List.length.
    pose proof (Z.mod_pos_bound (Z.abs (avatar_hash s)) 8 ltac:(lia)).
    change (Z.of_nat 8) with 8. simpl. lia.
  - apply nth_In. unfold styleIndex. simpl List.length.
    pose proof (Z.mod_pos_bound (Z.abs (Z.shiftr (avatar_hash s) 8)) 4
                  ltac:(lia)).
    change (Z.of_nat 4) with 4. simpl. lia.
Qed.

(** The loop of [generateDefaultAvatar] computes the 32-bit hash of
    Java's [String.hashCode]: the polynomial in 31 over the code units, cut
    to a signed 32-bit integer.  The two indices it derives are within the
    tables, so a colour and a style are always found. *)
Theorem avatar_hash_is_polynomial_hash :
  forall nickname : jsstring,
    avatar_hash nickname = toInt32 (polynomial_hash nickname) /\
    - 2 ^ 31 <= avatar_hash nickname < 2 ^ 31 /\
    In (nth (colorIndex nickname) colors (js "undefined")) colors /\
    In (nth (styleIndex nickname) styles (js "undefined")) styles.
Proof.
  intros s.
  assert (E : avatar_hash s = toInt32 (polynomial_hash s)).
  { unfold avatar_hash, polynomial_hash.
    change 0 with (toInt32 0) at 1. apply avatar_hash_fold. }
  split; [exact E|]. split; [rewrite E; apply toInt32_range|].
  apply avatar_hash_is_polynomial_hash_aux.
Qed.

(** From here on [lia] also reasons about division by a constant. *)
#[local] Ltac Zify.zify_post_hook ::= Z.to_euclidean_division_equations.

Lemma hex_digit_unescaped k : (k < 16)%N -> is_unescaped (hex_digit k) = true.
Proof.
  intros H.
  assert (A : forallb (fun n => is_unescaped (hex_digit n))
                      (List.map N.of_nat (seq 0 16)) = true) by reflexivity.
  rewrite forallb_forall in A. apply A. apply in_map_iff.
  exists (N.to_nat k). split; [apply N2Nat.id|]. apply in_seq. lia.
Qed.

Lemma unescaped_url_char c : is_unescaped c = true -> is_url_char c = true.
Proof. intros H. unfold is_url_char. rewrite H. reflexivity. Qed.

Lemma percent_octet_chars b :
  (b < 256)%N -> forallb is_url_char (percent_octet b) = true.
Proof.
  intros H. unfold percent_octet. cbn [forallb].
  assert (H1 : (b / 16 < 16)%N) by lia.
  assert (H2 : (b mod 16 < 16)%N) by lia.
  rewrite (unescaped_url_char _ (hex_digit_unescaped _ H1)).
  rewrite (unescaped_url_char _ (hex_digit_unescaped _ H2)).
  reflexivity.
Qed.

Lemma utf8_octets cp :
  (cp < 1114112)%N ->
  Forall (fun b => (b < 256)%N) (utf8 cp) /\
  (List.length (utf8 cp) <= 4)%nat /\
  ((cp < 65536)%N -> (List.length (utf8 cp) <= 3)%nat).
Proof.
  intros H. unfold utf8.
  destruct (N.ltb_spec cp 128); [|destruct (N.ltb_spec cp 2048);
    [|destruct (N.ltb_spec cp 65536)]]; cbn [List.length];
    (split; [repeat (apply Forall_cons; [lia|]); apply Forall_nil
            |split; lia]).
Qed.

Lemma percent_encode_ok cp :
  (cp < 1114112)%N ->
  forallb is_url_char (percent_encode cp) = true /\
  (List.length (percent_encode cp) <= 12)%nat /\
  ((cp < 65536)%N -> (List.length (percent_encode cp) <= 9)%nat).
Proof.
  intros H. destruct (utf8_octets cp H) as [F [L4 L3]]. unfold percent_encode.
  assert (Len : List.length (flat_map percent_octet (utf8 cp)) =
                (3 * List.length (utf8 cp))%nat).
  { clear. induction (utf8 cp) as [|b l IH]; simpl; auto. rewrite IH. lia. }
  split; [|split].
  - clear L4 L3 Len. induction F as [|b l Hb F IH]; [reflexivity|].
    cbn [flat_map]. rewrite forallb_app, IH, percent_octet_chars by exact Hb.
    reflexivity.
  - rewrite Len. lia.
  - intros S. specialize (L3 S). rewrite Len. lia.
Qed.

Lemma surrogate_pair_range lead trail :
  is_lead_surrogate lead = true -> is_trail_surrogate trail = true ->
  (surrogate_pair lead trail < 1114112)%N.
Proof.
  unfold is_lead_surrogate, is_trail_surrogate, surrogate_pair.
  intros H1 H2. apply andb_true_iff in H1, H2.
  destruct H1 as [A B], H2 as [C D].
  apply N.leb_le in A, B, C, D. lia.
Qed.

(** What [encodeURIComponent] returns is made of URL characters and is at
    most nine times as long as its argument. *)
Lemma encodeURIComponent_ok n : forall s out,
  (List.length s <= n)%nat ->
  Forall (fun c => (c < 65536)%N) s ->
  encodeURIComponent s = Some out ->
  forallb is_url_char out = true /\
  (List.length out <= 9 * List.length s)%nat.
Proof.
  induction n as [|n IH]; intros s out L F E.
  - destruct s; [|simpl in L; lia]. inversion E; subst. split; auto.
  - destruct s as [|c rest]; [inversion E; subst; split; auto|].
    inversion F as [|? ? Hc F']; subst. simpl in L, E.
    destruct (is_unescaped c) eqn:U.
    + destruct (encodeURIComponent rest) as [o|] eqn:R; [|discriminate].
      inversion E; subst. destruct (IH rest o ltac:(lia) F' R) as [A B].
      simpl. rewrite (unescaped_url_char c U), A. split; [reflexivity|lia].
    + destruct (is_lead_surrogate c) eqn:Ld.
      * destruct rest as [|c2 rest']; [discriminate|].
        destruct (is_trail_surrogate c2) eqn:Tr; [|discriminate].
        destruct (encodeURIComponent rest') as [o|] eqn:R; [|discriminate].
        inversion E; subst. inversion F' as [|? ? Hc2 F'']; subst.
        simpl in L. destruct (IH rest' o ltac:(lia) F'' R) as [A B].
        destruct (percent_encode_ok (surrogate_pair c c2)
                    (surrogate_pair_range c c2 Ld Tr)) as [P1 [P2 _]].
        rewrite forallb_app, P1, A, length_app. simpl. split; [reflexivity|lia].
      * destruct (is_trail_surrogate c); [discriminate|].
        destruct (encodeURIComponent rest) as [o|] eqn:R; [|discriminate].
        inversion E; subst. destruct (IH rest o ltac:(lia) F' R) as [A B].
        destruct (percent_encode_ok c ltac:(lia)) as [P1 [_ P3]].
        specialize (P3 Hc).
        rewrite forallb_app, P1, A, length_app. simpl. split; [reflexivity|lia].
Qed.

Lemma encodeURIComponent_no_surrogates s :
  forallb (fun c => negb (is_lead_surrogate c || is_trail_surrogate c)) s = true ->
  encodeURIComponent s <> None.
Proof.
  induction s as [|c rest IH]; simpl; [discriminate|].
  intros H. apply andb_true_iff in H. destruct H as [H1 H2].
  apply negb_true_iff, orb_false_iff in H1. destruct H1 as [L T].
  rewrite L, T. specialize (IH H2).
  destruct (encodeURIComponent rest); [|congruence].
  destruct (is_unescaped c); discriminate.
Qed.

(** The URL [generateDefaultAvatar] builds.  For a nickname without
    surrogates it always builds one; it throws only on a surrogate without
    its partner.  The URL is made of unreserved characters, [%] and the
    template's [: / ? = &] only, and is at most 72 code units plus nine
    per code unit of the nickname long: at most 252 for a nickname that
    passed the registration check, which fits the 255 of the [avatar]
    column. *)
Theorem default_avatar_url_is_safe_and_short :
  forall nickname : jsstring,
    Forall (fun c => (c < 65536)%N) nickname ->
    (forallb (fun c => negb (is_lead_surrogate c || is_trail_surrogate c))
             nickname = true ->
     generateDefaultAvatar nickname <> None) /\
    (forall url,
       generateDefaultAvatar nickname = Some url ->
       forallb is_url_char url = true /\
       (List.length url <= 72 + 9 * List.length nickname)%nat /\
       ((List.length nickname <= 20)%nat -> (List.length url <= 255)%nat)).
Proof.
  intros s F. split.
  - intros H. unfold generateDefaultAvatar.
    pose proof (encodeURIComponent_no_surrogates s H) as N.
    destruct (encodeURIComponent s); [discriminate|congruence].
  - intros url G. unfold generateDefaultAvatar in G.
    destruct (encodeURIComponent s) as [seed|] eqn:E; [|discriminate].
    assert (Eu : url =
                 js "https://api.dicebear.com/7.x/" ++
                 nth (styleIndex s) styles (js "undefined") ++
                 js "/svg?seed=" ++ seed ++ js "&backgroundColor=" ++
                 nth (colorIndex s) colors (js "undefined")) by congruence.
    clear G. subst url.
    destruct (encodeURIComponent_ok (List.length s) s seed (le_n _) F E) as [A B].
    destruct (avatar_hash_is_polynomial_hash_aux s) as [Ic Is].
    assert (C : forallb is_url_char (nth (colorIndex s) colors (js "undefined")) = true
                /\ List.length (nth (colorIndex s) colors (js "undefined")) = 6%nat).
    { revert Ic. generalize (nth (colorIndex s) colors (js "undefined")).
      intros c I. simpl in I.
      repeat (destruct I as [I|I]; [subst c; split; reflexivity|]). destruct I. }
    assert (S : forallb is_url_char (nth (styleIndex s) styles (js "undefined")) = true
                /\ (List.length (nth (styleIndex s) styles (js "undefined")) <= 10)%nat).
    { revert Is. generalize (nth (styleIndex s) styles (js "undefined")).
      intros c I. simpl in I.
      repeat (destruct I as [I|I];
              [subst c; split; [reflexivity|simpl; lia]|]). destruct I. }
    destruct C as [C1 C2], S as [S1 S2].
    assert (Len : (List.length
                     (js "https://api.dicebear.com/7.x/" ++
                      nth (styleIndex s) styles (js "undefined") ++
                      js "/svg?seed=" ++ seed ++ js "&backgroundColor=" ++
                      nth (colorIndex s) colors (js "undefined"))
                   <= 72 + 9 * List.length s)%nat).
    { rewrite !length_app, C2.
      change (List.length (js "https://api.dicebear.com/7.x/")) with 29%nat.
      change (List.length (js "/svg?seed=")) with 10%nat.
      change (List.length (js "&backgroundColor=")) with 17%nat. lia. }
    split; [|split; [exact Len|intros L; lia]].
    rewrite !forallb_app, S1, A, C1. reflexivity.
Qed.

Lemma default_avatar_url_is_safe_and_short_witness :
  let url := js "https://api.dicebear.com/7.x/personas/svg?seed=Al%20ice&backgroundColor=be185d" in
  generateDefaultAvatar (js "Al ice") = Some url /\
  forallb is_url_char url = true /\
  generateDefaultAvatar [55357%N] = None.
Proof.
  cbv zeta.
  assert (F : Forall (fun c => (c < 65536)%N) (js "Al ice"))
    by (repeat constructor).
  assert (E : generateDefaultAvatar (js "Al ice") =
              Some (js "https://api.dicebear.com/7.x/personas/svg?seed=Al%20ice&backgroundColor=be185d"))
    by (vm_compute; reflexivity).
  destruct (default_avatar_url_is_safe_and_short (js "Al ice") F) as [_ H].
  split; [exact E|]. split; [exact (proj1 (H _ E))|vm_compute; reflexivity].
Defined.

(* ================================================================== *)
(** ** Registration and login *)
(* ================================================================== *)

Section AuthFacts.
Variable bcrypt_hash : jsstring -> jsstring -> jsstring.
Variable bcrypt_compare : jsstring -> jsstring -> bool.
Variable same_username : jsstring -> jsstring -> bool.

Lemma find_none_existsb (t : UsersTable) username :
  User_findByUsername same_username t username = None ->
  existsb (fun a => same_username (u_username (a_user a)) username) (accounts t)
  = false.
Proof.
  unfold User_findByUsername.
  induction (accounts t) as [|a l IH]; simpl; auto.
  destruct (same_username (u_username (a_user a)) username);
    [discriminate|exact IH].
Qed.

Lemma register_checks_pass data :
  register_checks None data = None <->
  (3 <= List.length (r_username data) <= 20)%nat /\
  (6 <= List.length (r_password data))%nat /\
  (2 <= List.length (r_nickname data) <= 20)%nat.
Proof.
  unfold register_checks, is_empty.
  destruct (r_username data) as [|u0 ul] eqn:Eu;
    destruct (r_password data) as [|p0 pl] eqn:Ep;
    destruct (r_nickname data) as [|n0 nl] eqn:En;
    cbn [orb List.length];
    try (split; [discriminate|intros [? [? ?]]; simpl in *; lia]).
  destruct (Nat.ltb_spec (S (List.length ul)) 3);
    [simpl; split; [discriminate|lia]|].
  destruct (Nat.ltb_spec 20 (S (List.length ul)));
    [simpl; split; [discriminate|lia]|].
  destruct (Nat.ltb_spec (S (List.length pl)) 6);
    [simpl; split; [discriminate|lia]|].
  destruct (Nat.ltb_spec (S (List.length nl)) 2);
    [simpl; split; [discriminate|lia]|].
  destruct (Nat.ltb_spec 20 (S (List.length nl)));
    simpl; split; try discriminate; try lia; auto.
Qed.

(** [registerUser] succeeds exactly when the username is not taken, the
    username has 3 to 20 code units, the password at least 6, the
    nickname 2 to 20, the nickname's default avatar can be built, and the
    store takes the row.  It then appends one account, with the next id,
    the hashed password, the email (an empty one as NULL) and the default
    avatar, and returns that user without the password. *)
Theorem registerUser_succeeds_iff :
  forall (salt : jsstring) (now : Z) (accepted : bool) (data : RegisterData)
         (t t' : UsersTable) (user : UserInfo),
    registerUser bcrypt_hash same_username salt now accepted data t
      = Ok (t', user) <->
    User_findByUsername same_username t (r_username data) = None /\
    (3 <= List.length (r_username data) <= 20)%nat /\
    (6 <= List.length (r_password data))%nat /\
    (2 <= List.length (r_nickname data) <= 20)%nat /\
    accepted = true /\
    exists avatar,
      generateDefaultAvatar (r_nickname data) = Some avatar /\
      user = {| ui_id := users_auto_increment t;
                ui_nickname := r_nickname data;
                ui_username := r_username data;
                ui_email := or_null (r_email data);
                ui_avatar := Some avatar |} /\
      t' = {| accounts :=
                accounts t ++
                [{| a_user :=
                      {| u_id := users_auto_increment t;
                         u_username := r_username data;
                         u_nickname := r_nickname data;
                         u_email := or_null (r_email data);
                         u_avatar := Some avatar;
                         u_created_at := now;
                         u_last_login := None |};
                    a_password := bcrypt_hash salt (r_password data) |}];
              users_auto_increment := users_auto_increment t + 1 |}.
Proof.
  intros salt now accepted data t t' user. unfold registerUser. split.
  - destruct (User_findByUsername same_username t (r_username data))
      as [a|] eqn:Fd; [simpl; discriminate|].
    destruct (register_checks None data) as [m|] eqn:Ck; [discriminate|].
    apply register_checks_pass in Ck. destruct Ck as [C1 [C2 C3]].
    destruct (generateDefaultAvatar (r_nickname data)) as [avatar|] eqn:G;
      [|discriminate].
    unfold User_create. rewrite (find_none_existsb t _ Fd).
    destruct accepted; simpl; [|discriminate].
    intros H. inversion H; subst. repeat split; try lia.
    exists avatar. repeat split.
  - intros [Fd [C1 [C2 [C3 [A [avatar [G [Eu Et]]]]]]]].
    rewrite Fd.
    assert (Ck : register_checks None data = None)
      by (apply register_checks_pass; auto).
    rewrite Ck, G. unfold User_create. rewrite (find_none_existsb t _ Fd), A.
    simpl. subst. reflexivity.
Qed.

(** [User.updateLastLogin] sets [last_login] of the rows with the given
    id and leaves everything else of the table as it is. *)
Lemma updateLastLogin_rows now id (l : list Account) :
  Forall2 (fun a a' =>
             same_but_last_login a a' /\
             u_last_login (a_user a') =
               if u_id (a_user a) =? id then Some now
               else u_last_login (a_user a))
          l (accounts (User_updateLastLogin now id
                         {| accounts := l; users_auto_increment := 0 |})).
Proof.
  simpl. induction l as [|a l IH]; simpl; constructor; [|exact IH].
  destruct (u_id (a_user a) =? id); simpl; unfold same_but_last_login;
    simpl; repeat split; reflexivity.
Qed.

Lemma find_updateLastLogin now id (t : UsersTable) username :
  User_findByUsername same_username (User_updateLastLogin now id t) username =
  option_map
    (fun a =>
       if u_id (a_user a) =? id
       then {| a_user :=
                 {| u_id := u_id (a_user a);
                    u_username := u_username (a_user a);
                    u_nickname := u_nickname (a_user a);
                    u_email := u_email (a_user a);
                    u_avatar := u_avatar (a_user a);
                    u_created_at := u_created_at (a_user a);
                    u_last_login := Some now |};
               a_password := a_password a |}
       else a)
    (User_findByUsername same_username t username).
Proof.
  unfold User_findByUsername, User_updateLastLogin. simpl.
  induction (accounts t) as [|a l IH]; simpl; [reflexivity|].
  destruct (u_id (a_user a) =? id) eqn:E; simpl;
    destruct (same_username (u_username (a_user a)) username); simpl;
    try exact IH; rewrite ?E; reflexivity.
Qed.

(** A failed login with a username and a password that are not empty
    always ends with the same error, whether the username is unknown or
    the password is wrong.  A login succeeds exactly when the first account
    the store finds for the username has a hash that [bcrypt.compare]
    accepts.  It then returns that account without the password, and the
    table it leaves differs from the one it found only in [last_login],
    which is now the time of the login for the rows with the id of that
    account and what it was for every other row: a lookup of the username
    afterwards finds the account with the new [last_login]. *)
Theorem loginUser_failure_is_uniform :
  forall (now : Z) (username password : jsstring) (t : UsersTable),
    username <> [] -> password <> [] ->
    (forall f, loginUser bcrypt_compare same_username now username password t
               = Fails f ->
               f = ErrorThrown msg_bad_credentials) /\
    ((exists t' user,
        loginUser bcrypt_compare same_username now username password t
          = Ok (t', user)) <->
     exists a, User_findByUsername same_username t username = Some a /\
               bcrypt_compare password (a_password a) = true) /\
    (forall t' user,
       loginUser bcrypt_compare same_username now username password t
         = Ok (t', user) ->
       (exists a, User_findByUsername same_username t username = Some a /\
                  user = account_info (a_user a)) /\
       users_auto_increment t' = users_auto_increment t /\
       Forall2 (fun a a' =>
                  same_but_last_login a a' /\
                  u_last_login (a_user a') =
                    if u_id (a_user a) =? ui_id user then Some now
                    else u_last_login (a_user a))
               (accounts t) (accounts t') /\
       exists a', User_findByUsername same_username t' username = Some a' /\
                  u_last_login (a_user a') = Some now /\
                  account_info (a_user a') = user /\
                  bcrypt_compare password (a_password a') = true).
Proof.
  intros now username password t Hu Hp. unfold loginUser.
  destruct username as [|u0 ul]; [congruence|].
  destruct password as [|p0 pl]; [congruence|]. cbn [is_empty orb].
  destruct (User_findByUsername same_username t (u0 :: ul)) as [a|] eqn:Fd.
  - destruct (bcrypt_compare (p0 :: pl) (a_password a)) eqn:C;
      (split; [|split]).
    + intros f H. discriminate.
    + split; [intros _; exists a; auto|]. intros _. eexists. eexists.
      reflexivity.
    + intros t' user H. inversion H; subst; clear H.
      split; [exists a; auto|]. split; [reflexivity|]. split.
      * apply (updateLastLogin_rows now (u_id (a_user a)) (accounts t)).
      * rewrite find_updateLastLogin, Fd. simpl.
        rewrite Z.eqb_refl. simpl. eexists. split; [reflexivity|].
        simpl. split; [reflexivity|]. split; [reflexivity|exact C].
    + intros f H. inversion H. reflexivity.
    + split; [intros [t' [user H]]; discriminate|].
      intros [a' [E C']]. inversion E; subst. congruence.
    + intros t' user H. discriminate.
  - split; [|split].
    + intros f H. inversion H. reflexivity.
    + split; [intros [t' [user H]]; discriminate|].
      intros [a' [E _]]. discriminate.
    + intros t' user H. discriminate.
Qed.

Hypothesis same_username_refl : forall a, same_username a a = true.
Hypothesis bcrypt_accepts_own_hash :
  forall salt password, bcrypt_compare password (bcrypt_hash salt password) = true.

Lemma find_app_new (l : list Account) (x : Account) username :
  List.find (fun a => same_username (u_username (a_user a)) username) l = None ->
  same_username (u_username (a_user x)) username = true ->
  List.find (fun a => same_username (u_username (a_user a)) username) (l ++ [x])
  = Some x.
Proof.
  induction l as [|a l IH]; simpl; intros N S.
  - rewrite S. reflexivity.
  - destruct (same_username (u_username (a_user a)) username);
      [discriminate|apply IH; assumption].
Qed.

(** Register, then log in.  If the store takes a username for equal to
    itself and [bcrypt.compare] accepts a password against its own hash,
    then after a successful registration a login with the same username
    and password succeeds and returns the very user the registration
    returned. *)
Theorem register_then_login :
  forall (salt : jsstring) (now now' : Z) (accepted : bool) (data : RegisterData)
         (t t1 : UsersTable) (user : UserInfo),
    registerUser bcrypt_hash same_username salt now accepted data t
      = Ok (t1, user) ->
    loginUser bcrypt_compare same_username now' (r_username data)
              (r_password data) t1
      = Ok (User_updateLastLogin now' (ui_id user) t1, user).
Proof.
  intros salt now now' accepted data t t1 user R.
  unfold registerUser in R.
  destruct (User_findByUsername same_username t (r_username data))
    as [a|] eqn:Fd; [simpl in R; discriminate|].
  destruct (register_checks None data) as [m|] eqn:Ck; [discriminate|].
  apply register_checks_pass in Ck. destruct Ck as [C1 [C2 C3]].
  destruct (generateDefaultAvatar (r_nickname data)) as [avatar|];
    [|discriminate].
  unfold User_create in R. rewrite (find_none_existsb t _ Fd) in R.
  destruct accepted; simpl in R; [|discriminate].
  inversion R; subst; clear R.
  unfold loginUser.
  destruct (r_username data) as [|u0 ul] eqn:En; [simpl in C1; lia|].
  destruct (r_password data) as [|p0 pl] eqn:Ep; [simpl in C2; lia|].
  cbn [is_empty orb]. unfold User_findByUsername in *. cbn [accounts].
  rewrite (find_app_new _ _ _ Fd) by (apply same_username_refl).
  cbn [a_password a_user u_id ui_id]. rewrite bcrypt_accepts_own_hash.
  reflexivity.
Qed.

End AuthFacts.

Lemma same_units_refl a : same_units a a = true.
Proof. unfold same_units. destruct (jsstring_eq_dec a a); congruence. Qed.

Lemma registerUser_succeeds_iff_witness :
  let data := {| r_username := js "dave"; r_password := js "secret1";
                 r_nickname := js "Dave"; r_email := Some [] |} in
  let t := {| accounts := []; users_auto_increment := 1 |} in
  exists t' avatar,
    registerUser (fun salt p => salt ++ p) same_units (js "$2a$") 7 true data t
      = Ok (t', {| ui_id := 1; ui_nickname := js "Dave";
                   ui_username := js "dave"; ui_email := None;
                   ui_avatar := Some avatar |}).
Proof.
  cbv zeta. eexists. eexists.
  apply (registerUser_succeeds_iff (fun salt p => salt ++ p) same_units).
  split; [reflexivity|]. split; [simpl; lia|]. split; [simpl; lia|].
  split; [simpl; lia|]. split; [reflexivity|].
  eexists. split; [vm_compute; reflexivity|]. split; reflexivity.
Defined.

Lemma loginUser_failure_is_uniform_witness :
  let t := {| accounts :=
                [{| a_user := alice; a_password := js "secret" |};
                 {| a_user := bob; a_password := js "hunter2" |}];
              users_auto_increment := 3 |} in
  loginUser same_units same_units 9 (js "alice") (js "guess") t
    = Fails (ErrorThrown msg_bad_credentials) /\
  loginUser same_units same_units 9 (js "nobody") (js "guess") t
    = Fails (ErrorThrown msg_bad_credentials) /\
  exists t' user,
    loginUser same_units same_units 9 (js "bob") (js "hunter2") t
      = Ok (t', user) /\
    List.map (fun a => u_last_login (a_user a)) (accounts t) = [None; None] /\
    List.map (fun a => u_last_login (a_user a)) (accounts t')
      = [None; Some 9] /\
    exists a', User_findByUsername same_units t' (js "bob") = Some a' /\
               u_last_login (a_user a') = Some 9.
Proof.
  intros t. split; [|split].
  - destruct (loginUser same_units same_units 9 (js "alice") (js "guess") t)
      as [[t' u]|f] eqn:E.
    + vm_compute in E. discriminate.
    + f_equal.
      apply (proj1 (loginUser_failure_is_uniform same_units same_units 9
                      (js "alice") (js "guess") t
                      ltac:(discriminate) ltac:(discriminate)) f E).
  - vm_compute. reflexivity.
  - destruct (loginUser same_units same_units 9 (js "bob") (js "hunter2") t)
      as [[t' user]|f] eqn:E; [|vm_compute in E; discriminate].
    exists t', user. split; [reflexivity|]. split; [reflexivity|].
    destruct (proj2 (proj2 (loginUser_failure_is_uniform same_units same_units
                              9 (js "bob") (js "hunter2") t
                              ltac:(discriminate) ltac:(discriminate)))
                t' user E) as [_ [_ [_ [a' [F [L _]]]]]].
    split; [|exists a'; split; assumption].
    vm_compute in E. inversion E. reflexivity.
Defined.

Lemma register_then_login_witness :
  let data := {| r_username := js "dave"; r_password := js "secret1";
                 r_nickname := js "Dave"; r_email := None |} in
  let t := {| accounts := []; users_auto_increment := 1 |} in
  exists t1 user,
    registerUser (fun salt p => p) same_units (js "salt") 7 true data t
      = Ok (t1, user) /\
    loginUser same_units same_units 8 (js "dave") (js "secret1") t1
      = Ok (User_updateLastLogin 8 (ui_id user) t1, user).
Proof.
  cbv zeta.
  destruct (registerUser (fun salt p => p) same_units (js "salt") 7 true
              {| r_username := js "dave"; r_password := js "secret1";
                 r_nickname := js "Dave"; r_email := None |}
              {| accounts := []; users_auto_increment := 1 |})
    as [[t1 user]|f] eqn:R; [|vm_compute in R; discriminate].
  exists t1, user. split; [reflexivity|].
  apply (register_then_login (fun salt p => p) same_units same_units
           same_units_refl (fun salt p => same_units_refl p)
           (js "salt") 7 8 true _ _ t1 user R).
Defined.


(* ================================================================== *)
(** ** The client's typing signal, and the server's view of it *)
(* ================================================================== *)

Lemma typing_flags_app out out' :
  typing_flags (out ++ out') = typing_flags out ++ typing_flags out'.
Proof. unfold typing_flags. apply flat_map_app. Qed.

(** A step of the client emits a typing signal exactly when it changes
    [isTyping], and the signal carries the new value. *)
Lemma ui_step_flags now e c :
  typing_flags (snd (ui_step now e c)) =
    if Bool.eqb (isTyping (fst (ui_step now e c))) (isTyping c) then []
    else [isTyping (fst (ui_step now e c))].
Proof.
  destruct c as [[room|] [|] t]; destruct e as [| |value| | |room']; simpl;
    unfold handleTyping, typing_timer, sendMessage, leaveCurrentRoom,
      showChatroomList, stopTyping; simpl; try reflexivity;
    try (destruct t as [due|]; [destruct (due <=? now)|]; reflexivity);
    try (destruct (is_empty (trim value)); reflexivity).
Qed.

(** The typing signals of the client take turns.  Whatever happens at
    the client, the [isTyping] flags it emits
    alternate, and the first one is the opposite of the [isTyping] field
    it starts with; a client that starts fresh sends [true] first and
    never sends the same flag twice in a row. *)
Theorem client_typing_signals_alternate :
  forall (es : list (Z * UiEvent)) (c : ChatRoom),
    alternating (negb (isTyping c)) (typing_flags (snd (ui_run es c))) /\
    alternating true (typing_flags (snd (ui_run es new_client))).
Proof.
  assert (G : forall es c,
             alternating (negb (isTyping c)) (typing_flags (snd (ui_run es c)))).
  { induction es as [|[now e] es IH]; intros c; simpl; [exact I|].
    pose proof (ui_step_flags now e c) as F.
    destruct (ui_step now e c) as [c1 out1]. specialize (IH c1).
    destruct (ui_run es c1) as [c2 out2]. simpl in *.
    rewrite typing_flags_app, F.
    destruct (isTyping c1), (isTyping c); simpl in *; auto. }
  intros es c. split; [apply G|apply (G es new_client)].
Qed.





(* ------------------------------------------------------------------ *)
(** *** The server's entry follows the signals of the socket *)
(* ------------------------------------------------------------------ *)

Lemma step_client_server c ev w :
  server (fst (step (Client c ev) w)) = fst (fst (start c ev (server w))).
Proof. simpl. destruct (start c ev (server w)) as [[s' out] a]. reflexivity. Qed.

Lemma start_typingUsers c ev s :
  match ev with Typing _ _ => False | Disconnect => False | _ => True end ->
  typingUsers (fst (fst (start c ev s))) = typingUsers s.
Proof.
  destruct ev as [|id|R|R content|R b|R|]; simpl; intros H;
    try contradiction; auto.
  - unfold joinRoom_start. destruct (socket_user s c); reflexivity.
  - unfold message_start.
    destruct (socket_user s c); [destruct (blank content)|]; reflexivity.
  - pose proof (on_leaveRoom_typingUsers c R s) as K.
    destruct (on_leaveRoom c R s) as [s' out]. exact K.
Qed.

Lemma on_typing_other_entry c R' b s sock R :
  c <> sock ->
  typing_entry (fst (on_typing c R' b s)) R sock = typing_entry s R sock.
Proof.
  intros ne. unfold on_typing. destruct (socket_user s c); simpl; auto.
  unfold typing_entry. destruct (Z.eq_dec R' R) as [e|ne'].
  - subst R'. rewrite room_typing_set. destruct b.
    + unfold JsMap.has. rewrite get_set_ne by exact ne. reflexivity.
    + apply has_delete_other. exact ne.
  - rewrite room_typing_set_ne by exact ne'. reflexivity.
Qed.

Lemma on_typing_own_entry sock R' b s user R :
  socket_user s sock = Some user ->
  typing_entry (fst (on_typing sock R' b s)) R sock =
    if R' =? R then b else typing_entry s R sock.
Proof.
  intros U. destruct (Z.eqb_spec R' R) as [e|ne].
  - subst R'. apply (on_typing_effect s sock user R b U).
  - unfold on_typing. rewrite U. simpl. unfold typing_entry.
    rewrite room_typing_set_ne by exact ne. reflexivity.
Qed.

Lemma disconnect_room_entry sock user c R acc R' :
  sock <> c ->
  typing_entry (fst (disconnect_room sock user acc R')) R c =
    typing_entry (fst acc) R c.
Proof.
  intros ne. destruct acc as [s out]. simpl.
  destruct (JsMap.get Z.eq_dec R' (chatroomUsers s)) as [ids|]; simpl; auto.
  destruct (JsSet.has jsstring_eq_dec sock ids); simpl; auto.
  destruct (JsMap.get Z.eq_dec R' (typingUsers s)) as [m|] eqn:E; simpl; auto.
  unfold typing_entry. destruct (Z.eq_dec R' R) as [e|ne'].
  - subst R'.
    change (JsMap.has jsstring_eq_dec c
              (room_typing
                 (with_typingUsers
                    (JsMap.set Z.eq_dec R (JsMap.delete jsstring_eq_dec sock m)
                       (typingUsers s)) s) R) =
            JsMap.has jsstring_eq_dec c (room_typing s R)).
    rewrite room_typing_set. rewrite has_delete_other by exact ne.
    unfold room_typing. rewrite E. reflexivity.
  - unfold room_typing. simpl. rewrite get_set_ne by exact ne'. reflexivity.
Qed.

Lemma disconnect_loop_entry sock user c R Rs : forall acc,
  sock <> c ->
  typing_entry (fst (fold_left (disconnect_room sock user) Rs acc)) R c =
    typing_entry (fst acc) R c.
Proof.
  induction Rs as [|R' Rs IH]; intros acc ne; simpl; auto.
  rewrite IH by exact ne. apply disconnect_room_entry. exact ne.
Qed.

Lemma on_disconnect_entry sock c R s :
  sock <> c ->
  typing_entry (fst (on_disconnect sock s)) R c = typing_entry s R c.
Proof.
  intros ne. unfold on_disconnect.
  assert (H0 : typing_entry (leave_all sock s) R c = typing_entry s R c)
    by (apply typing_entry_ext; reflexivity).
  destruct (socket_user (leave_all sock s) sock) as [user|].
  - pose proof (disconnect_loop_entry sock user c R
                  (JsMap.keys (chatroomUsers (leave_all sock s)))
                  (leave_all sock s, []) ne) as K.
    destruct (fold_left _ _ _) as [s1 out]. simpl in *.
    rewrite <- H0, <- K. apply typing_entry_ext. reflexivity.
  - simpl. exact H0.
Qed.

(** A step that is no typing signal and no disconnect of the socket
    leaves its entry as it is. *)
Lemma step_entry_unchanged l w sock R :
  match l with
  | Client c (Typing _ _) => c <> sock
  | Client c Disconnect => c <> sock
  | _ => True
  end ->
  typing_entry (server (fst (step l w))) R sock =
    typing_entry (server w) R sock.
Proof.
  intros H. destruct l as [c ev|n now|n|n clock].
  - rewrite step_client_server.
    destruct ev as [|id|R'|R' content|R' b|R'|];
      try (apply typing_entry_ext; apply start_typingUsers; exact I).
    + simpl. pose proof (on_typing_other_entry c R' b (server w) sock R H) as K.
      destruct (on_typing c R' b (server w)) as [s' out]. exact K.
    + simpl. pose proof (on_disconnect_entry c sock R (server w) H) as K.
      destruct (on_disconnect c (server w)) as [s' out]. exact K.
  - simpl. destruct (nth_error (tasks w) n) as [[a|r|]|]; simpl; auto.
    destruct (db_perform now a (db w)). reflexivity.
  - simpl. destruct (nth_error (tasks w) n) as [[a|r|]|]; simpl; auto.
  - simpl. destruct (nth_error (tasks w) n) as [[a|r|]|]; simpl; auto.
    pose proof (continue_typingUsers clock r (server w)) as K.
    destruct (continue clock r (server w)) as [[s' out] a]. simpl in *.
    apply typing_entry_ext. exact K.
Qed.

(** Once a socket is logged in it stays so, until it disconnects (or
    connects anew). *)
Lemma step_keeps_login l w sock :
  l <> Client sock Connection ->
  l <> Client sock Disconnect ->
  socket_user (server w) sock <> None ->
  socket_user (server (fst (step l w))) sock <> None.
Proof.
  intros N N' U. destruct l as [c ev|n now|n|n clock].
  - rewrite step_client_server.
    destruct ev as [|id|R'|R' content|R' b|R'|]; simpl.
    + destruct (jsstring_eq_dec c sock) as [e|ne]; [subst; congruence|].
      unfold socket_user. simpl. rewrite get_set_ne by exact ne. exact U.
    + exact U.
    + unfold joinRoom_start. destruct (socket_user (server w) c); exact U.
    + unfold message_start.
      destruct (socket_user (server w) c); [destruct (blank content)|]; exact U.
    + unfold on_typing. destruct (socket_user (server w) c); exact U.
    + unfold on_leaveRoom. destruct (socket_user (server w) c); simpl; auto.
      unfold socket_leave.
      destruct (JsMap.get Z.eq_dec R' (rooms (server w))); simpl;
        match goal with |- context [JsMap.get Z.eq_dec R' ?m] =>
          destruct (JsMap.get Z.eq_dec R' m) end; exact U.
    + destruct (jsstring_eq_dec c sock) as [e|ne]; [subst; congruence|].
      destruct (on_disconnect_fields c (server w)) as [A _].
      destruct (on_disconnect c (server w)) as [s' out]. simpl in *.
      unfold socket_user in *. rewrite A, get_delete_ne by exact ne. exact U.
  - simpl. destruct (nth_error (tasks w) n) as [[a|r|]|]; simpl; auto.
    destruct (db_perform now a (db w)). exact U.
  - simpl. destruct (nth_error (tasks w) n) as [[a|r|]|]; simpl; auto.
  - simpl. destruct (nth_error (tasks w) n) as [[a|r|]|]; simpl; auto.
    destruct r as [k o|k u R' o|k u R' o|k u R' o|k u R' o|k u R' b o];
      destruct o as [a|]; simpl; try (destruct a; simpl); auto.
    + unfold socket_user, set_socket_user in *.
      destruct (is_connected (server w) k); simpl; [|exact U].
      destruct (jsstring_eq_dec k sock) as [e|ne].
      * subst. rewrite get_set_eq. discriminate.
      * rewrite get_set_ne by exact ne. exact U.
    + unfold socket_user in *. simpl.
      rewrite (proj1 (socket_join_fields (server w) k R')). exact U.
Qed.

(** The entry of a logged-in socket after a run is the flag of its last
    typing signal for the room, whatever the other sockets and the store
    do in between. *)
Lemma run_typing_entry ls : forall w sock R,
  socket_user (server w) sock <> None ->
  forallb is_session_event (events_of sock ls) = true ->
  typing_entry (server (fst (run ls w))) R sock =
    last_flag R (events_of sock ls) (typing_entry (server w) R sock).
Proof.
  induction ls as [|l ls IH]; intros w sock R U F; [reflexivity|].
  assert (S1 : run (l :: ls) w =
               (fst (run ls (fst (step l w))),
                snd (step l w) ++ snd (run ls (fst (step l w))))).
  { simpl. destruct (step l w) as [w1 out1]. simpl.
    destruct (run ls w1) as [w2 out2]. reflexivity. }
  rewrite S1. cbn [fst]. clear S1.
  destruct l as [c ev|n now|n|n clock].
  - destruct (jsstring_eq_dec c sock) as [e|ne].
    + subst c.
      assert (Ev : events_of sock (Client sock ev :: ls) =
                   ev :: events_of sock ls).
      { unfold events_of. simpl.
        destruct (jsstring_eq_dec sock sock); [reflexivity|congruence]. }
      rewrite Ev in *. simpl in F. apply andb_true_iff in F.
      destruct F as [F1 F2].
      assert (U1 : socket_user (server (fst (step (Client sock ev) w))) sock
                   <> None).
      { apply step_keeps_login; auto; intros K; inversion K; subst;
          discriminate. }
      rewrite (IH _ sock R U1 F2).
      change (last_flag R (ev :: events_of sock ls)
                (typing_entry (server w) R sock))
        with (last_flag R (events_of sock ls)
                match ev with
                | Typing R' f =>
                    if R' =? R then f else typing_entry (server w) R sock
                | _ => typing_entry (server w) R sock
                end).
      f_equal.
      destruct ev as [|id|R'|R' content|R' b|R'|]; simpl in F1;
        try discriminate; cbv iota;
        try (apply step_entry_unchanged; exact I).
      rewrite step_client_server. simpl.
      destruct (socket_user (server w) sock) as [user|] eqn:Us; [|congruence].
      pose proof (on_typing_own_entry sock R' b (server w) user R Us) as K.
      destruct (on_typing sock R' b (server w)) as [s' out]. exact K.
    + assert (Ev : events_of sock (Client c ev :: ls) = events_of sock ls).
      { unfold events_of. simpl.
        destruct (jsstring_eq_dec c sock); [congruence|reflexivity]. }
      rewrite Ev in *.
      assert (U1 : socket_user (server (fst (step (Client c ev) w))) sock
                   <> None).
      { apply step_keeps_login; auto; intros K; inversion K; subst;
          congruence. }
      rewrite (IH _ sock R U1 F). f_equal.
      apply step_entry_unchanged. destruct ev; auto.
  - change (events_of sock (Query n now :: ls)) with (events_of sock ls) in *.
    rewrite IH; auto.
    + f_equal. apply step_entry_unchanged. exact I.
    + apply step_keeps_login; auto; discriminate.
  - change (events_of sock (QueryFails n :: ls)) with (events_of sock ls) in *.
    rewrite IH; auto.
    + f_equal. apply step_entry_unchanged. exact I.
    + apply step_keeps_login; auto; discriminate.
  - change (events_of sock (Resume n clock :: ls)) with (events_of sock ls) in *.
    rewrite IH; auto.
    + f_equal. apply step_entry_unchanged. exact I.
    + apply step_keeps_login; auto; discriminate.
Qed.

Lemma last_flag_app R out out' b :
  last_flag R (out ++ out') b = last_flag R out' (last_flag R out b).
Proof. unfold last_flag. apply fold_left_app. Qed.

(** While the chat view of room [R] stays open, the client stays in [R],
    and the flag of its last signal for [R] is its [isTyping] field. *)
Lemma ui_step_in_room now e c R :
  currentRoom c = Some R ->
  stays_in_room e = true ->
  currentRoom (fst (ui_step now e c)) = Some R /\
  last_flag R (snd (ui_step now e c)) (isTyping c) =
    isTyping (fst (ui_step now e c)).
Proof.
  intros Cr St. destruct c as [room b t]. simpl in Cr. subst room.
  destruct e as [| |value| | |room']; try discriminate; simpl;
    unfold handleTyping, typing_timer, sendMessage, stopTyping; simpl.
  - destruct b; simpl; rewrite ?Z.eqb_refl; auto.
  - destruct t as [due|]; [destruct (due <=? now)|]; simpl; auto.
    destruct b; simpl; rewrite ?Z.eqb_refl; auto.
  - destruct (is_empty (trim value)); simpl; auto.
    destruct b; simpl; rewrite ?Z.eqb_refl; auto.
Qed.

Lemma ui_run_in_room es : forall c R,
  currentRoom c = Some R ->
  forallb (fun e => stays_in_room (snd e)) es = true ->
  currentRoom (fst (ui_run es c)) = Some R /\
  last_flag R (snd (ui_run es c)) (isTyping c) = isTyping (fst (ui_run es c)).
Proof.
  induction es as [|[now e] es IH]; intros c R Cr F; simpl; auto.
  simpl in F. apply andb_true_iff in F. destruct F as [F1 F2].
  pose proof (ui_step_in_room now e c R Cr F1) as [A B].
  destruct (ui_step now e c) as [c1 out1]. simpl in *.
  pose proof (IH c1 R A F2) as [A' B'].
  destruct (ui_run es c1) as [c2 out2]. simpl in *.
  split; [exact A'|]. rewrite last_flag_app, B. exact B'.
Qed.

(** The client's room and typing code emits neither a connection nor a
    disconnect. *)
Lemma ui_run_session es : forall c,
  forallb is_session_event (snd (ui_run es c)) = true.
Proof.
  induction es as [|[now e] es IH]; intros c; simpl; auto.
  assert (S1 : forallb is_session_event (snd (ui_step now e c)) = true).
  { destruct c as [[room|] [|] t]; destruct e as [| |value| | |room']; simpl;
      unfold handleTyping, typing_timer, sendMessage, leaveCurrentRoom,
        showChatroomList, stopTyping; simpl; try reflexivity;
      try (destruct t as [due|]; [destruct (due <=? now)|]; reflexivity);
      try (destruct (is_empty (trim value)); reflexivity). }
  destruct (ui_step now e c) as [c1 out1]. specialize (IH c1).
  destruct (ui_run es c1) as [c2 out2]. simpl in *.
  rewrite forallb_app, S1, IH. reflexivity.
Qed.

(** While the client keeps the chat view of room [R] open, the server's
    typing map of [R] has an entry for the client's socket exactly when
    the client's [isTyping] field is set.  This holds after any run of
    the server in which the events of that socket are the ones the client
    emitted, whatever other sockets send and whenever the store answers,
    provided the socket is logged in and the two agreed at the start. *)
Theorem server_entry_follows_client :
  forall (c : ChatRoom) (es : list (Z * UiEvent)) (w : World) (ls : list Label)
         (sock : SocketId) (R : Z),
    currentRoom c = Some R ->
    forallb (fun e => stays_in_room (snd e)) es = true ->
    socket_user (server w) sock <> None ->
    typing_entry (server w) R sock = isTyping c ->
    events_of sock ls = snd (ui_run es c) ->
    typing_entry (server (fst (run ls w))) R sock =
      isTyping (fst (ui_run es c)).
Proof.
  intros c es w ls sock R Cr St U Ag Ev.
  rewrite (run_typing_entry ls w sock R U).
  - rewrite Ev, Ag. apply (ui_run_in_room es c R Cr St).
  - rewrite Ev. apply ui_run_session.
Qed.

Lemma lobby_sockA_logged_in : socket_user (server lobby_world) sockA <> None.
Proof. vm_compute. discriminate. Qed.

Lemma lobby_sockA_not_typing : typing_entry (server lobby_world) 42 sockA = false.
Proof. vm_compute. reflexivity. Qed.

Lemma server_entry_follows_client_witness :
  let c := {| currentRoom := Some 42; isTyping := false;
              typingTimeout := None |} in
  let es := [(0, UiInput); (900, UiInput); (1000, UiSend (js "hi"));
             (1500, UiInput); (4600, UiTimer)] in
  let ls := [Client sockA (Typing 42 true); Client sockB (Typing 42 true);
             Client sockA (Message 42 (js "hi")); Query 5 1;
             Client sockA (Typing 42 false); Resume 5 (js "12:00:00");
             Client sockA (Typing 42 true); Client sockB Disconnect;
             Client sockA (Typing 42 false)] in
  isTyping (fst (ui_run es c)) = false /\
  typing_entry (server (fst (run ls lobby_world))) 42 sockA = false.
Proof.
  cbv zeta. split; [vm_compute; reflexivity|].
  rewrite (server_entry_follows_client
             {| currentRoom := Some 42; isTyping := false;
                typingTimeout := None |}
             [(0, UiInput); (900, UiInput); (1000, UiSend (js "hi"));
              (1500, UiInput); (4600, UiTimer)]
             lobby_world _ sockA 42).
  - vm_compute. reflexivity.
  - reflexivity.
  - reflexivity.
  - exact lobby_sockA_logged_in.
  - exact lobby_sockA_not_typing.
  - vm_compute. reflexivity.
Defined.

(* ------------------------------------------------------------------ *)
(** *** Leaving a room while typing *)
(* ------------------------------------------------------------------ *)

(** A client that does not show room [R] emits no typing signal for [R]
    until it joins [R]. *)
Lemma ui_step_typing_room now e c R' f :
  In (Typing R' f) (snd (ui_step now e c)) -> currentRoom c = Some R'.
Proof.
  destruct c as [[room|] b t]; destruct e as [| |value| | |room']; simpl;
    unfold handleTyping, typing_timer, sendMessage, leaveCurrentRoom,
      showChatroomList, stopTyping; simpl;
    try (destruct t as [due|]; [destruct (due <=? now)|]);
    try (destruct (is_empty (trim value)));
    try destruct b; simpl; intros H;
    repeat match type of H with
           | False => destruct H
           | _ \/ _ => destruct H as [H|H]
           | _ = Typing _ _ => inversion H; subst; reflexivity
           end.
Qed.

Lemma ui_step_room now e c :
  currentRoom (fst (ui_step now e c)) =
    match e with
    | UiJoined room => Some room
    | UiLeave => None
    | UiBack => None
    | _ => currentRoom c
    end.
Proof.
  destruct c as [[room|] b t]; destruct e as [| |value| | |room']; simpl;
    unfold handleTyping, typing_timer, sendMessage, leaveCurrentRoom,
      showChatroomList, stopTyping; simpl;
    try (destruct t as [due|]; [destruct (due <=? now)|]);
    try (destruct (is_empty (trim value)));
    try destruct b; reflexivity.
Qed.

Lemma ui_step_outside now e c R ev :
  currentRoom c <> Some R ->
  is_joined R e = false ->
  currentRoom (fst (ui_step now e c)) <> Some R /\
  (In ev (snd (ui_step now e c)) ->
   match ev with Typing R' _ => R' <> R | _ => True end).
Proof.
  intros Cr J. split.
  - rewrite ui_step_room. destruct e as [| |value| | |room']; simpl in *;
      try exact Cr; try discriminate.
    apply Z.eqb_neq in J. congruence.
  - intros H. destruct ev as [|id|R'|R' content|R' b|R'|]; try exact I.
    apply ui_step_typing_room in H. congruence.
Qed.

Lemma ui_run_outside es : forall c R ev,
  currentRoom c <> Some R ->
  forallb (fun e => negb (is_joined R (snd e))) es = true ->
  In ev (snd (ui_run es c)) ->
  match ev with Typing R' _ => R' <> R | _ => True end.
Proof.
  induction es as [|[now e] es IH]; intros c R ev Cr F H; simpl in *;
    [destruct H|].
  apply andb_true_iff in F. destruct F as [F1 F2].
  apply negb_true_iff in F1.
  pose proof (ui_step_outside now e c R ev Cr F1) as [A B].
  destruct (ui_step now e c) as [c1 out1]. simpl in *.
  pose proof (IH c1 R ev A F2) as K.
  destruct (ui_run es c1) as [c2 out2]. simpl in *.
  apply in_app_or in H. destruct H as [H|H]; [exact (B H)|exact (K H)].
Qed.

Lemma events_no_stop sock R ls :
  (forall ev, In ev (events_of sock ls) ->
              is_session_event ev = true /\
              match ev with Typing R' _ => R' <> R | _ => True end) ->
  forallb (fun l => negb (stops_typing sock R l)) ls = true.
Proof.
  induction ls as [|l ls IH]; intros H; simpl; auto.
  apply andb_true_iff. split.
  - apply negb_true_iff. destruct l as [c ev|n now|n|n clock]; auto.
    destruct (jsstring_eq_dec c sock) as [e|ne].
    + assert (I1 : In ev (events_of sock (Client c ev :: ls))).
      { unfold events_of. simpl.
        destruct (jsstring_eq_dec c sock); [left; reflexivity|congruence]. }
      destruct (H ev I1) as [S1 S2].
      destruct ev as [|id|R'|R' content|R' b|R'|]; simpl; auto;
        try discriminate.
      destruct b; auto. apply Z.eqb_neq in S2. rewrite S2.
      apply andb_false_r.
    + destruct ev as [|id|R'|R' content|R' b|R'|]; simpl; auto.
      * destruct b; auto. destruct (jsstring_eq_dec c sock); [congruence|].
        reflexivity.
      * destruct (jsstring_eq_dec c sock); [congruence|reflexivity].
  - apply IH. intros ev I1. apply H. unfold events_of in *. simpl.
    apply in_or_app. right. exact I1.
Qed.

(** Leaving a room does not withdraw the typing signal.  [leaveCurrentRoom]
    and [showChatroomList] leave [isTyping] as it is and send no
    [typing: false]; after either, the client sends no typing signal for
    the room it left until it joins that room again (a later stop signal
    goes to the room it shows then).  So the entry its socket has in the
    typing map of the room it left stays there after any run of the
    server in which the events of that socket are the ones the client
    emitted, whatever else happens. *)
Theorem leaving_strands_typing_entry :
  forall (c : ChatRoom) (now : Z) (leave : UiEvent) (es : list (Z * UiEvent))
         (w : World) (ls : list Label) (sock : SocketId) (R : Z),
    currentRoom c = Some R ->
    leave = UiLeave \/ leave = UiBack ->
    forallb (fun e => negb (is_joined R (snd e))) es = true ->
    typing_entry (server w) R sock = true ->
    events_of sock ls = snd (ui_run ((now, leave) :: es) c) ->
    isTyping (fst (ui_step now leave c)) = isTyping c /\
    snd (ui_step now leave c) = [LeaveRoom R] /\
    ~ In (Typing R false) (snd (ui_run ((now, leave) :: es) c)) /\
    typing_entry (server (fst (run ls w))) R sock = true.
Proof.
  intros c now leave es w ls sock R Cr Lv Nj En Ev.
  assert (S1 : fst (ui_step now leave c) = with_currentRoom None c /\
               snd (ui_step now leave c) = [LeaveRoom R]).
  { destruct Lv; subst leave; simpl;
      unfold leaveCurrentRoom, showChatroomList; rewrite Cr; simpl; auto. }
  destruct S1 as [S1 S2].
  assert (Out : forall ev, In ev (snd (ui_run ((now, leave) :: es) c)) ->
                match ev with Typing R' _ => R' <> R | _ => True end).
  { intros ev H. simpl in H.
    destruct (ui_step now leave c) as [c1 out1]. simpl in S1, S2. subst c1 out1.
    pose proof (ui_run_outside es (with_currentRoom None c) R ev) as K.
    destruct (ui_run es (with_currentRoom None c)) as [c2 out2]. simpl in *.
    destruct H as [H|H]; [subst ev; exact I|].
    apply K; auto. discriminate. }
  split; [rewrite S1; reflexivity|]. split; [exact S2|]. split.
  - intros H. apply Out in H. congruence.
  - apply run_keeps_typing_entry; [|exact En].
    apply events_no_stop. intros ev H. rewrite Ev in H. split.
    + pose proof (ui_run_session ((now, leave) :: es) c) as K.
      rewrite forallb_forall in K. apply K. exact H.
    + apply Out. exact H.
Qed.

Lemma lobby_sockA_typing :
  typing_entry (server (fst (step (Client sockA (Typing 42 true)) lobby_world)))
    42 sockA = true.
Proof. vm_compute. reflexivity. Qed.

Lemma leaving_strands_typing_entry_witness :
  let c := {| currentRoom := Some 42; isTyping := true;
              typingTimeout := Some 3000 |} in
  let es := [(3000, UiTimer); (4000, UiJoined 7); (5000, UiInput);
             (8000, UiTimer)] in
  let w := fst (step (Client sockA (Typing 42 true)) lobby_world) in
  let ls := [Client sockA (LeaveRoom 42); Client sockA (JoinRoom 7);
             Client sockB (Typing 42 false); Client sockA (Typing 7 false)] in
  snd (ui_run ((1000, UiLeave) :: es) c) =
    [LeaveRoom 42; JoinRoom 7; Typing 7 false] /\
  typing_entry (server (fst (run ls w))) 42 sockA = true.
Proof.
  cbv zeta. split; [vm_compute; reflexivity|].
  apply (leaving_strands_typing_entry
           {| currentRoom := Some 42; isTyping := true;
              typingTimeout := Some 3000 |}
           1000 UiLeave
           [(3000, UiTimer); (4000, UiJoined 7); (5000, UiInput);
            (8000, UiTimer)]
           (fst (step (Client sockA (Typing 42 true)) lobby_world))
           _ sockA 42).
  - reflexivity.
  - left. reflexivity.
  - reflexivity.
  - exact lobby_sockA_typing.
  - vm_compute. reflexivity.
Defined.

(* ================================================================== *)
(** ** What a step does to the rooms and to the sets of [chatroomUsers] *)
(* ================================================================== *)

Lemma connected_same s s' x :
  sockets s' = sockets s -> is_connected s' x = is_connected s x.
Proof. unfold is_connected. intros E. rewrite E. reflexivity. Qed.

Lemma connected_after_set s s' c v x :
  sockets s' = JsMap.set jsstring_eq_dec c v (sockets s) ->
  is_connected s' x = if jsstring_eq_dec x c then true else is_connected s x.
Proof.
  unfold is_connected, JsMap.has. intros E. rewrite E.
  destruct (jsstring_eq_dec x c) as [e|ne].
  - subst. rewrite get_set_eq. reflexivity.
  - rewrite get_set_ne by congruence. reflexivity.
Qed.

Lemma connected_after_delete s s' c x :
  sockets s' = JsMap.delete jsstring_eq_dec c (sockets s) ->
  is_connected s' x = if jsstring_eq_dec x c then false else is_connected s x.
Proof.
  unfold is_connected, JsMap.has. intros E. rewrite E.
  destruct (jsstring_eq_dec x c) as [e|ne].
  - subst. rewrite get_delete_eq. reflexivity.
  - rewrite get_delete_ne by congruence. reflexivity.
Qed.

Lemma on_typing_fields sock R b s :
  sockets (fst (on_typing sock R b s)) = sockets s /\
  rooms (fst (on_typing sock R b s)) = rooms s /\
  chatroomUsers (fst (on_typing sock R b s)) = chatroomUsers s.
Proof. unfold on_typing. destruct (socket_user s sock); simpl; auto. Qed.

Lemma on_leaveRoom_sockets sock R s :
  sockets (fst (on_leaveRoom sock R s)) = sockets s.
Proof.
  unfold on_leaveRoom. destruct (socket_user s sock); simpl; auto.
  unfold socket_leave.
  destruct (JsMap.get Z.eq_dec R (rooms s)); simpl;
    match goal with |- context [JsMap.get ?d ?k ?m] =>
      destruct (JsMap.get d k m) end; reflexivity.
Qed.

(** The sockets that are connected after the start of a handler. *)
Lemma start_sockets c ev s :
  sockets (fst (fst (start c ev s))) =
  match ev with
  | Connection => JsMap.set jsstring_eq_dec c None (sockets s)
  | Disconnect => JsMap.delete jsstring_eq_dec c (sockets s)
  | _ => sockets s
  end.
Proof.
  destruct ev as [|id|R|R content|R b|R|]; simpl; auto.
  - unfold joinRoom_start. destruct (socket_user s c); reflexivity.
  - unfold message_start.
    destruct (socket_user s c); [destruct (blank content)|]; reflexivity.
  - pose proof (on_typing_fields c R b s) as [A _].
    destruct (on_typing c R b s) as [s' out]. exact A.
  - pose proof (on_leaveRoom_sockets c R s) as A.
    destruct (on_leaveRoom c R s) as [s' out]. exact A.
  - pose proof (on_disconnect_fields c s) as [A _].
    destruct (on_disconnect c s) as [s' out]. exact A.
Qed.

(** The rest of a handler connects and disconnects nobody. *)
Lemma continue_connected clock r s x :
  is_connected (fst (fst (continue clock r s))) x = is_connected s x.
Proof.
  destruct r as [k o|k u R o|k u R o|k u R o|k u R o|k u R b o];
    destruct o as [a|]; simpl; try (destruct a; simpl); try reflexivity.
  - unfold set_socket_user. destruct (is_connected s k) eqn:C; [|reflexivity].
    unfold is_connected, JsMap.has in *. simpl.
    destruct (jsstring_eq_dec k x) as [e|ne].
    + subst. rewrite get_set_eq. symmetry. exact C.
    + rewrite get_set_ne by exact ne. reflexivity.
  - apply connected_same. simpl. apply socket_join_fields.
Qed.

Lemma leave_all_rooms sock s R :
  room_sockets (leave_all sock s) R =
  JsSet.delete jsstring_eq_dec sock (room_sockets s R).
Proof.
  unfold leave_all, room_sockets. simpl.
  induction (rooms s) as [|[k l] m IH]; simpl; [reflexivity|].
  destruct (Z.eq_dec R k); [reflexivity|exact IH].
Qed.

Lemma disconnect_loop_chatroom_in sock user R x Rs : forall acc,
  In x (chatroom_sockets (fst (fold_left (disconnect_room sock user) Rs acc)) R)
  <-> In x (chatroom_sockets (fst acc) R) /\ (In R Rs -> x <> sock).
Proof.
  induction Rs as [|R0 Rs IH]; intros acc; simpl.
  - tauto.
  - rewrite IH, disconnect_room_chatroom.
    destruct (Z.eq_dec R0 R) as [e|ne].
    + rewrite in_delete. subst R0. tauto.
    + tauto.
Qed.

(** The disconnect handler, with what Socket.IO does before it: the
    socket leaves every room, and every set of [chatroomUsers] if it was
    logged in. *)
Lemma on_disconnect_presence sock s :
  (forall R x, In x (room_sockets (fst (on_disconnect sock s)) R) <->
               In x (room_sockets s R) /\ x <> sock) /\
  (forall R x, In x (chatroom_sockets (fst (on_disconnect sock s)) R) <->
               In x (chatroom_sockets s R) /\
               (socket_user s sock <> None -> x <> sock)).
Proof.
  unfold on_disconnect.
  assert (U0 : socket_user (leave_all sock s) sock = socket_user s sock)
    by reflexivity.
  rewrite U0.
  destruct (socket_user s sock) as [user|].
  - pose proof (disconnect_loop_rooms sock user
                  (JsMap.keys (chatroomUsers (leave_all sock s)))
                  (leave_all sock s, [])) as Rm.
    pose proof (fun R x => disconnect_loop_chatroom_in sock user R x
                  (JsMap.keys (chatroomUsers (leave_all sock s)))
                  (leave_all sock s, [])) as Ch.
    destruct (fold_left _ _ _) as [s1 out]. simpl in *. split.
    + intros R x.
      change (In x (room_sockets s1 R) <-> In x (room_sockets s R) /\ x <> sock).
      unfold room_sockets at 1. rewrite Rm.
      change (In x (room_sockets (leave_all sock s) R) <->
              In x (room_sockets s R) /\ x <> sock).
      rewrite leave_all_rooms. apply in_delete.
    + intros R x.
      change (In x (chatroom_sockets s1 R) <->
              In x (chatroom_sockets s R) /\ (Some user <> None -> x <> sock)).
      rewrite Ch.
      change (chatroom_sockets (leave_all sock s) R)
        with (chatroom_sockets s R).
      split.
      * intros [I K]. split; [exact I|]. intros _. apply K.
        apply (get_in_keys _ _ Z.eq_dec R _ (chatroom_sockets s R)).
        apply (chatroom_sockets_get s R x I).
      * intros [I K]. split; [exact I|]. intros _. apply K. discriminate.
  - simpl. split.
    + intros R x.
      change (In x (room_sockets (leave_all sock s) R) <->
              In x (room_sockets s R) /\ x <> sock).
      rewrite leave_all_rooms. apply in_delete.
    + intros R x.
      change (In x (chatroom_sockets s R) <->
              In x (chatroom_sockets s R) /\ (@None UserInfo <> None -> x <> sock)).
      split; [intros I; split; [exact I|congruence]|tauto].
Qed.

(** Who is in a room, and in a set, after the start of a handler: only
    [leaveRoom] and [disconnect] change them, and they only take the
    socket itself out. *)
Lemma start_rooms_iff c ev s R x :
  In x (room_sockets (fst (fst (start c ev s))) R) <->
  In x (room_sockets s R) /\
  match ev with
  | Disconnect => x <> c
  | LeaveRoom R0 => socket_user s c <> None -> R0 = R -> x <> c
  | _ => True
  end.
Proof.
  destruct ev as [|id|R0|R0 content|R0 b|R0|]; simpl.
  - tauto.
  - tauto.
  - unfold joinRoom_start. destruct (socket_user s c); simpl; tauto.
  - unfold message_start.
    destruct (socket_user s c); [destruct (blank content)|]; simpl; tauto.
  - pose proof (on_typing_fields c R0 b s) as [_ [A _]].
    destruct (on_typing c R0 b s) as [s' out]. simpl in *.
    unfold room_sockets. rewrite A. tauto.
  - destruct (socket_user s c) as [user|] eqn:U.
    + pose proof (on_leaveRoom_presence c R0 s user R U) as [_ [A _]].
      destruct (on_leaveRoom c R0 s) as [s' out]. simpl in *. rewrite A.
      destruct (Z.eq_dec R0 R) as [e|ne].
      * rewrite in_delete. split; [intros [I N]; auto|].
        intros [I N]. split; [exact I|]. apply N; [discriminate|exact e].
      * split; [intros I; split; [exact I|intros _ e; congruence]|tauto].
    + unfold on_leaveRoom. rewrite U. simpl.
      split; [intros I; split; [exact I|intros N; congruence]|tauto].
  - pose proof (on_disconnect_presence c s) as [A _].
    destruct (on_disconnect c s) as [s' out]. simpl in *. apply A.
Qed.

Lemma start_chatroom_iff c ev s R x :
  In x (chatroom_sockets (fst (fst (start c ev s))) R) <->
  In x (chatroom_sockets s R) /\
  match ev with
  | Disconnect => socket_user s c <> None -> x <> c
  | LeaveRoom R0 => socket_user s c <> None -> R0 = R -> x <> c
  | _ => True
  end.
Proof.
  destruct ev as [|id|R0|R0 content|R0 b|R0|]; simpl.
  - tauto.
  - tauto.
  - unfold joinRoom_start. destruct (socket_user s c); simpl; tauto.
  - unfold message_start.
    destruct (socket_user s c); [destruct (blank content)|]; simpl; tauto.
  - pose proof (on_typing_fields c R0 b s) as [_ [_ A]].
    destruct (on_typing c R0 b s) as [s' out]. simpl in *.
    unfold chatroom_sockets. rewrite A. tauto.
  - destruct (socket_user s c) as [user|] eqn:U.
    + pose proof (on_leaveRoom_presence c R0 s user R U) as [_ [_ A]].
      destruct (on_leaveRoom c R0 s) as [s' out]. simpl in *. rewrite A.
      destruct (Z.eq_dec R0 R) as [e|ne].
      * rewrite in_delete. split; [intros [I N]; auto|].
        intros [I N]. split; [exact I|]. apply N; [discriminate|exact e].
      * split; [intros I; split; [exact I|intros _ e; congruence]|tauto].
    + unfold on_leaveRoom. rewrite U. simpl.
      split; [intros I; split; [exact I|intros N; congruence]|tauto].
  - pose proof (on_disconnect_presence c s) as [_ A].
    destruct (on_disconnect c s) as [s' out]. simpl in *. apply A.
Qed.

(** Who is in a room, and in a set, after the rest of a handler: only a
    join that resumes after [addMember] changes them.  It puts the socket
    into the set, and into the room if the socket is still connected. *)
Lemma continue_rooms_iff clock r s R x :
  In x (room_sockets (fst (fst (continue clock r s))) R) <->
  In x (room_sockets s R) \/
  match r with
  | RdAddMember k _ R0 (Resolved _) =>
      R0 = R /\ x = k /\ is_connected s k = true
  | _ => False
  end.
Proof.
  destruct r as [k o|k u R0 o|k u R0 o|k u R0 o|k u R0 o|k u R0 b o];
    destruct o as [a|]; simpl; try (destruct a; simpl); try tauto.
  - unfold room_sockets. simpl.
    rewrite (proj1 (set_socket_user_fields s k _)). tauto.
  - change (In x (room_sockets
                    (fst (fst (joinRoom_added k u R0 (Resolved tt) s))) R) <->
            In x (room_sockets s R) \/
            R0 = R /\ x = k /\ is_connected s k = true).
    rewrite joinRoom_added_rooms.
    destruct (is_connected s k); [|split; [tauto|intros [I|[_ [_ F]]];
                                                 [exact I|discriminate]]].
    destruct (Z.eq_dec R0 R) as [e|ne].
    + subst R0. rewrite in_add. tauto.
    + tauto.
Qed.

Lemma continue_chatroom_iff clock r s R x :
  In x (chatroom_sockets (fst (fst (continue clock r s))) R) <->
  In x (chatroom_sockets s R) \/
  match r with
  | RdAddMember k _ R0 (Resolved _) => R0 = R /\ x = k
  | _ => False
  end.
Proof.
  destruct r as [k o|k u R0 o|k u R0 o|k u R0 o|k u R0 o|k u R0 b o];
    destruct o as [a|]; simpl; try (destruct a; simpl); try tauto.
  - unfold chatroom_sockets. simpl.
    rewrite (proj1 (proj2 (proj2 (set_socket_user_fields s k _)))). tauto.
  - change (In x (chatroom_sockets
                    (fst (fst (joinRoom_added k u R0 (Resolved tt) s))) R) <->
            In x (chatroom_sockets s R) \/ R0 = R /\ x = k).
    rewrite joinRoom_added_chatroom.
    destruct (Z.eq_dec R0 R) as [e|ne].
    + subst R0. rewrite in_add. tauto.
    + tauto.
Qed.

(** Every socket in a Socket.IO room is connected, and a step keeps it
    so: a closed socket has left its rooms and joins no room again. *)
Lemma step_rooms_connected l w :
  rooms_connected (server w) -> rooms_connected (server (fst (step l w))).
Proof.
  intros H. destruct l as [c ev|n now|n|n clock].
  - rewrite step_client_server. intros R x I.
    apply start_rooms_iff in I. destruct I as [I K].
    specialize (H R x I).
    pose proof (start_sockets c ev (server w)) as S.
    destruct ev as [|id|R0|R0 content|R0 b|R0|];
      try (rewrite (connected_same (server w) _ x S); exact H).
    + rewrite (connected_after_set (server w) _ c None x S).
      destruct (jsstring_eq_dec x c); [reflexivity|exact H].
    + rewrite (connected_after_delete (server w) _ c x S).
      destruct (jsstring_eq_dec x c); [contradiction|exact H].
  - simpl. destruct (nth_error (tasks w) n) as [[a|r|]|]; simpl; auto.
    destruct (db_perform now a (db w)). exact H.
  - simpl. destruct (nth_error (tasks w) n) as [[a|r|]|]; simpl; auto.
  - simpl. destruct (nth_error (tasks w) n) as [[a|r|]|]; simpl; auto.
    pose proof (fun R x => continue_rooms_iff clock r (server w) R x) as Rm.
    pose proof (fun x => continue_connected clock r (server w) x) as Cn.
    destruct (continue clock r (server w)) as [[s' out] a]. simpl in *.
    intros R x I. rewrite Cn. apply Rm in I. destruct I as [I|I].
    + apply (H R x I).
    + destruct r as [k o|k u R0 o|k u R0 o|k u R0 o|k u R0 o|k u R0 b o];
        try contradiction.
      destruct o as [[]|]; [|contradiction].
      destruct I as [_ [E C]]. subst x. exact C.
Qed.

Lemma run_rooms_connected ls : forall w,
  rooms_connected (server w) -> rooms_connected (server (fst (run ls w))).
Proof.
  induction ls as [|l ls IH]; intros w H; simpl; auto.
  pose proof (step_rooms_connected l w H) as H1.
  destruct (step l w) as [w1 out1]. specialize (IH w1 H1).
  destruct (run ls w1) as [w2 out2]. exact IH.
Qed.

(* ================================================================== *)
(** ** Publishing: who is sent the message, and which message *)
(* ================================================================== *)

Lemma db_perform_keeps_rows now a d r :
  In r (messages d) -> In r (messages (fst (db_perform now a d))).
Proof.
  intros I. destruct a as [c i|c u R|c u R|c u R|c u R|c u R b]; simpl; auto.
  - unfold Chatroom_addMember.
    destruct (is_member d R (ui_id u) || negb (chatroom_exists d R)
              || negb (user_exists d (ui_id u))); exact I.
  - unfold Message_create.
    destruct (chatroom_exists d R && user_exists d (ui_id u)); simpl; auto.
    apply in_or_app. left. exact I.
Qed.

(** A step that does not resume task [n] keeps the row of its insert in
    the store. *)
Lemma step_keeps_row l w n sock user R content :
  is_resume_of n l = false ->
  publish_in_flight w n sock user R content ->
  publish_row_stored w n sock user R content ->
  publish_row_stored (fst (step l w)) n sock user R content.
Proof.
  unfold publish_in_flight, publish_row_stored, persisted_as.
  intros NR F H. destruct l as [c ev|m now|m|m clock]; simpl.
  - destruct (start c ev (server w)) as [[s' out] a]. simpl.
    intros msg E. apply H.
    assert (L : (n < List.length (tasks w))%nat).
    { apply nth_error_Some. destruct F as [F|[o F]]; rewrite F; discriminate. }
    rewrite nth_error_app1 in E by exact L. exact E.
  - destruct (nth_error (tasks w) m) as [[a|r|]|] eqn:E; simpl; auto.
    pose proof (fun r => db_perform_keeps_rows now a (db w) r) as K.
    destruct (db_perform now a (db w)) as [d' r] eqn:P. simpl in *.
    destruct (Nat.eq_dec m n) as [e|ne].
    + subst m. intros msg Em. simpl in Em.
      rewrite (nth_error_set_nth_eq _ _ _ _ _ E) in Em.
      destruct F as [F|[o F]]; [|congruence].
      rewrite E in F. inversion F; subst a. simpl in P.
      unfold Message_create in P.
      destruct (chatroom_exists (db w) R && user_exists (db w) (ui_id user));
        inversion P; subst; [|discriminate].
      inversion Em; subst msg. exists now. simpl.
      apply in_or_app. right. left. reflexivity.
    + intros msg Em. simpl in Em.
      rewrite nth_error_set_nth_ne in Em by exact ne.
      destruct (H msg Em) as [t I]. exists t. apply K. exact I.
  - destruct (nth_error (tasks w) m) as [[a|r|]|] eqn:E; simpl; auto.
    destruct (Nat.eq_dec m n) as [e|ne].
    + subst m. intros msg Em. simpl in Em.
      rewrite (nth_error_set_nth_eq _ _ _ _ _ E) in Em.
      destruct F as [F|[o F]]; [|congruence].
      rewrite E in F. inversion F; subst a. simpl in Em. discriminate.
    + intros msg Em. simpl in Em.
      rewrite nth_error_set_nth_ne in Em by exact ne.
      apply (H msg Em).
  - simpl in NR. apply Nat.eqb_neq in NR.
    destruct (nth_error (tasks w) m) as [[a|r|]|] eqn:E; simpl; auto.
    destruct (continue clock r (server w)) as [[s' out] a]. simpl.
    intros msg Em. simpl in Em.
    rewrite nth_error_set_nth_ne in Em by exact NR.
    apply (H msg Em).
Qed.

Lemma run_keeps_row ls : forall w n sock user R content,
  forallb (fun l => negb (is_resume_of n l)) ls = true ->
  publish_in_flight w n sock user R content ->
  publish_row_stored w n sock user R content ->
  publish_row_stored (fst (run ls w)) n sock user R content.
Proof.
  induction ls as [|l ls IH]; intros w n sock user R content F P H; simpl; auto.
  simpl in F. apply andb_true_iff in F. destruct F as [F1 F2].
  apply negb_true_iff in F1.
  pose proof (step_keeps_publish l w n sock user R content F1 P) as P1.
  pose proof (step_keeps_row l w n sock user R content F1 P H) as H1.
  destruct (step l w) as [w1 out1]. simpl in P1, H1.
  specialize (IH w1 n sock user R content F2 P1 H1).
  destruct (run ls w1) as [w2 out2]. exact IH.
Qed.

(** When the publish resumes, it sends its message to the sockets that
    are in the room at that moment, and only if the insert succeeded. *)
Lemma resume_publish w n clock sock user R content :
  publish_in_flight w n sock user R content ->
  (forall m, persisted_as w n sock user R content m ->
             snd (step (Resume n clock) w) =
               io_to_emit (server w) R (published_event m user R content clock)) /\
  (~ persisted w n sock user R content ->
   forall c, ~ receives is_message c (snd (step (Resume n clock) w))).
Proof.
  unfold publish_in_flight, persisted, persisted_as, receives.
  intros [H|[o H]]; simpl; rewrite H.
  - split; [discriminate|]. intros _ c [ev [[] _]].
  - destruct o as [m|]; simpl.
    + split.
      * intros m' E. inversion E; subst. reflexivity.
      * intros N. exfalso. apply N. exists m. reflexivity.
    + split; [discriminate|].
      intros _ c [ev [[E|[]] K]]. inversion E; subst. discriminate.
Qed.

(** C1.  Socket [A] publishes [content] to room [R] in world [w]; the
    handler's insert becomes task [n].  Then anything may happen (the
    [window]: other clients' events, queries run or failed by the store,
    other handlers resuming) until task [n] resumes.  If the insert has
    succeeded, what the handler then sends is this publish's message (the
    id the store drew for the row that is now in [messages], the author,
    the trimmed content, the room), once to each socket that is in the
    room at that moment and to nobody else; if it has not, nobody is sent
    a message.  So a socket [B] that was in the room when the publish was
    called and is no longer there is not sent the message, and a socket
    [C] that came in meanwhile is sent it.  And the sockets that are sent
    it are connected, if those in the rooms of [w] were: a socket that
    disconnected during the window has left the room, and a join that
    resumes after its socket's disconnect does not bring it back. *)
Theorem publish_fans_out_to_live_room :
  forall (w : World) (A : SocketId) (user : UserInfo) (R : Z)
         (content : jsstring) (window : list Label) (clock : jsstring),
    socket_user (server w) A = Some user ->
    blank content = false ->
    let n := List.length (tasks w) in
    forallb (fun l => negb (is_resume_of n l)) window = true ->
    let w1 := fst (step (Client A (Message R content)) w) in
    let w2 := fst (run window w1) in
    let out := snd (step (Resume n clock) w2) in
    (forall m, persisted_as w2 n A user R content m ->
       out = io_to_emit (server w2) R (published_event m user R content clock) /\
       exists now, In (published_row m user R content now) (messages (db w2))) /\
    (~ persisted w2 n A user R content ->
     forall c, ~ receives is_message c out) /\
    (forall B, In B (room_sockets (server w) R) ->
               ~ In B (room_sockets (server w2) R) ->
               ~ receives is_message B out) /\
    (forall C m, ~ In C (room_sockets (server w) R) ->
                 In C (room_sockets (server w2) R) ->
                 persisted_as w2 n A user R content m ->
                 In (C, published_event m user R content clock) out) /\
    (rooms_connected (server w) ->
     forall c, receives is_message c out -> is_connected (server w2) c = true).
Proof.
  intros w A user R content window clock U B n F w1 w2 out.
  assert (P1 : publish_in_flight w1 n A user R content)
    by (apply message_start_in_flight; auto).
  assert (P : publish_in_flight w2 n A user R content)
    by (apply run_keeps_publish; auto).
  assert (S : publish_row_stored w2 n A user R content).
  { apply run_keeps_row; auto.
    intros m E. unfold persisted_as in E. destruct P1 as [P1|[o P1]].
    - rewrite P1 in E. discriminate.
    - exfalso. revert P1. unfold w1. simpl. unfold message_start.
      rewrite U, B. simpl. rewrite nth_error_app2, Nat.sub_diag by auto.
      discriminate. }
  pose proof (resume_publish w2 n clock A user R content P) as [Y N].
  fold out in Y, N.
  assert (M : forall c, receives is_message c out ->
                        In c (room_sockets (server w2) R)).
  { intros c Rc.
    destruct P as [Pw|[[m|] Ps]].
    - exfalso. refine (N _ c Rc). unfold persisted. intros [m E]. congruence.
    - rewrite (Y m Ps) in Rc. destruct Rc as [ev [I _]].
      apply in_io_to_emit in I. tauto.
    - exfalso. refine (N _ c Rc). unfold persisted. intros [m E]. congruence. }
  split; [|split; [|split; [|split]]].
  - intros m E. split; [apply Y; exact E|apply S; exact E].
  - exact N.
  - intros b _ Nb H. apply Nb. apply M. exact H.
  - intros c m _ I E. rewrite (Y m E). apply in_io_to_emit. auto.
  - intros Rc c H.
    assert (Rc2 : rooms_connected (server w2)).
    { unfold w2. apply run_rooms_connected. unfold w1.
      apply step_rooms_connected. exact Rc. }
    apply (Rc2 R c). apply M. exact H.
Qed.

Lemma lobby_rooms_connected : rooms_connected (server lobby_world).
Proof.
  intros R c I. unfold room_sockets in I.
  destruct (Z.eq_dec R 42) as [e|ne].
  - subst R. vm_compute in I. destruct I as [E|[E|[]]]; subst c;
      vm_compute; reflexivity.
  - assert (G : JsMap.get Z.eq_dec R (rooms (server lobby_world)) = None).
    { assert (K : rooms (server lobby_world) = [(42, [sockA; sockB])])
        by (vm_compute; reflexivity).
      rewrite K. simpl. destruct (Z.eq_dec R 42); [contradiction|reflexivity]. }
    rewrite G in I. destruct I.
Qed.

Lemma publish_fans_out_to_live_room_witness :
  let hi := EvMessage {| md_id := 1; md_userId := 1; md_nickname := js "Alice";
                         md_username := js "alice"; md_avatar := None;
                         md_content := js "hi"; md_timestamp := js "12:00:00";
                         md_chatroomId := 42 |} in
  let w1 := fst (step (Client sockA (Message 42 (js " hi "))) lobby_world) in
  let window := [Client sockB (LeaveRoom 42)] ++ join sockC 42 6 12 ++
                [Query 5 13] in
  let out := snd (step (Resume 5 (js "12:00:00")) (fst (run window w1))) in
  let gone := [Client sockC (JoinRoom 42); Query 6 12; Resume 6 [];
               Client sockC Disconnect; Query 6 12; Resume 6 []; Query 5 13] in
  let out' := snd (step (Resume 5 (js "12:00:00")) (fst (run gone w1))) in
  (In sockB (room_sockets (server lobby_world) 42) /\
   ~ receives is_message sockB out) /\
  (~ In sockC (room_sockets (server lobby_world) 42) /\ In (sockC, hi) out) /\
  out = [(sockA, hi); (sockC, hi)] /\
  out' = [(sockA, hi); (sockB, hi)] /\
  (forall c, receives is_message c out' -> c <> sockC).
Proof.
  intros hi w1 window out gone out'.
  pose (m := {| cr_id := 1; cr_chatroom_id := 42; cr_user_id := 1;
                cr_content := js "hi" |}).
  pose proof (publish_fans_out_to_live_room lobby_world sockA (info_of alice)
                42 (js " hi ") window (js "12:00:00")
                eq_refl eq_refl eq_refl) as [H1 [_ [HB [HC _]]]].
  pose proof (publish_fans_out_to_live_room lobby_world sockA (info_of alice)
                42 (js " hi ") gone (js "12:00:00")
                eq_refl eq_refl eq_refl) as [G1 [_ [_ [_ GC]]]].
  assert (E : persisted_as (fst (run window w1)) 5 sockA (info_of alice) 42
                (js " hi ") m) by (vm_compute; reflexivity).
  assert (E' : persisted_as (fst (run gone w1)) 5 sockA (info_of alice) 42
                 (js " hi ") m) by (vm_compute; reflexivity).
  assert (NB : ~ In sockC (room_sockets (server lobby_world) 42))
    by (vm_compute; intros [K|[K|[]]]; discriminate).
  split; [split|split; [split|split; [|split]]].
  - vm_compute. auto.
  - apply HB.
    + vm_compute. auto.
    + vm_compute. intros [K|[K|[]]]; discriminate.
  - exact NB.
  - apply (HC sockC m NB); [vm_compute; auto|exact E].
  - destruct (H1 m E) as [O _]. refine (eq_trans O _).
    vm_compute. reflexivity.
  - destruct (G1 m E') as [O _]. refine (eq_trans O _).
    vm_compute. reflexivity.
  - intros c Rc Ec. subst c.
    pose proof (GC lobby_rooms_connected sockC Rc) as K.
    vm_compute in K. discriminate.
Defined.

(* ================================================================== *)
(** ** The online count and the audience of the room *)
(* ================================================================== *)

Lemma in_set_nth (A : Type) (n : nat) (x : A) (l : list A) (y : A) :
  In y (set_nth n x l) -> y = x \/ In y l.
Proof.
  revert n. induction l as [|z l IH]; intros n H.
  - destruct n; simpl in H; destruct H.
  - destruct n as [|n]; simpl in H.
    + destruct H as [H|H]; [left; congruence|right; right; exact H].
    + destruct H as [H|H]; [right; left; exact H|].
      destruct (IH n H) as [K|K]; [left; exact K|right; right; exact K].
Qed.

Lemma db_perform_socket now a d :
  ready_socket (snd (db_perform now a d)) = await_socket a.
Proof.
  destruct a as [c id|c u R|c u R|c u R|c u R|c u R content]; simpl; auto.
  destruct (Message_create now R (ui_id u) (trim content) d) as [[d' m]|];
    reflexivity.
Qed.

Lemma db_fail_socket a : ready_socket (db_fail a) = await_socket a.
Proof. destruct a; reflexivity. Qed.

Lemma start_await_socket c ev s q :
  snd (start c ev s) = Some q -> await_socket q = c.
Proof.
  destruct ev as [|id|R|R content|R b|R|]; simpl.
  - discriminate.
  - intros H. inversion H. reflexivity.
  - unfold joinRoom_start. destruct (socket_user s c); simpl;
      [intros H; inversion H; reflexivity|discriminate].
  - unfold message_start.
    destruct (socket_user s c); [destruct (blank content)|]; simpl;
      try discriminate. intros H. inversion H. reflexivity.
  - destruct (on_typing c R b s). discriminate.
  - destruct (on_leaveRoom c R s). discriminate.
  - destruct (on_disconnect c s). discriminate.
Qed.

Lemma continue_await_socket clock r s q :
  snd (continue clock r s) = Some q -> await_socket q = ready_socket r.
Proof.
  destruct r as [k o|k u R o|k u R o|k u R o|k u R o|k u R b o];
    destruct o as [a|]; simpl; try (destruct a; simpl); try discriminate;
    intros H; inversion H; reflexivity.
Qed.

(** A step keeps the sets of [chatroomUsers] in line with the rooms, as
    long as a socket that connects has not been seen before. *)
Lemma step_presence_ok seen l w :
  fresh_connections seen [l] = true ->
  presence_ok seen w ->
  presence_ok (match l with Client c _ => c :: seen | _ => seen end)
              (fst (step l w)).
Proof.
  intros Fr [P1 [P2 [P3 P4]]]. destruct l as [c ev|n now|n|n clock].
  - assert (Fr' : ev = Connection -> ~ In c seen).
    { intros E. subst ev. simpl in Fr.
      rewrite andb_true_r in Fr. apply negb_true_iff in Fr.
      intros H. apply (has_true _ jsstring_eq_dec) in H. congruence. }
    pose proof (start_sockets c ev (server w)) as S.
    pose proof (fun R x => start_rooms_iff c ev (server w) R x) as Rm.
    pose proof (fun R x => start_chatroom_iff c ev (server w) R x) as Ch.
    pose proof (start_await_socket c ev (server w)) as Q.
    unfold presence_ok. rewrite step_client_server.
    assert (T : tasks (fst (step (Client c ev) w)) =
                tasks w ++ match snd (start c ev (server w)) with
                           | Some a => [Waiting a]
                           | None => []
                           end).
    { simpl. destruct (start c ev (server w)) as [[s' out] a]. reflexivity. }
    rewrite T. clear T.
    split; [|split; [|split]].
    + intros R x I. apply Rm in I. destruct I as [I K]. apply Ch.
      split; [apply P1; exact I|].
      destruct ev as [|id|R0|R0 content|R0 b|R0|]; auto.
    + intros R x I Cn. apply Ch in I. destruct I as [I K]. apply Rm.
      destruct ev as [|id|R0|R0 content|R0 b|R0|];
        try (rewrite (connected_same (server w) _ x S) in Cn;
             split; [apply P2; assumption|assumption]).
      * rewrite (connected_after_set (server w) _ c None x S) in Cn.
        destruct (jsstring_eq_dec x c) as [e|ne].
        -- subst x. exfalso. apply (Fr' eq_refl). apply (P3 R). exact I.
        -- split; [apply P2; assumption|exact K].
      * rewrite (connected_after_delete (server w) _ c x S) in Cn.
        destruct (jsstring_eq_dec x c) as [e|ne]; [discriminate|].
        split; [apply P2; assumption|exact ne].
    + intros R x I. apply Ch in I. right. apply (P3 R). tauto.
    + intros t x I E. apply in_app_or in I. destruct I as [I|I].
      * right. apply (P4 t x I E).
      * destruct (snd (start c ev (server w))) as [q|] eqn:Eq; [|destruct I].
        destruct I as [I|[]]. subst t. simpl in E. inversion E; subst x.
        left. symmetry. apply Q. reflexivity.
  - simpl. destruct (nth_error (tasks w) n) as [[a|r|]|] eqn:E; simpl;
      try (split; [exact P1|split; [exact P2|split; [exact P3|exact P4]]]).
    pose proof (db_perform_socket now a (db w)) as A.
    destruct (db_perform now a (db w)) as [d' r]. simpl in *.
    split; [exact P1|]. split; [exact P2|]. split; [exact P3|].
    intros t x H1 H2. apply in_set_nth in H1.
    destruct H1 as [H1|H1]; [|apply (P4 t x H1 H2)].
    subst t. simpl in H2. apply (P4 (Waiting a) x (nth_error_In _ _ E)).
    simpl. congruence.
  - simpl. destruct (nth_error (tasks w) n) as [[a|r|]|] eqn:E; simpl;
      try (split; [exact P1|split; [exact P2|split; [exact P3|exact P4]]]).
    split; [exact P1|]. split; [exact P2|]. split; [exact P3|].
    intros t x H1 H2. apply in_set_nth in H1.
    destruct H1 as [H1|H1]; [|apply (P4 t x H1 H2)].
    subst t. simpl in H2. apply (P4 (Waiting a) x (nth_error_In _ _ E)).
    simpl. rewrite <- (db_fail_socket a). exact H2.
  - simpl. destruct (nth_error (tasks w) n) as [[a|r|]|] eqn:E; simpl;
      try (split; [exact P1|split; [exact P2|split; [exact P3|exact P4]]]).
    assert (Sn : In (ready_socket r) seen)
      by (apply (P4 (Settled r) _ (nth_error_In _ _ E)); reflexivity).
    pose proof (fun R x => continue_rooms_iff clock r (server w) R x) as Rm.
    pose proof (fun R x => continue_chatroom_iff clock r (server w) R x) as Ch.
    pose proof (fun x => continue_connected clock r (server w) x) as Cn.
    pose proof (continue_await_socket clock r (server w)) as Q.
    destruct (continue clock r (server w)) as [[s' out] a]. simpl in *.
    split; [|split; [|split]].
    + intros R x I. apply Rm in I. apply Ch. destruct I as [I|I].
      * left. apply P1. exact I.
      * right.
        destruct r as [k o|k u R0 o|k u R0 o|k u R0 o|k u R0 o|k u R0 b o];
          try contradiction.
        destruct o as [[]|]; [tauto|contradiction].
    + intros R x I C. rewrite Cn in C. apply Ch in I. apply Rm.
      destruct I as [I|I].
      * left. apply P2; assumption.
      * right.
        destruct r as [k o|k u R0 o|k u R0 o|k u R0 o|k u R0 o|k u R0 b o];
          try contradiction.
        destruct o as [[]|]; [|contradiction].
        destruct I as [E1 E2]. subst x. auto.
    + intros R x I. apply Ch in I. destruct I as [I|I].
      * apply (P3 R). exact I.
      * destruct r as [k o|k u R0 o|k u R0 o|k u R0 o|k u R0 o|k u R0 b o];
          try contradiction.
        destruct o as [[]|]; [|contradiction].
        destruct I as [_ E2]. subst x. exact Sn.
    + intros t x H1 H2. apply in_set_nth in H1.
      destruct H1 as [H1|H1]; [|apply (P4 t x H1 H2)].
      subst t. destruct a as [q|]; [|discriminate]. simpl in H2.
      inversion H2; subst x. rewrite (Q q eq_refl). exact Sn.
Qed.

Lemma run_presence_ok ls : forall seen w,
  fresh_connections seen ls = true ->
  presence_ok seen w ->
  exists seen', presence_ok seen' (fst (run ls w)).
Proof.
  induction ls as [|l ls IH]; intros seen w Fr P; simpl.
  - exists seen. exact P.
  - assert (Fr1 : fresh_connections seen [l] = true /\
                  fresh_connections
                    (match l with Client c _ => c :: seen | _ => seen end) ls
                  = true).
    { destruct l as [c ev|n now|n|n clock]; simpl in *; auto.
      apply andb_true_iff in Fr. destruct Fr as [F1 F2].
      rewrite F1, F2. auto. }
    destruct Fr1 as [Fr1 Fr2].
    pose proof (step_presence_ok seen l w Fr1 P) as P1.
    destruct (step l w) as [w1 out1]. simpl in *.
    destruct (IH _ w1 Fr2 P1) as [seen' K].
    destruct (run ls w1) as [w2 out2]. exists seen'. exact K.
Qed.

(** The online count that the room list shows for a room against the
    audience of the room.  In every state the server reaches from its
    start, by any run in which sockets connect before they send anything
    else and however the handlers interleave, the sockets in the Socket.IO
    room are the connected sockets of the room's [chatroomUsers] set.  So
    the online count is never less than the number of sockets a broadcast
    to the room reaches, and it is that number when every socket in the
    set is connected.  The set can hold a socket that is gone: a join that
    resumes after its socket's disconnect adds the socket to the set while
    [socket.join] does nothing, and nothing takes it out again. *)
Theorem online_count_bounds_room_audience :
  forall (d : Db) (ls : list Label) (R : Z),
    fresh_connections [] ls = true ->
    let s := server (fst (run ls (init_world d))) in
    (forall c, In c (room_sockets s R) <->
               In c (chatroom_sockets s R) /\ is_connected s c = true) /\
    (List.length (room_sockets s R) <= online_count s R)%nat /\
    ((forall c, In c (chatroom_sockets s R) -> is_connected s c = true) ->
     online_count s R = List.length (room_sockets s R)).
Proof.
  intros d ls R Fr s.
  assert (P : exists seen', presence_ok seen' (fst (run ls (init_world d)))).
  { apply (run_presence_ok ls [] (init_world d) Fr).
    split; [|split; [|split]].
    - intros R' c H. destruct H.
    - intros R' c H. destruct H.
    - intros R' c H. destruct H.
    - intros t c H. destruct H. }
  destruct P as [seen' [P1 [P2 _]]]. fold s in P1, P2.
  assert (Rc : rooms_connected s).
  { apply run_rooms_connected. intros R' c H. destruct H. }
  assert (N : sets_ok s).
  { apply run_sets_ok. repeat split; intros k v K; discriminate. }
  destruct N as [N1 [N2 _]].
  assert (C : online_count s R = List.length (chatroom_sockets s R)).
  { unfold online_count, chatroom_sockets, JsMap.has.
    destruct (JsMap.get Z.eq_dec R (chatroomUsers s)); reflexivity. }
  assert (E : forall c, In c (room_sockets s R) <->
                        In c (chatroom_sockets s R) /\ is_connected s c = true).
  { intros c. split.
    - intros I. split; [apply P1; exact I|apply (Rc R); exact I].
    - intros [I K]. apply P2; assumption. }
  split; [exact E|]. split.
  - rewrite C. apply NoDup_incl_length.
    + apply room_sockets_nodup. exact N1.
    + intros c I. apply E in I. tauto.
  - intros A. rewrite C. apply Permutation_length. apply NoDup_Permutation.
    + apply chatroom_sockets_nodup. exact N2.
    + apply room_sockets_nodup. exact N1.
    + intros c. split; [intros I; apply E; auto|intros I; apply E in I; tauto].
Qed.

Lemma online_count_bounds_room_audience_witness :
  let ls := login sockA 1 0 ++ login sockB 2 1 ++ login sockC 3 2 ++
            join sockA 42 3 10 ++ join sockB 42 4 11 ++
            [Client sockC (JoinRoom 42); Query 5 12; Resume 5 [];
             Client sockC Disconnect; Query 5 12; Resume 5 []] in
  let s := server (fst (run ls (init_world demo_db))) in
  room_sockets s 42 = [sockA; sockB] /\
  chatroom_sockets s 42 = [sockA; sockB; sockC] /\
  online_count s 42 = 3%nat /\
  (List.length (room_sockets s 42) <= online_count s 42)%nat /\
  is_connected s sockC = false.
Proof.
  intros ls s.
  assert (Fr : fresh_connections [] ls = true) by (vm_compute; reflexivity).
  split; [vm_compute; reflexivity|]. split; [vm_compute; reflexivity|].
  split; [vm_compute; reflexivity|]. split; [|vm_compute; reflexivity].
  apply (proj1 (proj2 (online_count_bounds_room_audience demo_db ls 42 Fr))).
Defined.
